(** * libtinyiiod: the IIO registry, dispatcher and descriptor renderer

    A shallow embedding of [iio.h] and [iio.c]: the device / channel /
    attribute registry with its registration functions, the six dispatch
    entry points installed in the [tinyiiod_ops] table, and [generate_xml],
    which renders the registry into the fixed [xml] buffer of the context.

    C objects are modelled by value.  A failed [assert] and the dereference
    of a NULL list pointer inside a [for_each_*] macro end the run; they are
    kept as explicit outcomes.  Reading a [char] array that holds no
    terminating NUL as a string, and a write past the end of an array, are
    undefined behaviour: the source does not determine what the program does
    from there on.  The model marks the point at which a run reaches one of
    them and follows the run no further; it does not claim that the compiled
    program stops there.  The properties that say what the code returns or
    leaves behind carry hypotheses (names that are strings in their arrays,
    ids that print in three characters) under which no run reaches such a
    point. *)

From Stdlib Require Import ZArith List String Ascii Bool Lia DecimalString.
From Stdlib Require DecimalPos.
Import ListNotations.
Local Open Scope string_scope.
Local Open Scope Z_scope.

(** ** The C library, as far as [iio.c] uses it *)

Module Libc.

(** <errno.h>, Linux values. *)
Definition ENOENT : Z := 2.
Definition ENOMEM : Z := 12.
Definition EINVAL : Z := 22.
Definition ENOSYS : Z := 38.

(** Where the model ends a run that does not return. [assert_failed] is
    [abort()] after a failed [assert]; [null_dereference] is the read
    through a NULL list pointer. The other three mark undefined behaviour
    that the compiled program may well survive: an array without NUL is
    read as a string ([not_a_string]), a write goes past the end of
    [context->xml] ([xml_overrun]) or of the local [id_str]
    ([id_str_overrun]). What the program does after such a point is not
    modelled. *)
Inductive trap : Type :=
| assert_failed
| null_dereference
| not_a_string
| xml_overrun
| id_str_overrun.

Inductive result (A : Type) : Type :=
| Ok (a : A)
| Trap (t : trap).
Arguments Ok {A} a.
Arguments Trap {A} t.

Definition UINT_MOD : Z := 2 ^ 32.

(** Conversion to [unsigned int], and [unsigned int] addition. *)
Definition to_uint (z : Z) : Z := z mod UINT_MOD.
Definition uadd (a b : Z) : Z := (a + b) mod UINT_MOD.

(** Conversion to [int] (two's complement). *)
Definition to_int (z : Z) : Z :=
  let u := z mod UINT_MOD in
  if u <? 2 ^ 31 then u else u - UINT_MOD.

(** [size_t] to [ssize_t] on an LP64 target. *)
Definition to_ssize (z : Z) : Z :=
  let u := z mod 2 ^ 64 in
  if u <? 2 ^ 63 then u else u - 2 ^ 64.

(** A C string is represented by its bytes before the NUL. *)
Definition strlen (s : string) : Z := Z.of_nat (String.length s).

(** Only the sign of [strcmp] is specified; [iio.c] tests it against 0. *)
Definition strcmp (a b : string) : Z :=
  match String.compare a b with
  | Eq => 0
  | Lt => -1
  | Gt => 1
  end.

(** [strncpy(dst, src, n)] into a [char dst[n]]: the array receives the
    first [n] bytes of [src]; when [src] is shorter the rest is filled
    with NUL, otherwise no NUL is written. The array is represented by
    the bytes before its first NUL, or by all [n] bytes if it has none. *)
Definition strncpy (n : nat) (src : string) : string := substring 0 n src.

(** Reading a [char field[cap]] as a string: defined only when a NUL
    lies inside the array. *)
Definition c_str (cap : nat) (field : string) : option string :=
  if (String.length field <? cap)%nat then Some field else None.

Definition isspace (c : ascii) : bool :=
  let n := nat_of_ascii c in
  (Nat.eqb n 32 || (Nat.leb 9 n && Nat.leb n 13))%bool.

Definition digit_of (c : ascii) : option Z :=
  let n := Z.of_nat (nat_of_ascii c) in
  if ((48 <=? n) && (n <=? 57))%bool then Some (n - 48) else None.

Fixpoint skip_space (s : string) : string :=
  match s with
  | String c s' => if isspace c then skip_space s' else s
  | EmptyString => EmptyString
  end.

Fixpoint digits (acc : Z) (s : string) : Z :=
  match s with
  | String c s' =>
      match digit_of c with
      | Some d => digits (10 * acc + d) s'
      | None => acc
      end
  | EmptyString => acc
  end.

(** [strtol(s, NULL, 10)] with a 64-bit [long]: blanks, an optional sign,
    then the longest run of digits; out-of-range values are clamped. *)
Definition strtol (s : string) : Z :=
  let clamp z := Z.max (- 2 ^ 63) (Z.min (2 ^ 63 - 1) z) in
  match skip_space s with
  | String "-"%char s' => clamp (- digits 0 s')
  | String "+"%char s' => clamp (digits 0 s')
  | s' => clamp (digits 0 s')
  end.

(** [atoi(s)] is [(int) strtol(s, NULL, 10)]. It reports no error: a
    string with no leading number yields 0. *)
Definition atoi (s : string) : Z := to_int (strtol s).

(** The characters [sprintf(buf, "%d", n)] produces. *)
Definition decimal (n : Z) : string :=
  DecimalString.NilZero.string_of_int (Z.to_int n).

End Libc.
Import Libc.

(** ** iio.h: sizes, lists and the [for_each_*] macros *)

Definition IIO_XML_SIZE : Z := 1024 * 3.

Definition ATTR_NAME_MAX_SIZE : nat := 32.
Definition DEV_NAME_STR_MAX_SIZE : nat := 32.
Definition CHN_ID_STR_MAX_SIZE : nat := 32.
Definition CONTEXT_NAME_MAX_SIZE : nat := 32.
Definition CONTEXT_DESC_MAX_SIZE : nat := 32.
Definition TYPE_STR_MAX_SIZE : nat := 16.

(** A [struct attribute_list *], [struct channel_list *] or
    [struct device_list *]. The lists of the library are NULL, or one
    zeroed head node whose item pointer is still NULL ([nodes []]), or a
    chain of nodes that each point to an item; the registration functions
    build no other shape. *)
Inductive linked (T : Type) : Type :=
| NULL
| nodes (items : list T).
Arguments NULL {T}.
Arguments nodes {T} items.

(** What a statement does with the control flow: fall through to the next
    statement, execute a [return], or reach a point where the model ends
    the run. [S] is the state the statement works on. *)
Inductive flow (R S : Type) : Type :=
| Next (s : S)
| Return (r : R)
| Stop (t : trap) (s : S).
Arguments Next {R S} s.
Arguments Return {R S} r.
Arguments Stop {R S} t s.

Definition seq {R S : Type} (a : flow R S) (b : S -> flow R S) : flow R S :=
  match a with
  | Next s => b s
  | Return r => Return r
  | Stop t s => Stop t s
  end.

Notation "a ;; b" := (seq a b) (at level 61, left associativity).

Fixpoint for_each_items {T R S : Type} (body : T -> S -> flow R S)
    (items : list T) (s : S) : flow R S :=
  match items with
  | [] => Next s
  | item :: rest => body item s ;; for_each_items body rest
  end.

(** [for_each_attribute], [for_each_channel] and [for_each_device] read
    [_list->attribute] (or [->channel], [->device]) before anything else, so
    a NULL list is dereferenced; the loop ends at the first node whose item
    is NULL or after the last node. *)
Definition for_each {T R S : Type} (list : linked T)
    (body : T -> S -> flow R S) (s : S) : flow R S :=
  match list with
  | NULL => Stop null_dereference s
  | nodes items => for_each_items body items s
  end.

(** Reads the array [field] of capacity [cap] as a string. When the array
    holds no NUL, [strcmp], [strlen] and [strcat] read on past its end:
    the bytes they find there are not part of the model, which marks the
    run with [not_a_string] and follows it no further. *)
Definition with_string {R S : Type} (cap : nat) (field : string) (s : S)
    (k : string -> flow R S) : flow R S :=
  match c_str cap field with
  | Some str => k str
  | None => Stop not_a_string s
  end.

(** ** iio.h: the registry *)

Record attribute : Type := {
  attribute_name : string                (* char name[ATTR_NAME_MAX_SIZE] *)
}.

Definition attribute_list : Type := linked attribute.

Record channel : Type := {
  channel_id : string;                   (* char id[CHN_ID_STR_MAX_SIZE] *)
  channel_type : string;                 (* char type[TYPE_STR_MAX_SIZE] *)
  channel_attrs : attribute_list
}.

Definition channel_list : Type := linked channel.

Definition pointer : Type := Z.
Definition uintptr_t : Type := Z.
Definition size_t : Type := Z.
Definition ssize_t : Type := Z.

Section Registry.

(** Whatever the accessors of the devices read and change: hardware
    registers and the caller's buffers. *)
Variable World : Type.

(** [enum iio_attr_type] of tinyiiod.h; the dispatcher only passes it on. *)
Variable iio_attr_type : Type.

(** A call of a function pointer with all its arguments supplied. *)
Definition call : Type := World -> ssize_t * World.

Record attr_accessors : Type := {
  attr_read_attr :
    option (uintptr_t -> string -> pointer -> size_t -> iio_attr_type -> call);
  attr_write_attr :
    option (uintptr_t -> string -> pointer -> size_t -> iio_attr_type -> call)
}.

Record chn_accessors : Type := {
  chn_read_attr :
    option (uintptr_t -> string -> bool -> string -> pointer -> ssize_t -> call);
  chn_write_attr :
    option (uintptr_t -> string -> bool -> string -> pointer -> ssize_t -> call);
  chn_read_data : option (uintptr_t -> pointer -> size_t -> size_t -> call);
  chn_write_data : option (uintptr_t -> pointer -> size_t -> size_t -> call)
}.

(** The two accessor tables are pointers that [iio_new_static_device]
    asserts to be non-NULL; the slots inside them may be NULL. *)
Record device : Type := {
  device_name : string;                (* char name[DEV_NAME_STR_MAX_SIZE] *)
  device_id : Z;                       (* unsigned int *)
  device_data : uintptr_t;
  device_channels : channel_list;
  device_attrs : attribute_list;
  device_attr_accessors : attr_accessors;
  device_chn_accessors : chn_accessors
}.

Definition device_list : Type := linked device.

(** [struct context], without the [tinyiiod] handle. The [ops] table is
    represented by its two transport callbacks: its other seven entries
    are always the functions of this file. *)
Record context : Type := {
  context_name : string;               (* char name[CONTEXT_NAME_MAX_SIZE] *)
  context_description : string;        (* char description[CONTEXT_DESC_MAX_SIZE] *)
  context_devices : device_list;
  context_xml : string;                (* char xml[IIO_XML_SIZE] *)
  context_ops_write : option (pointer -> size_t -> call);
  context_ops_read : option (pointer -> size_t -> call)
}.

(** ** iio.c: constructors *)

Definition iio_new_static_channel (id type : string) : channel :=
  {| channel_id := strncpy CHN_ID_STR_MAX_SIZE id;
     channel_type := strncpy TYPE_STR_MAX_SIZE type;
     channel_attrs := NULL |}.

Definition iio_new_channel (malloc_ok : bool) (id type : string)
  : option channel :=
  if malloc_ok then Some (iio_new_static_channel id type) else None.

Definition iio_new_static_attribute (name : string) : attribute :=
  {| attribute_name := strncpy ATTR_NAME_MAX_SIZE name |}.


Definition iio_new_static_device (name : string) (id : Z) (data : uintptr_t)
    (attr_accessors : option attr_accessors)
    (chn_accessors : option chn_accessors) : result device :=
  match attr_accessors, chn_accessors with
  | Some attr_accessors, Some chn_accessors =>
      Ok {| device_name := strncpy ATTR_NAME_MAX_SIZE name;
            device_id := to_uint id;
            device_data := data;
            device_channels := NULL;
            device_attrs := NULL;
            device_attr_accessors := attr_accessors;
            device_chn_accessors := chn_accessors |}
  | _, _ => Trap assert_failed
  end.

(** ** iio.c: registration

    Each function receives the list [*list] and gives back the value it
    returns together with the list [*list] afterwards. [calloc_ok] tells
    whether the one [calloc] the call may perform succeeds. [retval]
    counts list nodes, so it stays far below [INT_MAX]. *)

Definition iio_register_attribute (calloc_ok : bool) (attr : attribute)
    (list : attribute_list) : result Z * attribute_list :=
  match list with
  | NULL =>
      if calloc_ok then (Ok 1, nodes [attr]) else (Ok (- ENOMEM), NULL)
  | nodes [] => (Ok 1, nodes [attr])
  | nodes items =>
      match
        for_each list (fun attribute retval =>
          with_string ATTR_NAME_MAX_SIZE (attribute_name attr) retval
            (fun new_name =>
          with_string ATTR_NAME_MAX_SIZE (attribute_name attribute) retval
            (fun name =>
          if strcmp new_name name =? 0 then Return (- EINVAL)
          else Next (retval + 1)))) 0
      with
      | Return r => (Ok r, list)
      | Stop t _ => (Trap t, list)
      | Next retval =>
          if calloc_ok then (Ok (retval + 1), nodes (items ++ [attr]))
          else (Ok (- EINVAL), list)
      end
  end.

Definition iio_register_channel (calloc_ok : bool) (channel : channel)
    (list : channel_list) : result Z * channel_list :=
  match list with
  | NULL =>
      if calloc_ok then (Ok 1, nodes [channel]) else (Ok (- ENOMEM), NULL)
  | nodes [] => (Ok 1, nodes [channel])
  | nodes items =>
      match
        for_each list (fun chn retval =>
          with_string TYPE_STR_MAX_SIZE (channel_type chn) retval
            (fun chn_type =>
          with_string TYPE_STR_MAX_SIZE (channel_type channel) retval
            (fun new_type =>
          if strcmp chn_type new_type =? 0 then
            with_string CHN_ID_STR_MAX_SIZE (channel_id chn) retval
              (fun chn_id =>
            with_string CHN_ID_STR_MAX_SIZE (channel_id channel) retval
              (fun new_id =>
            if strcmp chn_id new_id =? 0 then Return (- EINVAL)
            else Next (retval + 1)))
          else Next (retval + 1)))) 0
      with
      | Return r => (Ok r, list)
      | Stop t _ => (Trap t, list)
      | Next retval =>
          if calloc_ok then (Ok (retval + 1), nodes (items ++ [channel]))
          else (Ok (- EINVAL), list)
      end
  end.

(** The second operand of [||] compares the id of the listed device with
    itself, as in the source. *)
Definition iio_register_device (calloc_ok : bool) (device : device)
    (list : device_list) : result Z * device_list :=
  match list with
  | NULL =>
      if calloc_ok then (Ok 1, nodes [device]) else (Ok (- ENOMEM), NULL)
  | nodes [] => (Ok 1, nodes [device])
  | nodes items =>
      match
        for_each list (fun dev retval =>
          with_string DEV_NAME_STR_MAX_SIZE (device_name dev) retval
            (fun dev_name =>
          with_string DEV_NAME_STR_MAX_SIZE (device_name device) retval
            (fun new_name =>
          if (strcmp dev_name new_name =? 0) || (device_id dev =? device_id dev)
          then Return (- EINVAL)
          else Next (retval + 1)))) 0
      with
      | Return r => (Ok r, list)
      | Stop t _ => (Trap t, list)
      | Next retval =>
          if calloc_ok then (Ok (retval + 1), nodes (items ++ [device]))
          else (Ok (- EINVAL), list)
      end
  end.

(** ** iio.c: the dispatcher

    Each entry point either returns a value itself or ends in
    [return accessors->f(...)]: the call of an accessor whose result is
    passed on unchanged. *)

Inductive answer : Type :=
| Value (z : ssize_t)
| Accessor (k : call).

(** What the caller receives. *)
Definition perform (a : answer) (w : World) : ssize_t * World :=
  match a with
  | Value z => (z, w)
  | Accessor k => k w
  end.

(** [atoi(device) == IIO_ID(dev)]: the [int] is converted to
    [unsigned int] for the comparison. *)
Definition device_matches (dev : device) (device : string) : bool :=
  to_uint (atoi device) =? device_id dev.

Definition read_attr (context : context) (device attr : string)
    (buf : pointer) (len : size_t) (type : iio_attr_type)
  : flow answer unit :=
  for_each (context_devices context) (fun dev _ =>
    if device_matches dev device then
      for_each (device_attrs dev) (fun attribute _ =>
        with_string ATTR_NAME_MAX_SIZE (attribute_name attribute) tt
          (fun name =>
        if strcmp name attr =? 0 then
          match attr_read_attr (device_attr_accessors dev) with
          | None => Return (Value (- ENOSYS))
          | Some read_attr =>
              Return (Accessor (read_attr (device_data dev) attr buf len type))
          end
        else Next tt)) tt ;;
      fun _ => Return (Value (- ENOENT))
    else Next tt) tt ;;
  fun _ => Return (Value (- ENOENT)).

Definition write_attr (context : context) (device attr : string)
    (buf : pointer) (len : size_t) (type : iio_attr_type)
  : flow answer unit :=
  for_each (context_devices context) (fun dev _ =>
    if device_matches dev device then
      for_each (device_attrs dev) (fun attribute _ =>
        with_string ATTR_NAME_MAX_SIZE (attribute_name attribute) tt
          (fun name =>
        if strcmp name attr =? 0 then
          match attr_write_attr (device_attr_accessors dev) with
          | None => Return (Value (- ENOSYS))
          | Some write_attr =>
              Return (Accessor (write_attr (device_data dev) attr buf len type))
          end
        else Next tt)) tt ;;
      fun _ => Return (Value (- ENOENT))
    else Next tt) tt ;;
  fun _ => Return (Value (- ENOENT)).

(** The channel is looked up by its id alone; [ch_out] is handed to the
    accessor. The accessor takes [len] as [ssize_t]. *)
Definition ch_read_attr (context : context) (device channel : string)
    (ch_out : bool) (attr : string) (buf : pointer) (len : size_t)
  : flow answer unit :=
  for_each (context_devices context) (fun dev _ =>
    if device_matches dev device then
      for_each (device_channels dev) (fun chn _ =>
        with_string CHN_ID_STR_MAX_SIZE (channel_id chn) tt (fun id =>
        if strcmp id channel =? 0 then
          for_each (channel_attrs chn) (fun attribute _ =>
            with_string ATTR_NAME_MAX_SIZE (attribute_name attribute) tt
              (fun name =>
            if strcmp name attr =? 0 then
              match chn_read_attr (device_chn_accessors dev) with
              | None => Return (Value (- ENOSYS))
              | Some read_attr =>
                  Return (Accessor (read_attr (device_data dev) channel
                                      ch_out attr buf (to_ssize len)))
              end
            else Next tt)) tt ;;
          fun _ => Return (Value (- ENOENT))
        else Next tt)) tt ;;
      fun _ => Return (Value (- ENOENT))
    else Next tt) tt ;;
  fun _ => Return (Value (- ENOENT)).

Definition ch_write_attr (context : context) (device channel : string)
    (ch_out : bool) (attr : string) (buf : pointer) (len : size_t)
  : flow answer unit :=
  for_each (context_devices context) (fun dev _ =>
    if device_matches dev device then
      for_each (device_channels dev) (fun chn _ =>
        with_string CHN_ID_STR_MAX_SIZE (channel_id chn) tt (fun id =>
        if strcmp id channel =? 0 then
          for_each (channel_attrs chn) (fun attribute _ =>
            with_string ATTR_NAME_MAX_SIZE (attribute_name attribute) tt
              (fun name =>
            if strcmp name attr =? 0 then
              match chn_write_attr (device_chn_accessors dev) with
              | None => Return (Value (- ENOSYS))
              | Some write_attr =>
                  Return (Accessor (write_attr (device_data dev) channel
                                      ch_out attr buf (to_ssize len)))
              end
            else Next tt)) tt ;;
          fun _ => Return (Value (- ENOENT))
        else Next tt)) tt ;;
      fun _ => Return (Value (- ENOENT))
    else Next tt) tt ;;
  fun _ => Return (Value (- ENOENT)).

Definition read_data (context : context) (device : string) (buf : pointer)
    (offset bytes_count : size_t) : flow answer unit :=
  for_each (context_devices context) (fun dev _ =>
    if device_matches dev device then
      match chn_read_data (device_chn_accessors dev) with
      | None => Return (Value (- ENOSYS))
      | Some read_data =>
          Return (Accessor (read_data (device_data dev) buf offset bytes_count))
      end
    else Next tt) tt ;;
  fun _ => Return (Value (- ENOENT)).

Definition write_data (context : context) (device : string) (buf : pointer)
    (offset bytes_count : size_t) : flow answer unit :=
  for_each (context_devices context) (fun dev _ =>
    if device_matches dev device then
      match chn_write_data (device_chn_accessors dev) with
      | None => Return (Value (- ENOSYS))
      | Some write_data =>
          Return (Accessor (write_data (device_data dev) buf offset bytes_count))
      end
    else Next tt) tt ;;
  fun _ => Return (Value (- ENOENT)).

(** ** iio.c: the descriptor renderer *)

Definition QUOTE : string := String "034"%char EmptyString.

Definition dtd : string :=
  "<?xml version=" ++ QUOTE ++ "1.0" ++ QUOTE ++ " encoding=" ++ QUOTE
    ++ "utf-8" ++ QUOTE ++ "?>"
  ++ "<!DOCTYPE context ["
  ++ "<!ELEMENT context (device)*>"
  ++ "<!ELEMENT device (channel | attribute | debug-attribute | buffer-attribute)*>"
  ++ "<!ELEMENT channel (scan-element?, attribute*)>"
  ++ "<!ELEMENT attribute EMPTY>"
  ++ "<!ELEMENT scan-element EMPTY>"
  ++ "<!ELEMENT debug-attribute EMPTY>"
  ++ "<!ELEMENT buffer-attribute EMPTY>"
  ++ "<!ATTLIST context name CDATA #REQUIRED description CDATA #IMPLIED>"
  ++ "<!ATTLIST device id CDATA #REQUIRED name CDATA #IMPLIED>"
  ++ "<!ATTLIST channel id CDATA #REQUIRED type (input|output) #REQUIRED name CDATA #IMPLIED>"
  ++ "<!ATTLIST scan-element index CDATA #REQUIRED format CDATA #REQUIRED scale CDATA #IMPLIED>"
  ++ "<!ATTLIST attribute name CDATA #REQUIRED filename CDATA #IMPLIED>"
  ++ "<!ATTLIST debug-attribute name CDATA #REQUIRED>"
  ++ "<!ATTLIST buffer-attribute name CDATA #REQUIRED value CDATA #IMPLIED>]>".

(** The state [generate_xml] and [populate_attributes] work on: the
    string held by [context->xml] and the local [unsigned int index]. *)
Record writer : Type := { xml : string; index : Z }.

Definition step : Type := writer -> flow Empty_set writer.

(** [index += n;] *)
Definition add_index (n : Z) : step :=
  fun w => Next {| xml := xml w; index := uadd (index w) n |}.

(** [assert(index < IIO_XML_SIZE);] *)
Definition assert_index : step :=
  fun w => if index w <? IIO_XML_SIZE then Next w else Stop assert_failed w.

(** [strcpy(xml, src);] and [strcat(xml, src);] write the string and its
    NUL into [char xml[IIO_XML_SIZE]]. A string that does not fit is
    written past the end of the array: the model marks the run with
    [xml_overrun] and follows it no further. *)
Definition strcpy (src : string) : step :=
  fun w =>
    if strlen src <? IIO_XML_SIZE
    then Next {| xml := src; index := index w |}
    else Stop xml_overrun w.

Definition strcat (src : string) : step :=
  fun w =>
    if strlen (xml w ++ src) <? IIO_XML_SIZE
    then Next {| xml := xml w ++ src; index := index w |}
    else Stop xml_overrun w.

Definition read_string (cap : nat) (field : string) (k : string -> step)
  : step :=
  fun w => with_string cap field w (fun str => k str w).

(** [sprintf(id_str, "%d", id);] into [char id_str[4]]. An id printed in
    four characters or more is written past the end of [id_str], over
    whatever lies behind it on the stack: the model marks the run with
    [id_str_overrun] and follows it no further. *)
Definition sprintf_id (id : Z) (k : string -> step) : step :=
  fun w =>
    let id_str := decimal (to_int id) in
    if (String.length id_str <? 4)%nat then k id_str w
    else Stop id_str_overrun w.

Definition populate_attributes (attrs : attribute_list) (level : Z) : step :=
  for_each attrs (fun attr w =>
    add_index (strlen ("<attribute name=" ++ QUOTE)) w ;;
    read_string ATTR_NAME_MAX_SIZE (attribute_name attr) (fun name w =>
      add_index (strlen name) w ;;
      add_index (strlen (QUOTE ++ " />")) ;;
      assert_index ;;
      strcat ("<attribute name=" ++ QUOTE) ;;
      strcat name ;;
      strcat (QUOTE ++ " />"))).

Definition render_channel (channel : channel) : step :=
  fun w =>
    add_index (strlen ("<channel id=" ++ QUOTE)) w ;;
    read_string CHN_ID_STR_MAX_SIZE (channel_id channel) (fun id w =>
      add_index (strlen id) w ;;
      add_index (strlen (QUOTE ++ " type=" ++ QUOTE)) ;;
      read_string TYPE_STR_MAX_SIZE (channel_type channel) (fun type w =>
        add_index (strlen type) w ;;
        add_index 2 ;;
        assert_index ;;
        strcat ("<channel id=" ++ QUOTE) ;;
        strcat id ;;
        strcat (QUOTE ++ " type=" ++ QUOTE) ;;
        strcat type ;;
        strcat (QUOTE ++ ">") ;;
        populate_attributes (channel_attrs channel) 3 ;;
        add_index (strlen "</channel>") ;;
        assert_index ;;
        strcat "</channel>")).

Definition render_device (device : device) : step :=
  sprintf_id (device_id device) (fun id_str w =>
    add_index (strlen ("<device id=" ++ QUOTE)) w ;;
    add_index (strlen id_str) ;;
    add_index (strlen (QUOTE ++ " name=" ++ QUOTE)) ;;
    read_string DEV_NAME_STR_MAX_SIZE (device_name device) (fun name w =>
      add_index (strlen name) w ;;
      add_index 2 ;;
      assert_index ;;
      strcat ("<device id=" ++ QUOTE) ;;
      strcat id_str ;;
      strcat (QUOTE ++ " name=" ++ QUOTE) ;;
      strcat name ;;
      strcat (QUOTE ++ ">") ;;
      for_each (device_channels device) render_channel ;;
      populate_attributes (device_attrs device) 2 ;;
      add_index (strlen "</device>") ;;
      assert_index ;;
      strcat "</device>")).

Definition render_context (context : context) : step :=
  fun w =>
    assert_index w ;;
    strcpy dtd ;;
    add_index (strlen ("<context name=" ++ QUOTE)) ;;
    read_string CONTEXT_NAME_MAX_SIZE (context_name context) (fun name w =>
      add_index (strlen name) w ;;
      add_index 2 ;;
      assert_index ;;
      strcat ("<context name=" ++ QUOTE) ;;
      strcat name ;;
      strcat (QUOTE ++ " ") ;;
      add_index (strlen ("description=" ++ QUOTE)) ;;
      read_string CONTEXT_DESC_MAX_SIZE (context_description context)
        (fun description w =>
        add_index (strlen description) w ;;
        add_index 2 ;;
        assert_index ;;
        strcat ("description=" ++ QUOTE) ;;
        strcat description ;;
        strcat (QUOTE ++ ">") ;;
        for_each (context_devices context) render_device ;;
        add_index (strlen "</context>") ;;
        assert_index ;;
        strcat "</context>")).

Definition set_xml (ctx : context) (xml : string) : context :=
  {| context_name := context_name ctx;
     context_description := context_description ctx;
     context_devices := context_devices ctx;
     context_xml := xml;
     context_ops_write := context_ops_write ctx;
     context_ops_read := context_ops_read ctx |}.

(** [generate_xml]: the value returned, if any, and the context with
    what its [xml] array holds when the function returns or when the model
    ends the run. *)
Definition generate_xml (ctx : context) : result string * context :=
  match
    render_context ctx
      {| xml := context_xml ctx; index := to_uint (strlen dtd) |}
  with
  | Next w => (Ok (xml w), set_xml ctx (xml w))
  | Return r => match r with end
  | Stop t w => (Trap t, set_xml ctx (xml w))
  end.

Definition get_xml (context : context) : string := context_xml context.

(** [iio_init] fills the static [context] (its previous value is the
    first argument) and renders the descriptor. *)
Definition iio_init (static_context : context) (ctx_name ctx_desc : string)
    (devices : device_list)
    (write_cb read_cb : option (pointer -> size_t -> call))
  : result unit * context :=
  match devices, write_cb, read_cb with
  | nodes _, Some _, Some _ =>
      let ctx :=
        {| context_name := strncpy CONTEXT_NAME_MAX_SIZE ctx_name;
           context_description := strncpy CONTEXT_DESC_MAX_SIZE ctx_desc;
           context_devices := devices;
           context_xml := context_xml static_context;
           context_ops_write := write_cb;
           context_ops_read := read_cb |} in
      match generate_xml ctx with
      | (Ok _, ctx) => (Ok tt, ctx)
      | (Trap t, ctx) => (Trap t, ctx)
      end
  | _, _, _ => (Trap assert_failed, static_context)
  end.

End Registry.

Arguments attr_read_attr {World iio_attr_type} a.
Arguments attr_write_attr {World iio_attr_type} a.
Arguments chn_read_attr {World} c.
Arguments chn_write_attr {World} c.
Arguments chn_read_data {World} c.
Arguments chn_write_data {World} c.
Arguments device_name {World iio_attr_type} d.
Arguments device_id {World iio_attr_type} d.
Arguments device_data {World iio_attr_type} d.
Arguments device_channels {World iio_attr_type} d.
Arguments device_attrs {World iio_attr_type} d.
Arguments device_attr_accessors {World iio_attr_type} d.
Arguments device_chn_accessors {World iio_attr_type} d.
Arguments context_name {World iio_attr_type} c.
Arguments context_description {World iio_attr_type} c.
Arguments context_devices {World iio_attr_type} c.
Arguments context_xml {World iio_attr_type} c.
Arguments context_ops_write {World iio_attr_type} c.
Arguments context_ops_read {World iio_attr_type} c.
Arguments device_matches {World iio_attr_type} dev device.
Arguments render_device {World iio_attr_type} device w.
Arguments render_context {World iio_attr_type} context w.
Arguments set_xml {World iio_attr_type} ctx xml.
Arguments iio_new_static_device {World iio_attr_type} name id data attr_accessors chn_accessors.
Arguments iio_register_device {World iio_attr_type} calloc_ok device list.
Arguments iio_init {World iio_attr_type} static_context ctx_name ctx_desc devices write_cb read_cb.
Arguments generate_xml {World iio_attr_type} ctx.
Arguments get_xml {World iio_attr_type} context.
Arguments read_attr {World iio_attr_type} context device attr buf len type.
Arguments write_attr {World iio_attr_type} context device attr buf len type.
Arguments ch_read_attr {World iio_attr_type} context device channel ch_out attr buf len.
Arguments ch_write_attr {World iio_attr_type} context device channel ch_out attr buf len.
Arguments read_data {World iio_attr_type} context device buf offset bytes_count.
Arguments write_data {World iio_attr_type} context device buf offset bytes_count.
Arguments perform {World} a w.
Arguments Value {World} z.
Arguments Accessor {World} k.

(** ** Notions used to state the properties *)

(** The items a [for_each_*] loop visits. *)
Definition items {T : Type} (l : linked T) : list T :=
  match l with
  | NULL => []
  | nodes items => items
  end.

(** The element count of a collection. *)
Definition count {T : Type} (l : linked T) : nat := List.length (items l).

(** The array [field] of capacity [cap] holds a string. *)
Definition is_string (cap : nat) (field : string) : bool :=
  (String.length field <? cap)%nat.

(** Registers [attrs] one after the other, every [calloc] succeeding. *)
Fixpoint register_attributes (attrs : list attribute) (l : attribute_list)
  : list (result Z) * attribute_list :=
  match attrs with
  | [] => ([], l)
  | attr :: rest =>
      let (r, l) := iio_register_attribute true attr l in
      let (rs, l) := register_attributes rest l in
      (r :: rs, l)
  end.

(** The body of the loop of [iio_register_attribute]. *)
Definition attribute_body (attr : attribute) :=
  fun (listed : attribute) (retval : Z) =>
    with_string ATTR_NAME_MAX_SIZE (attribute_name attr) retval
      (fun new_name =>
    with_string ATTR_NAME_MAX_SIZE (attribute_name listed) retval
      (fun name =>
    if strcmp new_name name =? 0 then @Return Z Z (- EINVAL)
    else Next (retval + 1))).

(** First match of a name in an attribute list, of an id in a channel
    list. *)
Definition find_attribute (l : attribute_list) (attr : string)
  : option attribute :=
  find (fun a => strcmp (attribute_name a) attr =? 0) (items l).

Definition find_channel (l : channel_list) (id : string) : option channel :=
  find (fun c => strcmp (channel_id c) id =? 0) (items l).

Definition attribute_ok (a : attribute) : bool :=
  is_string ATTR_NAME_MAX_SIZE (attribute_name a).

Definition attributes_ok (l : attribute_list) : bool :=
  match l with
  | NULL => false
  | nodes items => forallb attribute_ok items
  end.

Definition channel_ok (c : channel) : bool :=
  is_string CHN_ID_STR_MAX_SIZE (channel_id c)
  && is_string TYPE_STR_MAX_SIZE (channel_type c)
  && attributes_ok (channel_attrs c).

Definition channels_ok (l : channel_list) : bool :=
  match l with
  | NULL => false
  | nodes items => forallb channel_ok items
  end.

(** Concatenation of strings in order. *)
Fixpoint join (parts : list string) : string :=
  match parts with
  | [] => EmptyString
  | part :: rest => part ++ join rest
  end.

(** The descriptor, element by element. *)
Definition attribute_element (a : attribute) : string :=
  "<attribute name=" ++ QUOTE ++ attribute_name a ++ QUOTE ++ " />".

Definition channel_open (c : channel) : string :=
  "<channel id=" ++ QUOTE ++ channel_id c ++ QUOTE ++ " type=" ++ QUOTE
    ++ channel_type c ++ QUOTE ++ ">".

Definition channel_element (c : channel) : string :=
  channel_open c
    ++ join (map attribute_element (items (channel_attrs c)))
    ++ "</channel>".

(** The pieces [generate_xml] appends to the buffer, one per [assert]. *)
Definition channel_chunks (c : channel) : list string :=
  channel_open c :: map attribute_element (items (channel_attrs c))
    ++ ["</channel>"].

(** Appends the chunks in order while the result, with its NUL, fits in
    [IIO_XML_SIZE] bytes; tells whether all of them were appended. *)
Fixpoint write_chunks (chunks : list string) (xml : string) : bool * string :=
  match chunks with
  | [] => (true, xml)
  | chunk :: rest =>
      if strlen (xml ++ chunk) <? IIO_XML_SIZE
      then write_chunks rest (xml ++ chunk)
      else (false, xml)
  end.

(** One group of statements of [generate_xml]: [index += strlen(part)]
    for every part, the [assert], then [strcat(xml, part)] for every part;
    [from] is the flow that reaches the group. *)
Definition adds (parts : list string) (from : flow Empty_set writer)
  : flow Empty_set writer :=
  fold_left (fun f part => f ;; add_index (strlen part)) parts from.

Definition strcats (parts : list string) (from : flow Empty_set writer)
  : flow Empty_set writer :=
  fold_left (fun f part => f ;; strcat part) parts from.

Definition block_from (from : flow Empty_set writer) (parts : list string)
  : flow Empty_set writer :=
  strcats parts (adds parts from ;; assert_index).

Definition block (parts : list string) : step :=
  fun w => block_from (Next w) parts.

(** The writer between two groups: [index] is the length of the text. *)
Definition at_end (text : string) : writer :=
  {| xml := text; index := strlen text |}.

(** The flow [r] did what [write_chunks] reports in [outcome]: all chunks
    appended, or a failed [assert] with the text appended until then. *)
Definition tracks (r : flow Empty_set writer) (outcome : bool * string) : Prop :=
  match outcome with
  | (true, text) => r = Next (at_end text) /\ strlen text < IIO_XML_SIZE
  | (false, text) =>
      exists i, r = Stop assert_failed {| xml := text; index := i |}
  end.

(** The step [g] appends [chunks] the way [write_chunks] does, from any
    text that fits. *)
Definition implements (g : step) (chunks : list string) : Prop :=
  forall text, strlen text < IIO_XML_SIZE ->
    tracks (g (at_end text)) (write_chunks chunks text).

Section Notions.

Variable World : Type.
Variable iio_attr_type : Type.

(** The first registered device whose id is the number [atoi] reads in
    the request. *)
Definition find_device (ctx : context World iio_attr_type)
  : string -> option (device World iio_attr_type) :=
  fun device =>
    find (fun dev => device_matches dev device) (items (context_devices ctx)).

(** What an entry point answers once the request is resolved: [-ENOSYS]
    for a NULL slot, otherwise the call of the accessor in the slot. *)
Definition slot_answer {F : Type} (slot : option F) (apply : F -> call World)
  : answer World :=
  match slot with
  | None => Value (- ENOSYS)
  | Some f => Accessor (apply f)
  end.

Definition device_ok (d : device World iio_attr_type) : bool :=
  is_string 4 (decimal (to_int (device_id d)))
  && is_string DEV_NAME_STR_MAX_SIZE (device_name d)
  && channels_ok (device_channels d)
  && attributes_ok (device_attrs d).

(** The lists that [generate_xml] walks exist, every name is a string
    and every id is printed in at most three characters. *)
Definition context_ok (ctx : context World iio_attr_type) : bool :=
  is_string CONTEXT_NAME_MAX_SIZE (context_name ctx)
  && is_string CONTEXT_DESC_MAX_SIZE (context_description ctx)
  && match context_devices ctx with
     | NULL => false
     | nodes items => forallb device_ok items
     end.

(** The context is what a call of [iio_init] that returned has left in
    the static [context]: the only way the dispatcher is reached. *)
Definition installed (ctx : context World iio_attr_type) : Prop :=
  exists static_context ctx_name ctx_desc devices write_cb read_cb,
    iio_init static_context ctx_name ctx_desc devices write_cb read_cb
    = (Ok tt, ctx).

Definition device_open (d : device World iio_attr_type) : string :=
  "<device id=" ++ QUOTE ++ decimal (to_int (device_id d)) ++ QUOTE
    ++ " name=" ++ QUOTE ++ device_name d ++ QUOTE ++ ">".

Definition device_element (d : device World iio_attr_type) : string :=
  device_open d
    ++ join (map channel_element (items (device_channels d)))
    ++ join (map attribute_element (items (device_attrs d)))
    ++ "</device>".

Definition context_open (ctx : context World iio_attr_type) : string :=
  "<context name=" ++ QUOTE ++ context_name ctx ++ QUOTE ++ " "
    ++ "description=" ++ QUOTE ++ context_description ctx ++ QUOTE ++ ">".

(** The descriptor in the words of the specification: the preamble, the
    context element, in it one element per device in list order; in a
    device element, one element per channel in list order, each holding
    its attributes in list order, then the device's own attributes. *)
Definition document (ctx : context World iio_attr_type) : string :=
  dtd ++ context_open ctx
    ++ join (map device_element (items (context_devices ctx)))
    ++ "</context>".

Definition device_chunks (d : device World iio_attr_type) : list string :=
  device_open d :: flat_map channel_chunks (items (device_channels d))
    ++ map attribute_element (items (device_attrs d))
    ++ ["</device>"].

Definition context_chunks (ctx : context World iio_attr_type) : list string :=
  ("<context name=" ++ QUOTE ++ context_name ctx ++ QUOTE ++ " ")
    :: ("description=" ++ QUOTE ++ context_description ctx ++ QUOTE ++ ">")
    :: flat_map device_chunks (items (context_devices ctx))
    ++ ["</context>"].

End Notions.

Arguments find_device {World iio_attr_type} ctx device.
Arguments slot_answer {World F} slot apply.
Arguments device_ok {World iio_attr_type} d.
Arguments context_ok {World iio_attr_type} ctx.
Arguments installed {World iio_attr_type} ctx.
Arguments device_open {World iio_attr_type} d.
Arguments device_element {World iio_attr_type} d.
Arguments context_open {World iio_attr_type} ctx.
Arguments document {World iio_attr_type} ctx.
Arguments device_chunks {World iio_attr_type} d.
Arguments context_chunks {World iio_attr_type} ctx.

(** ** example2.c: one ADC with two input channels *)

Module Example.

Inductive iio_attr_type : Type :=
| IIO_ATTR_TYPE_DEVICE
| IIO_ATTR_TYPE_DEBUG
| IIO_ATTR_TYPE_BUFFER.

(** The accessors of the example only write into the caller's buffer:
    the world is what that buffer holds. *)
Definition World : Type := string.

(** [snprintf(buf, len, text)]: [len] is converted to [size_t]; nothing
    is written when it is 0, otherwise at most [len - 1] characters and a
    NUL; the length of [text] is returned. *)
Definition snprintf (len : Z) (text : string) : call World :=
  fun w =>
    let size := len mod 2 ^ 64 in
    (strlen text,
     if size =? 0 then w
     else substring 0 (Z.to_nat (Z.min (size - 1) (strlen text))) text).

Definition read_dev_attr (data : uintptr_t) (attr : string) (buf : pointer)
    (len : size_t) (type : iio_attr_type) : call World :=
  match type with
  | IIO_ATTR_TYPE_DEVICE => snprintf len "1000"
  | IIO_ATTR_TYPE_DEBUG => snprintf len "0"
  | IIO_ATTR_TYPE_BUFFER => snprintf len "8"
  end.

Definition read_ch_attr (data : uintptr_t) (channel : string) (ch_out : bool)
    (attr : string) (buf : pointer) (len : ssize_t) : call World :=
  if ch_out then fun w => (- ENOENT, w)
  else if strcmp channel "voltage0" =? 0 then
    if strcmp attr "scale" =? 0 then snprintf len "0.033"
    else if strcmp attr "raw" =? 0 then snprintf len "256"
    else fun w => (- ENOENT, w)
  else if strcmp channel "voltage1" =? 0 then
    if strcmp attr "scale" =? 0 then snprintf len "0.033"
    else if strcmp attr "raw" =? 0 then snprintf len "128"
    else fun w => (- ENOENT, w)
  else fun w => (- ENOENT, w).

Definition adc_attr_accessors : attr_accessors World iio_attr_type :=
  {| attr_read_attr := Some read_dev_attr; attr_write_attr := None |}.

Definition adc_chn_accessors : chn_accessors World :=
  {| chn_read_attr := Some read_ch_attr; chn_write_attr := None;
     chn_read_data := None; chn_write_data := None |}.

Definition registered_attributes (names : list string) (list : attribute_list)
  : attribute_list :=
  fold_left (fun list name =>
    snd (iio_register_attribute true (iio_new_static_attribute name) list))
    names list.

Definition new_channel (id type : string) (attrs : list string) : channel :=
  let chn := iio_new_static_channel id type in
  {| channel_id := channel_id chn;
     channel_type := channel_type chn;
     channel_attrs := registered_attributes attrs (channel_attrs chn) |}.

Definition registered_channels (channels : list channel) (list : channel_list)
  : channel_list :=
  fold_left (fun list chn => snd (iio_register_channel true chn list))
    channels list.

(** A device as [main] builds [adc]: created, then its attributes and
    channels registered. *)
Definition new_device (name : string) (id : Z) (attrs : list string)
    (channels : list channel) (chn_accessors : chn_accessors World)
  : option (device World iio_attr_type) :=
  match iio_new_static_device name id 0 (Some adc_attr_accessors) (Some chn_accessors) with
  | Ok dev =>
      Some {| device_name := device_name dev;
              device_id := device_id dev;
              device_data := device_data dev;
              device_channels := registered_channels channels (device_channels dev);
              device_attrs := registered_attributes attrs (device_attrs dev);
              device_attr_accessors := device_attr_accessors dev;
              device_chn_accessors := device_chn_accessors dev |}
  | Trap _ => None
  end.

Definition adc_channels : list channel :=
  [ new_channel "voltage0" "input" ["scale"; "raw"];
    new_channel "voltage1" "input" ["scale"; "raw"] ].

Definition adc_attrs : list string :=
  ["sample_rate"; "direct_reg_access"; "lenght_align_bytes"].

Definition adc : option (device World iio_attr_type) :=
  new_device "adc" 0 adc_attrs adc_channels adc_chn_accessors.

Definition dev_list (dev : option (device World iio_attr_type))
  : device_list World iio_attr_type :=
  match dev with
  | Some dev => snd (iio_register_device true dev NULL)
  | None => NULL
  end.

Definition zeroed : context World iio_attr_type :=
  {| context_name := EmptyString; context_description := EmptyString;
     context_devices := NULL; context_xml := EmptyString;
     context_ops_write := None; context_ops_read := None |}.

Definition transport : pointer -> size_t -> call World :=
  fun _ len w => (len, w).

Definition init (devices : device_list World iio_attr_type)
  : result unit * context World iio_attr_type :=
  iio_init zeroed "tiny" "Tiny IIOD" devices (Some transport) (Some transport).

Definition main : result unit * context World iio_attr_type :=
  init (dev_list adc).

(** A second device, differing from [adc] in name and id. *)
Definition dac : option (device World iio_attr_type) :=
  new_device "dac" 1 ["powerdown"] [new_channel "voltage0" "output" ["raw"]]
    adc_chn_accessors.

(** A registry that holds [dac] alone: no device has id 0. *)
Definition dac_only : result unit * context World iio_attr_type :=
  init (dev_list dac).

(** A list of two devices, linked by hand. *)
Definition pair : context World iio_attr_type :=
  {| context_name := strncpy CONTEXT_NAME_MAX_SIZE "tiny";
     context_description := strncpy CONTEXT_DESC_MAX_SIZE "Tiny IIOD";
     context_devices :=
       match adc, dac with
       | Some adc, Some dac => nodes [adc; dac]
       | _, _ => NULL
       end;
     context_xml := EmptyString;
     context_ops_write := Some transport;
     context_ops_read := Some transport |}.

(** Channel accessors that serve input and output requests alike. *)
Definition any_direction_chn_accessors : chn_accessors World :=
  {| chn_read_attr := Some (fun _ _ _ _ _ len => snprintf len "0.5");
     chn_write_attr := Some (fun _ _ _ _ _ len w => (len, w));
     chn_read_data := Some (fun _ _ _ bytes_count w => (bytes_count, w));
     chn_write_data := None |}.

Definition lenient : result unit * context World iio_attr_type :=
  init (dev_list (new_device "adc" 0 adc_attrs adc_channels
                    any_direction_chn_accessors)).

Definition many_names (n : nat) : list string :=
  map (fun i => "attribute_number_" ++ decimal (Z.of_nat i)) (List.seq 0%nat n).

(** A device with a hundred attributes, in the static context as
    [iio_init] has filled it when it calls [generate_xml], the [xml]
    array holding an earlier text. *)
Definition crowded : context World iio_attr_type :=
  {| context_name := strncpy CONTEXT_NAME_MAX_SIZE "tiny";
     context_description := strncpy CONTEXT_DESC_MAX_SIZE "Tiny IIOD";
     context_devices :=
       dev_list (new_device "adc" 0 (many_names 100) adc_channels
                   adc_chn_accessors);
     context_xml := "<previous/>";
     context_ops_write := Some transport;
     context_ops_read := Some transport |}.


End Example.

(** ** iio.c: the constructors that allocate, and the context constructors *)

Section Constructors.

Variable World : Type.
Variable iio_attr_type : Type.

(** [malloc] fails: NULL is returned before any [assert] is reached. *)
Definition iio_new_device (malloc_ok : bool) (name : string) (id : Z)
    (data : uintptr_t) (attr_accessors : option (attr_accessors World iio_attr_type))
    (chn_accessors : option (chn_accessors World))
  : result (option (device World iio_attr_type)) :=
  if malloc_ok then
    match iio_new_static_device name id data attr_accessors chn_accessors with
    | Ok device => Ok (Some device)
    | Trap t => Trap t
    end
  else Ok None.

(** [iio_new_static_context] fills the names of a context whose device
    list is already there: it asserts that the list is not NULL. *)
Definition iio_new_static_context (ctx : context World iio_attr_type)
    (name description : string) : result (context World iio_attr_type) :=
  match context_devices ctx with
  | NULL => Trap assert_failed
  | nodes _ =>
      Ok {| context_name := strncpy CONTEXT_NAME_MAX_SIZE name;
            context_description := strncpy CONTEXT_DESC_MAX_SIZE description;
            context_devices := context_devices ctx;
            context_xml := context_xml ctx;
            context_ops_write := context_ops_write ctx;
            context_ops_read := context_ops_read ctx |}
  end.

(** [iio_new_context] applies it to the block [malloc] returns, whose
    content, [block], is whatever the memory held. *)
Definition iio_new_context (block : option (context World iio_attr_type))
    (name description : string)
  : result (option (context World iio_attr_type)) :=
  match block with
  | None => Ok None
  | Some ctx =>
      match iio_new_static_context ctx name description with
      | Ok ctx => Ok (Some ctx)
      | Trap t => Trap t
      end
  end.

End Constructors.

Arguments iio_new_device {World iio_attr_type} malloc_ok name id data attr_accessors chn_accessors.
Arguments iio_new_static_context {World iio_attr_type} ctx name description.
Arguments iio_new_context {World iio_attr_type} block name description.

(** ** Further notions *)

(** The id and the type of a channel are strings in their arrays. *)
Definition channel_strings_ok (c : channel) : bool :=
  is_string CHN_ID_STR_MAX_SIZE (channel_id c)
  && is_string TYPE_STR_MAX_SIZE (channel_type c).

(** The identity of a channel for [iio_register_channel]: type and id. *)
Definition channel_key (c : channel) : string * string :=
  (channel_type c, channel_id c).

(** The body of the loop of [iio_register_channel]. *)
Definition channel_body (chn channel : channel) (retval : Z) : flow Z Z :=
    with_string TYPE_STR_MAX_SIZE (channel_type chn) retval
      (fun chn_type =>
    with_string TYPE_STR_MAX_SIZE (channel_type channel) retval
      (fun new_type =>
    if strcmp chn_type new_type =? 0 then
      with_string CHN_ID_STR_MAX_SIZE (channel_id chn) retval
        (fun chn_id =>
      with_string CHN_ID_STR_MAX_SIZE (channel_id channel) retval
        (fun new_id =>
      if strcmp chn_id new_id =? 0 then Return (- EINVAL)
      else Next (retval + 1)))
    else Next (retval + 1))).

(** Registers [channels] one after the other, every [calloc] succeeding. *)
Fixpoint register_channels (channels : list channel) (l : channel_list)
  : list (result Z) * channel_list :=
  match channels with
  | [] => ([], l)
  | chn :: rest =>
      let (r, l) := iio_register_channel true chn l in
      let (rs, l) := register_channels rest l in
      (r :: rs, l)
  end.

(** The static [context] as [iio_init] has written it when it calls
    [generate_xml]. *)
Definition filled {World iio_attr_type : Type}
    (static_context : context World iio_attr_type) (ctx_name ctx_desc : string)
    (devices : device_list World iio_attr_type)
    (write_cb read_cb : option (pointer -> size_t -> call World))
  : context World iio_attr_type :=
  {| context_name := strncpy CONTEXT_NAME_MAX_SIZE ctx_name;
     context_description := strncpy CONTEXT_DESC_MAX_SIZE ctx_desc;
     context_devices := devices;
     context_xml := context_xml static_context;
     context_ops_write := write_cb;
     context_ops_read := read_cb |}.

(** A registry like the one of example2.c whose device has an input and
    an output channel with the same id. *)
Definition two_way_channels : list channel :=
  [ Example.new_channel "voltage0" "input" ["raw"];
    Example.new_channel "voltage0" "output" ["scale"] ].

Definition two_way
  : result unit * context Example.World Example.iio_attr_type :=
  Example.init
    (Example.dev_list
       (Example.new_device "codec" 0 ["gain"] two_way_channels
          Example.any_direction_chn_accessors)).

(** Every array that [generate_xml] reads as a string holds one and every
    id is printed in at most three characters; a list may be missing. *)
Definition channel_names_ok (c : channel) : bool :=
  channel_strings_ok c && forallb attribute_ok (items (channel_attrs c)).

Definition device_names_ok {World iio_attr_type : Type}
    (d : device World iio_attr_type) : bool :=
  is_string 4 (decimal (to_int (device_id d)))
  && is_string DEV_NAME_STR_MAX_SIZE (device_name d)
  && forallb channel_names_ok (items (device_channels d))
  && forallb attribute_ok (items (device_attrs d)).

Definition names_ok {World iio_attr_type : Type}
    (ctx : context World iio_attr_type) : bool :=
  is_string CONTEXT_NAME_MAX_SIZE (context_name ctx)
  && is_string CONTEXT_DESC_MAX_SIZE (context_description ctx)
  && forallb device_names_ok (items (context_devices ctx)).

(** The flow fell through with [index] in step with a text that fits, or
    ended at a failed [assert] or at a NULL list, the text in [xml]
    fitting. *)
Definition sound (r : flow Empty_set writer) : Prop :=
  match r with
  | Next w => index w = strlen (xml w) /\ strlen (xml w) < IIO_XML_SIZE
  | Return r => False
  | Stop t w =>
      (t = assert_failed \/ t = null_dereference)
      /\ strlen (xml w) < IIO_XML_SIZE
  end.

Definition keeps_sound (g : step) : Prop :=
  forall text, strlen text < IIO_XML_SIZE -> sound (g (at_end text)).


Fixpoint decimal_value (acc : Z) (d : Decimal.uint) : Z :=
  match d with
  | Decimal.Nil => acc
  | Decimal.D0 d => decimal_value (10 * acc) d
  | Decimal.D1 d => decimal_value (10 * acc + 1) d
  | Decimal.D2 d => decimal_value (10 * acc + 2) d
  | Decimal.D3 d => decimal_value (10 * acc + 3) d
  | Decimal.D4 d => decimal_value (10 * acc + 4) d
  | Decimal.D5 d => decimal_value (10 * acc + 5) d
  | Decimal.D6 d => decimal_value (10 * acc + 6) d
  | Decimal.D7 d => decimal_value (10 * acc + 7) d
  | Decimal.D8 d => decimal_value (10 * acc + 8) d
  | Decimal.D9 d => decimal_value (10 * acc + 9) d
  end.

(** * Properties *)

(** ** Strings *)

Lemma strcmp_eqb (a b : string) : (strcmp a b =? 0) = String.eqb a b.
Proof.
  unfold strcmp. destruct (String.eqb_spec a b) as [->|Hne].
  - pose proof (String.compare_antisym b b) as H.
    destruct (String.compare b b); try reflexivity; discriminate H.
  - destruct (String.compare a b) eqn:E; try reflexivity.
    apply String.compare_eq_iff in E. contradiction.
Qed.

Lemma strcmp_refl (a : string) : (strcmp a a =? 0) = true.
Proof. rewrite strcmp_eqb. apply String.eqb_refl. Qed.

Lemma strcmp_neq (a b : string) : a <> b -> (strcmp a b =? 0) = false.
Proof. intros H. rewrite strcmp_eqb. now apply String.eqb_neq. Qed.

Lemma c_str_is_string (cap : nat) (field : string) :
  c_str cap field = if is_string cap field then Some field else None.
Proof. reflexivity. Qed.

Lemma with_string_ok {R S : Type} cap field (s : S) (k : string -> flow R S) :
  is_string cap field = true -> with_string cap field s k = k field.
Proof. unfold with_string. rewrite c_str_is_string. now intros ->. Qed.

Lemma length_append (a b : string) :
  String.length (a ++ b) = (String.length a + String.length b)%nat.
Proof. induction a as [|c a IH]; simpl; [reflexivity | now rewrite IH]. Qed.

Lemma append_assoc (a b c : string) : (a ++ b) ++ c = a ++ (b ++ c).
Proof. induction a as [|x a IH]; simpl; [reflexivity | now rewrite IH]. Qed.

Lemma append_empty_r (a : string) : a ++ EmptyString = a.
Proof. induction a as [|x a IH]; simpl; [reflexivity | now rewrite IH]. Qed.

Lemma strlen_append (a b : string) : strlen (a ++ b) = strlen a + strlen b.
Proof. unfold strlen. rewrite length_append. lia. Qed.

Lemma strlen_nonneg (a : string) : 0 <= strlen a.
Proof. unfold strlen. lia. Qed.

Lemma length_substring_0 (n : nat) (s : string) :
  String.length (substring 0 n s) = Nat.min n (String.length s).
Proof.
  revert s. induction n as [|n IH]; intros [|c s]; simpl; try reflexivity.
  now rewrite IH.
Qed.

Lemma substring_0_short (n : nat) (s : string) :
  (String.length s <= n)%nat -> substring 0 n s = s.
Proof.
  revert s. induction n as [|n IH]; intros [|c s]; simpl; intros H;
    try reflexivity; try lia.
  rewrite IH; [reflexivity | lia].
Qed.

Lemma strncpy_is_string (n : nat) (src : string) :
  is_string n (strncpy n src) = true <-> (String.length src < n)%nat.
Proof.
  unfold is_string, strncpy. rewrite Nat.ltb_lt, length_substring_0. lia.
Qed.

Lemma strncpy_short (n : nat) (src : string) :
  (String.length src < n)%nat -> strncpy n src = src.
Proof. intros H. apply substring_0_short. lia. Qed.

Lemma join_app (a b : list string) : join (a ++ b) = join a ++ join b.
Proof.
  induction a as [|x a IH]; simpl; [reflexivity |].
  now rewrite IH, append_assoc.
Qed.

(** ** Registration *)

Section RegistrationFacts.

Variable World : Type.
Variable iio_attr_type : Type.

Lemma attribute_scan_fresh (attr : attribute) (l : list attribute) :
  attribute_ok attr = true ->
  forallb attribute_ok l = true ->
  ~ In (attribute_name attr) (map attribute_name l) ->
  forall retval,
    for_each_items (attribute_body attr) l retval
    = Next (retval + Z.of_nat (List.length l)).
Proof.
  intros Hattr. induction l as [|b l IH]; intros Hok Hfresh retval.
  - simpl. f_equal. lia.
  - simpl in Hok. apply andb_prop in Hok as [Hb Hl].
    cbn [for_each_items]. unfold attribute_body at 1.
    rewrite !with_string_ok by assumption.
    rewrite strcmp_neq by (intros E; apply Hfresh; left; now rewrite E).
    cbn [seq]. rewrite IH; [f_equal; cbn [List.length]; lia | assumption |].
    intros Hin. apply Hfresh. now right.
Qed.

Lemma attribute_scan_duplicate (attr : attribute) (l : list attribute) :
  attribute_ok attr = true ->
  forallb attribute_ok l = true ->
  In (attribute_name attr) (map attribute_name l) ->
  forall retval,
    for_each_items (attribute_body attr) l retval = Return (- EINVAL).
Proof.
  intros Hattr. induction l as [|b l IH]; intros Hok Hdup retval.
  - destruct Hdup.
  - simpl in Hok. apply andb_prop in Hok as [Hb Hl].
    cbn [for_each_items]. unfold attribute_body at 1.
    rewrite !with_string_ok by assumption.
    destruct (String.eqb_spec (attribute_name attr) (attribute_name b)) as [E|N].
    + rewrite E, strcmp_refl. reflexivity.
    + rewrite strcmp_neq by assumption. cbn [seq]. apply IH; [assumption|].
      destruct Hdup as [E|Hin]; [now symmetry in E | assumption].
Qed.

(** A name that is not in the list yet: the attribute goes to the tail
    and the call returns its position. *)
Lemma iio_register_attribute_fresh (attr : attribute) (l : attribute_list) :
  attribute_ok attr = true ->
  forallb attribute_ok (items l) = true ->
  ~ In (attribute_name attr) (map attribute_name (items l)) ->
  iio_register_attribute true attr l
  = (Ok (Z.of_nat (count l) + 1), nodes (items l ++ [attr])).
Proof.
  intros Hattr Hok Hfresh. destruct l as [|[|b l]]; try reflexivity.
  unfold iio_register_attribute, for_each.
  change (for_each_items _ (b :: l) 0)
    with (for_each_items (attribute_body attr) (b :: l) 0).
  rewrite attribute_scan_fresh by assumption. reflexivity.
Qed.

(** A name that is in the list already: [-EINVAL], list untouched. *)
Lemma iio_register_attribute_duplicate (calloc_ok : bool) (attr : attribute)
    (l : attribute_list) :
  attribute_ok attr = true ->
  forallb attribute_ok (items l) = true ->
  In (attribute_name attr) (map attribute_name (items l)) ->
  iio_register_attribute calloc_ok attr l = (Ok (- EINVAL), l).
Proof.
  intros Hattr Hok Hdup. destruct l as [|[|b l]]; try contradiction.
  unfold iio_register_attribute, for_each.
  change (for_each_items _ (b :: l) 0)
    with (for_each_items (attribute_body attr) (b :: l) 0).
  rewrite attribute_scan_duplicate by assumption. reflexivity.
Qed.

Lemma register_attributes_distinct (attrs : list attribute) :
  forall l : attribute_list,
    forallb attribute_ok (items l ++ attrs) = true ->
    NoDup (map attribute_name (items l ++ attrs)) ->
    items (snd (register_attributes attrs l)) = (items l ++ attrs)%list.
Proof.
  induction attrs as [|a attrs IH]; intros l Hok Hnd.
  - simpl. now rewrite app_nil_r.
  - cbn [register_attributes].
    assert (Hok' := Hok). rewrite forallb_app in Hok'.
    apply andb_prop in Hok' as [Hl Ha]. simpl in Ha.
    apply andb_prop in Ha as [Ha _].
    rewrite iio_register_attribute_fresh; try assumption.
    + specialize (IH (nodes (items l ++ [a]))). cbn [items] in IH.
      rewrite <- app_assoc in IH. cbn [app] in IH.
      destruct (register_attributes attrs (nodes (items l ++ [a]))) as [rs l'].
      cbn [snd] in *. now apply IH.
    + rewrite map_app in Hnd. cbn [map] in Hnd.
      apply NoDup_remove_2 in Hnd. intros Hin. apply Hnd.
      apply in_or_app. now left.
Qed.

Lemma attribute_ok_same_name (a b : attribute) :
  attribute_name a = attribute_name b -> attribute_ok b = true ->
  attribute_ok a = true.
Proof. unfold attribute_ok. now intros ->. Qed.

Lemma attribute_ok_in_names (a : attribute) (l : list attribute) :
  forallb attribute_ok l = true ->
  In (attribute_name a) (map attribute_name l) -> attribute_ok a = true.
Proof.
  intros Hok Hin. apply in_map_iff in Hin as (b & E & Hb).
  apply attribute_ok_same_name with b; [now symmetry |].
  rewrite forallb_forall in Hok. now apply Hok.
Qed.

(** Registration into a list that already holds a device: the loop
    returns in its first iteration, whatever the new device is. *)
Lemma iio_register_device_occupied (calloc_ok : bool)
    (rest : list (device World iio_attr_type))
    (device first : device World iio_attr_type) :
  is_string DEV_NAME_STR_MAX_SIZE (device_name first) = true ->
  is_string DEV_NAME_STR_MAX_SIZE (device_name device) = true ->
  iio_register_device calloc_ok device (nodes (first :: rest))
  = (Ok (- EINVAL), nodes (first :: rest)).
Proof.
  intros Hfirst Hdevice. unfold iio_register_device, for_each.
  cbn [for_each_items]. rewrite !with_string_ok by assumption.
  rewrite Z.eqb_refl, orb_true_r. reflexivity.
Qed.

End RegistrationFacts.

(** C4. Attributes with pairwise distinct names (each held as a string by
    its [name] array) are registered one after the other into a collection
    that is empty at first, every [calloc] succeeding. The registration of
    each of them, [attr], coming after the attributes [pre]: returns
    [length pre + 1], its 1-based position; leaves the collection
    [pre ++ [attr]], one element more than before. Registering into that
    collection an attribute whose name is already there returns [-EINVAL]
    and leaves the collection as it is. *)
Theorem iio_register_attribute_sequence :
  forall (pre post : list attribute) (attr : attribute) (empty : attribute_list),
    count empty = 0%nat ->
    forallb attribute_ok (pre ++ attr :: post) = true ->
    NoDup (map attribute_name (pre ++ attr :: post)) ->
    let before := snd (register_attributes pre empty) in
    let after := nodes (pre ++ [attr]) in
    iio_register_attribute true attr before
    = (Ok (Z.of_nat (List.length pre) + 1), after)
    /\ count after = S (count before)
    /\ forall (calloc_ok : bool) (dup : attribute),
         In (attribute_name dup) (map attribute_name (pre ++ [attr])) ->
         iio_register_attribute calloc_ok dup after = (Ok (- EINVAL), after)
            /\ count (snd (iio_register_attribute calloc_ok dup after))
               = count after.
Proof.
  intros pre post attr empty Hempty Hok Hnd before after.
  assert (Hitems : items empty = []).
  { unfold count in Hempty. now apply length_zero_iff_nil. }
  rewrite forallb_app in Hok. apply andb_prop in Hok as [Hpre Hrest].
  simpl in Hrest. apply andb_prop in Hrest as [Hattr Hpost].
  assert (Hbefore : items before = pre).
  { unfold before. rewrite register_attributes_distinct; rewrite Hitems; simpl.
    - reflexivity.
    - assumption.
    - rewrite map_app in Hnd. now apply NoDup_app_remove_r in Hnd. }
  assert (Hreg : iio_register_attribute true attr before
                 = (Ok (Z.of_nat (List.length pre) + 1), after)).
  { rewrite iio_register_attribute_fresh.
    - unfold count, after. now rewrite Hbefore.
    - assumption.
    - now rewrite Hbefore.
    - rewrite Hbefore. rewrite map_app in Hnd. cbn [map] in Hnd.
      now apply NoDup_remove_2 in Hnd; intros Hin; apply Hnd, in_or_app; left. }
  split; [exact Hreg |]. split.
  - unfold count, after. cbn [items]. rewrite Hbefore, length_app. simpl. lia.
  - intros calloc_ok dup Hdup.
    assert (Hafter : forallb attribute_ok (items after) = true).
    { unfold after. cbn [items]. rewrite forallb_app, Hpre. simpl.
      now rewrite Hattr. }
    assert (E : iio_register_attribute calloc_ok dup after = (Ok (- EINVAL), after)).
    { apply iio_register_attribute_duplicate; try assumption.
      now apply attribute_ok_in_names with (items after). }
    now rewrite E.
Qed.

(** C1. A device whose name and id differ from those of every registered
    device is to be appended and its position returned. The code does not
    do so: with [adc] (id 0) registered, registering [dac] (another name,
    id 1), [calloc] succeeding, returns [-EINVAL] and leaves [adc] alone in
    the registry, because the loop compares the id of the listed device
    with itself. *)
Theorem iio_register_device_second_device_rejected :
  match Example.adc, Example.dac with
  | Some adc, Some dac =>
      device_name dac <> device_name adc
      /\ device_id dac <> device_id adc
      /\ iio_register_device true adc NULL = (Ok 1, nodes [adc])
      /\ iio_register_device true dac (nodes [adc]) = (Ok (- EINVAL), nodes [adc])
  | _, _ => False
  end.
Proof.
  cbv [Example.adc Example.dac Example.new_device iio_new_static_device].
  split; [vm_compute; discriminate |].
  split; [vm_compute; discriminate |].
  split; [reflexivity |].
  now apply iio_register_device_occupied.
Qed.

(** ** The renderer, group by group *)

Lemma seq_next_inv {R S : Type} (a : flow R S) (b : S -> flow R S) (s' : S) :
  a ;; b = Next s' -> exists s, a = Next s /\ b s = Next s'.
Proof. destruct a; simpl; intros H; try discriminate. eauto. Qed.

Lemma seq_stop {R S : Type} t (s : S) (b : S -> flow R S) :
  Stop t s ;; b = Stop t s.
Proof. reflexivity. Qed.

Lemma adds_stop parts t w : adds parts (Stop t w) = Stop t w.
Proof. induction parts; simpl; auto. Qed.

Lemma strcats_stop parts t w : strcats parts (Stop t w) = Stop t w.
Proof. induction parts; simpl; auto. Qed.

Lemma block_from_seq (from : flow Empty_set writer) parts :
  block_from from parts = from ;; block parts.
Proof.
  destruct from as [w|[]|t w]; [reflexivity|].
  unfold block_from. now rewrite adds_stop, seq_stop, strcats_stop.
Qed.

Lemma adds_next parts : forall w,
  adds parts (Next w)
  = Next {| xml := xml w; index := fold_left uadd (map strlen parts) (index w) |}.
Proof.
  induction parts as [|p parts IH]; intros [x i]; [reflexivity|].
  unfold adds in *. cbn [fold_left map]. cbn [seq]. unfold add_index at 2.
  rewrite IH. reflexivity.
Qed.

Lemma fold_uadd (ls : list Z) : forall i,
  0 <= i -> Forall (fun n => 0 <= n) ls ->
  i + fold_right Z.add 0 ls < UINT_MOD ->
  fold_left uadd ls i = i + fold_right Z.add 0 ls.
Proof.
  induction ls as [|n ls IH]; intros i Hi Hls Hsum; simpl in *; [lia|].
  inversion Hls; subst.
  assert (0 <= fold_right Z.add 0 ls).
  { clear -H2. induction H2; simpl; lia. }
  unfold uadd at 2. rewrite Z.mod_small by lia.
  rewrite IH; try lia. assumption.
Qed.

Lemma sum_strlen parts :
  fold_right Z.add 0 (map strlen parts) = strlen (join parts).
Proof.
  induction parts as [|p parts IH]; simpl; [reflexivity|].
  now rewrite strlen_append, IH.
Qed.

Lemma strcats_next parts : forall w,
  strlen (xml w ++ join parts) < IIO_XML_SIZE ->
  strcats parts (Next w)
  = Next {| xml := xml w ++ join parts; index := index w |}.
Proof.
  induction parts as [|p parts IH]; intros [x i] H; cbn [xml index] in *.
  - simpl. now rewrite append_empty_r.
  - unfold strcats in *. cbn [fold_left join] in *. cbn [seq]. unfold strcat at 2.
    cbn [xml index].
    rewrite <- append_assoc in H.
    assert (Hx : (strlen (x ++ p) <? IIO_XML_SIZE) = true).
    { apply Z.ltb_lt. rewrite strlen_append in H. pose proof (strlen_nonneg (join parts)). lia. }
    rewrite Hx. rewrite IH; cbn [xml index]; [|assumption].
    now rewrite append_assoc.
Qed.

Lemma block_at_end parts text :
  strlen text < IIO_XML_SIZE ->
  strlen (join parts) < UINT_MOD - IIO_XML_SIZE ->
  tracks (block parts (at_end text)) (write_chunks [join parts] text).
Proof.
  intros Htext Hparts. unfold block, block_from.
  rewrite adds_next. cbn [xml index at_end].
  rewrite fold_uadd.
  - rewrite sum_strlen, <- strlen_append. cbn [seq]. unfold assert_index. cbn [index write_chunks].
    destruct (strlen (text ++ join parts) <? IIO_XML_SIZE) eqn:E.
    + rewrite strcats_next; cbn [xml index]; [|now apply Z.ltb_lt].
      split; [reflexivity | now apply Z.ltb_lt].
    + rewrite strcats_stop. eexists. reflexivity.
  - apply strlen_nonneg.
  - apply Forall_forall. intros n Hn. apply in_map_iff in Hn as (p & <- & _). apply strlen_nonneg.
  - rewrite sum_strlen. lia.
Qed.

Lemma write_chunks_app (c1 c2 : list string) : forall x,
  write_chunks (c1 ++ c2) x
  = match write_chunks c1 x with
    | (true, x') => write_chunks c2 x'
    | (false, x') => (false, x')
    end.
Proof.
  induction c1 as [|c c1 IH]; intros x; cbn [write_chunks app]; [reflexivity|].
  destruct (strlen (x ++ c) <? IIO_XML_SIZE); [apply IH | reflexivity].
Qed.

Lemma tracks_seq r (g : step) c1 c2 text :
  tracks r (write_chunks c1 text) -> implements g c2 ->
  tracks (r ;; g) (write_chunks (c1 ++ c2) text).
Proof.
  intros Hr Hg. rewrite write_chunks_app.
  destruct (write_chunks c1 text) as [[|] text']; cbn [tracks] in Hr.
  - destruct Hr as [-> Hlen]. cbn [seq]. now apply Hg.
  - destruct Hr as [i ->]. cbn [seq tracks]. eauto.
Qed.

Lemma implements_seq (f g : step) c1 c2 :
  implements f c1 -> implements g c2 -> implements (fun w => f w ;; g) (c1 ++ c2).
Proof. intros Hf Hg text Htext. apply tracks_seq; auto. Qed.

Lemma implements_block parts :
  strlen (join parts) < UINT_MOD - IIO_XML_SIZE ->
  implements (block parts) [join parts].
Proof. intros H text Htext. now apply block_at_end. Qed.

Lemma implements_ext (f g : step) chunks :
  (forall w, f w = g w) -> implements g chunks -> implements f chunks.
Proof. intros E H text Htext. rewrite E. now apply H. Qed.

Lemma implements_for_each_items {T : Type} (body : T -> step)
    (chunks : T -> list string) (l : list T) :
  (forall a, In a l -> implements (body a) (chunks a)) ->
  implements (for_each_items body l) (flat_map chunks l).
Proof.
  induction l as [|a l IH]; intros H text Htext.
  - cbn. split; [reflexivity | assumption].
  - cbn [for_each_items flat_map]. apply tracks_seq.
    + apply H; [now left | assumption].
    + apply IH. intros b Hb. apply H. now right.
Qed.

Lemma flat_map_singleton {A B : Type} (f : A -> B) (l : list A) :
  flat_map (fun a => [f a]) l = map f l.
Proof. induction l; simpl; congruence. Qed.

Lemma is_string_strlen cap field :
  is_string cap field = true -> strlen field < Z.of_nat cap.
Proof. unfold is_string, strlen. intros H. apply Nat.ltb_lt in H. lia. Qed.

Lemma read_string_ok (cap : nat) (field : string) (k : string -> step) :
  is_string cap field = true -> read_string cap field k = fun w => k field w.
Proof.
  intros H. unfold read_string, with_string. now rewrite c_str_is_string, H.
Qed.

Lemma read_string_bad (cap : nat) (field : string) (k : string -> step) :
  is_string cap field = false ->
  read_string cap field k = fun w => Stop not_a_string w.
Proof.
  intros H. unfold read_string, with_string. now rewrite c_str_is_string, H.
Qed.

Ltac bound_strlen :=
  unfold strlen in *; cbn [join];
  repeat rewrite length_append;
  cbn [String.length QUOTE append] in *;
  change UINT_MOD with 4294967296; change IIO_XML_SIZE with 3072;
  cbv [ATTR_NAME_MAX_SIZE DEV_NAME_STR_MAX_SIZE CHN_ID_STR_MAX_SIZE
       CONTEXT_NAME_MAX_SIZE CONTEXT_DESC_MAX_SIZE TYPE_STR_MAX_SIZE] in *;
  lia.

Lemma attribute_body_block (attr : attribute) (w : writer) :
  attribute_ok attr = true ->
  (add_index (strlen ("<attribute name=" ++ QUOTE)) w ;;
   read_string ATTR_NAME_MAX_SIZE (attribute_name attr) (fun name w =>
     add_index (strlen name) w ;;
     add_index (strlen (QUOTE ++ " />")) ;;
     assert_index ;;
     strcat ("<attribute name=" ++ QUOTE) ;;
     strcat name ;;
     strcat (QUOTE ++ " />")))
  = block ["<attribute name=" ++ QUOTE; attribute_name attr; QUOTE ++ " />"] w.
Proof.
  intros Hok. unfold add_index at 1. cbn [seq]. unfold read_string.
  rewrite with_string_ok by assumption. reflexivity.
Qed.

Lemma populate_attributes_implements (l : attribute_list) (level : Z) :
  attributes_ok l = true ->
  implements (populate_attributes l level) (map attribute_element (items l)).
Proof.
  destruct l as [|l]; [discriminate|]. cbn [attributes_ok items]. intros Hok.
  rewrite <- flat_map_singleton. unfold populate_attributes, for_each.
  apply implements_for_each_items. intros a Ha.
  rewrite forallb_forall in Hok. specialize (Hok a Ha).
  apply implements_ext with (g := block ["<attribute name=" ++ QUOTE; attribute_name a; QUOTE ++ " />"]).
  - intros w. now apply attribute_body_block.
  - apply implements_block.
    apply is_string_strlen in Hok. bound_strlen.
Qed.

Lemma render_channel_blocks (c : channel) (w : writer) :
  is_string CHN_ID_STR_MAX_SIZE (channel_id c) = true ->
  is_string TYPE_STR_MAX_SIZE (channel_type c) = true ->
  render_channel c w
  = block ["<channel id=" ++ QUOTE; channel_id c; QUOTE ++ " type=" ++ QUOTE;
           channel_type c; QUOTE ++ ">"] w ;;
    populate_attributes (channel_attrs c) 3 ;;
    block ["</channel>"].
Proof.
  intros Hid Htype. rewrite <- block_from_seq.
  unfold render_channel. rewrite !read_string_ok by assumption. reflexivity.
Qed.

Lemma render_channel_implements (c : channel) :
  channel_ok c = true -> implements (render_channel c) (channel_chunks c).
Proof.
  unfold channel_ok. intros Hok.
  apply andb_prop in Hok as [Hok Hattrs]. apply andb_prop in Hok as [Hid Htype].
  apply implements_ext with (1 := fun w => render_channel_blocks c w Hid Htype).
  apply is_string_strlen in Hid, Htype.
  change (channel_chunks c)
    with (([channel_open c] ++ map attribute_element (items (channel_attrs c)))
          ++ ["</channel>"])%list.
  apply implements_seq with (f := fun w => block _ w ;; populate_attributes _ 3).
  - apply implements_seq.
    + apply implements_block. bound_strlen.
    + now apply populate_attributes_implements.
  - apply implements_block. bound_strlen.
Qed.

Section Devices.
Variable World : Type.
Variable iio_attr_type : Type.
Implicit Types (d : device World iio_attr_type) (ctx : context World iio_attr_type).

Lemma render_device_blocks d (w : writer) :
  is_string 4 (decimal (to_int (device_id d))) = true ->
  is_string DEV_NAME_STR_MAX_SIZE (device_name d) = true ->
  render_device d w
  = block ["<device id=" ++ QUOTE; decimal (to_int (device_id d));
           QUOTE ++ " name=" ++ QUOTE; device_name d; QUOTE ++ ">"] w ;;
    for_each (device_channels d) render_channel ;;
    populate_attributes (device_attrs d) 2 ;;
    block ["</device>"].
Proof.
  intros Hid Hname. rewrite <- block_from_seq.
  unfold render_device, sprintf_id. unfold is_string in Hid. rewrite Hid.
  rewrite !read_string_ok by assumption. reflexivity.
Qed.

Lemma render_device_implements d :
  device_ok d = true -> implements (render_device d) (device_chunks d).
Proof.
  unfold device_ok. intros Hok.
  apply andb_prop in Hok as [Hok Hattrs]. apply andb_prop in Hok as [Hok Hchans].
  apply andb_prop in Hok as [Hid Hname].
  apply implements_ext with (1 := fun w => render_device_blocks d w Hid Hname).
  apply is_string_strlen in Hid, Hname.
  replace (device_chunks d)
    with ((([device_open d] ++ flat_map channel_chunks (items (device_channels d)))
           ++ map attribute_element (items (device_attrs d)))
          ++ ["</device>"])%list
    by (unfold device_chunks; cbn [app]; now rewrite <- app_assoc).
  apply implements_seq
    with (f := fun w => block _ w ;; for_each _ render_channel ;; populate_attributes _ 2).
  - apply implements_seq with (f := fun w => block _ w ;; for_each _ render_channel).
    + apply implements_seq.
      * apply implements_block. bound_strlen.
      * destruct (device_channels d) as [|l]; [discriminate|].
        cbn [channels_ok items for_each] in *.
        apply implements_for_each_items. intros c Hc.
        apply render_channel_implements.
        rewrite forallb_forall in Hchans. now apply Hchans.
    + now apply populate_attributes_implements.
  - apply implements_block. bound_strlen.
Qed.

End Devices.

Lemma dtd_fits :
  to_uint (strlen dtd) = strlen dtd /\ (strlen dtd <? IIO_XML_SIZE) = true.
Proof. split; vm_compute; reflexivity. Qed.

Lemma write_chunks_prefix (chunks : list string) : forall text b text',
  write_chunks chunks text = (b, text') ->
  exists done rest,
    chunks = (done ++ rest)%list /\ text' = text ++ join done
    /\ (b = true -> rest = []).
Proof.
  induction chunks as [|c chunks IH]; intros text b text' H; cbn [write_chunks] in H.
  - inversion H; subst. exists [], []. cbn. now rewrite append_empty_r.
  - destruct (strlen (text ++ c) <? IIO_XML_SIZE).
    + apply IH in H as (done & rest & -> & -> & Hb).
      exists (c :: done), rest. cbn [join app]. now rewrite append_assoc.
    + inversion H; subst. exists [], (c :: chunks). cbn.
      rewrite append_empty_r. repeat split. discriminate.
Qed.

Lemma write_chunks_fits (chunks : list string) : forall text,
  strlen (text ++ join chunks) < IIO_XML_SIZE ->
  write_chunks chunks text = (true, text ++ join chunks).
Proof.
  induction chunks as [|c chunks IH]; intros text H; cbn [write_chunks join] in *.
  - now rewrite append_empty_r.
  - rewrite <- append_assoc in H.
    assert (Hc : (strlen (text ++ c) <? IIO_XML_SIZE) = true).
    { apply Z.ltb_lt. rewrite strlen_append in H.
      pose proof (strlen_nonneg (join chunks)). lia. }
    rewrite Hc, IH by assumption. now rewrite append_assoc.
Qed.

Lemma write_chunks_overflow (chunks : list string) : forall text,
  strlen text < IIO_XML_SIZE ->
  IIO_XML_SIZE <= strlen (text ++ join chunks) ->
  exists text', write_chunks chunks text = (false, text')
                /\ strlen text' < IIO_XML_SIZE.
Proof.
  induction chunks as [|c chunks IH]; intros text Htext H; cbn [write_chunks join] in *.
  - rewrite append_empty_r in H. lia.
  - destruct (strlen (text ++ c) <? IIO_XML_SIZE) eqn:E.
    + apply IH; [now apply Z.ltb_lt | now rewrite append_assoc].
    + eauto.
Qed.

Lemma seq_assoc {R S : Type} (a : flow R S) (f g : S -> flow R S) :
  a ;; (fun s => f s ;; g) = a ;; f ;; g.
Proof. now destruct a. Qed.

Section Contexts.
Variable World : Type.
Variable iio_attr_type : Type.
Implicit Types (d : device World iio_attr_type) (ctx : context World iio_attr_type).

Lemma render_context_blocks ctx (old : string) :
  is_string CONTEXT_NAME_MAX_SIZE (context_name ctx) = true ->
  is_string CONTEXT_DESC_MAX_SIZE (context_description ctx) = true ->
  render_context ctx {| xml := old; index := to_uint (strlen dtd) |}
  = block ["<context name=" ++ QUOTE; context_name ctx; QUOTE ++ " "]
      (at_end dtd) ;;
    block ["description=" ++ QUOTE; context_description ctx; QUOTE ++ ">"] ;;
    for_each (context_devices ctx) render_device ;;
    block ["</context>"].
Proof.
  intros Hname Hdesc. destruct dtd_fits as [Hu Hfit].
  rewrite <- !block_from_seq.
  unfold render_context. rewrite !read_string_ok by assumption.
  unfold assert_index at 1. cbn [index]. rewrite Hu, Hfit.
  cbn [seq]. unfold strcpy. rewrite Hfit. cbn [index].
  change {| xml := dtd; index := strlen dtd |} with (at_end dtd).
  unfold add_index at 1. cbn [seq]. rewrite !seq_assoc.
  reflexivity.
Qed.

Lemma render_context_tracks ctx (old : string) :
  context_ok ctx = true ->
  tracks (render_context ctx {| xml := old; index := to_uint (strlen dtd) |})
    (write_chunks (context_chunks ctx) dtd).
Proof.
  unfold context_ok. intros Hok.
  apply andb_prop in Hok as [Hok Hdevs]. apply andb_prop in Hok as [Hname Hdesc].
  rewrite render_context_blocks by assumption.
  apply is_string_strlen in Hname, Hdesc.
  change (context_chunks ctx)
    with ((([ ("<context name=" ++ QUOTE ++ context_name ctx ++ QUOTE ++ " ")%string ]
            ++ [ ("description=" ++ QUOTE ++ context_description ctx ++ QUOTE ++ ">")%string ])
           ++ flat_map device_chunks (items (context_devices ctx)))
          ++ ["</context>"])%list.
  destruct dtd_fits as [_ Hfit]. apply Z.ltb_lt in Hfit.
  apply tracks_seq; [apply tracks_seq; [apply tracks_seq |] |].
  - apply implements_block; [bound_strlen | assumption].
  - apply implements_block. bound_strlen.
  - destruct (context_devices ctx) as [|l]; [discriminate|].
    cbn [items for_each]. apply implements_for_each_items. intros d Hd.
    apply render_device_implements. rewrite forallb_forall in Hdevs. now apply Hdevs.
  - apply implements_block. bound_strlen.
Qed.

(** What [generate_xml] does on a well-formed context. *)
Lemma generate_xml_chunks ctx :
  context_ok ctx = true ->
  generate_xml ctx
  = match write_chunks (context_chunks ctx) dtd with
    | (true, text) => (Ok text, set_xml ctx text)
    | (false, text) => (Trap assert_failed, set_xml ctx text)
    end.
Proof.
  intros Hok. unfold generate_xml.
  pose proof (render_context_tracks ctx (context_xml ctx) Hok) as H.
  destruct (write_chunks (context_chunks ctx) dtd) as [[|] text]; cbn [tracks] in H.
  - destruct H as [-> _]. reflexivity.
  - destruct H as [i ->]. reflexivity.
Qed.

End Contexts.

(** ** Rendering that completes was given a well-formed context *)

Lemma read_string_next (cap : nat) (field : string) (k : string -> step)
    (w w' : writer) :
  read_string cap field k w = Next w' ->
  is_string cap field = true /\ k field w = Next w'.
Proof.
  unfold read_string, with_string. rewrite c_str_is_string.
  destruct (is_string cap field); [auto | discriminate].
Qed.

Lemma for_each_items_next {T : Type} (body : T -> step) (P : T -> bool) :
  (forall a w w', body a w = Next w' -> P a = true) ->
  forall l w w', for_each_items body l w = Next w' -> forallb P l = true.
Proof.
  intros Hbody. induction l as [|a l IH]; intros w w' H; [reflexivity|].
  cbn [for_each_items] in H. apply seq_next_inv in H as (w1 & Ha & Hl).
  cbn [forallb]. rewrite (Hbody _ _ _ Ha). now apply IH in Hl.
Qed.

Lemma populate_attributes_next (l : attribute_list) (level : Z) (w w' : writer) :
  populate_attributes l level w = Next w' -> attributes_ok l = true.
Proof.
  destruct l as [|l]; [discriminate|].
  unfold populate_attributes, for_each. cbn [attributes_ok].
  apply for_each_items_next with (P := attribute_ok).
  clear. intros a w w' H.
  apply seq_next_inv in H as (w1 & _ & H).
  now apply read_string_next in H as [H _].
Qed.

Lemma render_channel_next (c : channel) (w w' : writer) :
  render_channel c w = Next w' -> channel_ok c = true.
Proof.
  unfold render_channel. intros H.
  apply seq_next_inv in H as (w1 & _ & H).
  apply read_string_next in H as [Hid H].
  apply seq_next_inv in H as (w2 & _ & H).
  apply read_string_next in H as [Htype H].
  apply seq_next_inv in H as (w3 & H & _).
  apply seq_next_inv in H as (w4 & H & _).
  apply seq_next_inv in H as (w5 & H & _).
  apply seq_next_inv in H as (w6 & _ & H).
  apply populate_attributes_next in H.
  unfold channel_ok. now rewrite Hid, Htype, H.
Qed.

Section Completed.
Variable World : Type.
Variable iio_attr_type : Type.
Implicit Types (d : device World iio_attr_type) (ctx : context World iio_attr_type).

Lemma for_each_next {T : Type} (body : T -> step) (P : T -> bool)
    (l : linked T) (w w' : writer) :
  (forall a w w', body a w = Next w' -> P a = true) ->
  for_each l body w = Next w' ->
  exists items, l = nodes items /\ forallb P items = true.
Proof.
  intros Hbody H. destruct l as [|l]; [discriminate|].
  exists l. split; [reflexivity|].
  now apply for_each_items_next with (P := P) in H.
Qed.

Lemma render_device_next d (w w' : writer) :
  render_device d w = Next w' -> device_ok d = true.
Proof.
  unfold render_device, sprintf_id. intros H.
  destruct (String.length (decimal (to_int (device_id d))) <? 4)%nat eqn:Hid;
    [|discriminate].
  apply seq_next_inv in H as (w1 & _ & H).
  apply read_string_next in H as [Hname H].
  apply seq_next_inv in H as (w2 & H & _).
  apply seq_next_inv in H as (w3 & H & _).
  apply seq_next_inv in H as (w4 & H & _).
  apply seq_next_inv in H as (w5 & H & Hattrs).
  apply seq_next_inv in H as (w6 & _ & Hchans).
  apply populate_attributes_next in Hattrs.
  apply for_each_next with (P := channel_ok) in Hchans as (l & El & Hl);
    [|exact render_channel_next].
  unfold device_ok. rewrite Hname, Hattrs, El. unfold is_string. rewrite Hid.
  cbn. now rewrite Hl.
Qed.

Lemma render_context_next ctx (w w' : writer) :
  render_context ctx w = Next w' -> context_ok ctx = true.
Proof.
  unfold render_context. intros H.
  apply seq_next_inv in H as (w1 & _ & H).
  apply read_string_next in H as [Hname H].
  apply seq_next_inv in H as (w2 & _ & H).
  apply read_string_next in H as [Hdesc H].
  apply seq_next_inv in H as (w3 & H & _).
  apply seq_next_inv in H as (w4 & H & _).
  apply seq_next_inv in H as (w5 & H & _).
  apply seq_next_inv in H as (w6 & _ & H).
  apply for_each_next with (P := @device_ok World iio_attr_type) in H as (l & El & Hl);
    [|exact render_device_next].
  unfold context_ok. rewrite Hname, Hdesc, El. exact Hl.
Qed.

Lemma generate_xml_ok ctx (text : string) ctx' :
  generate_xml ctx = (Ok text, ctx') -> context_ok ctx = true.
Proof.
  unfold generate_xml. intros H.
  destruct (render_context ctx _) as [w|[]|t w] eqn:E; [|discriminate].
  now apply render_context_next in E.
Qed.

Lemma installed_ok ctx : installed ctx -> context_ok ctx = true.
Proof.
  intros (sc & name & desc & devices & wcb & rcb & H).
  unfold iio_init in H.
  destruct devices as [|l]; [discriminate|].
  destruct wcb; [|discriminate]. destruct rcb; [|discriminate].
  unfold generate_xml in H.
  destruct (render_context _ _) as [w|[]|t w] eqn:E; [|discriminate].
  apply render_context_next in E. inversion H; subst ctx. exact E.
Qed.

End Completed.

(** ** The text that [write_chunks] leaves fits the array *)

Lemma write_chunks_bounded (chunks : list string) : forall text b text',
  strlen text < IIO_XML_SIZE ->
  write_chunks chunks text = (b, text') -> strlen text' < IIO_XML_SIZE.
Proof.
  induction chunks as [|c chunks IH]; intros text b text' Htext H;
    cbn [write_chunks] in H.
  - now inversion H; subst.
  - destruct (strlen (text ++ c) <? IIO_XML_SIZE) eqn:E.
    + apply IH in H; [assumption | now apply Z.ltb_lt].
    + now inversion H; subst.
Qed.

(** ** The dispatcher *)

Lemma for_each_find {T R : Type} (P : T -> bool) (k : T -> R) (none : R)
    (body : T -> unit -> flow R unit) (l : list T) :
  (forall x, In x l -> body x tt = if P x then Return (k x) else Next tt) ->
  for_each (nodes l) body tt ;; (fun _ => Return none)
  = Return (match find P l with Some x => k x | None => none end).
Proof.
  unfold for_each. induction l as [|x l IH]; intros Hbody; [reflexivity|].
  cbn [for_each_items find]. rewrite (Hbody x (or_introl eq_refl)).
  destruct (P x); [reflexivity|]. cbn [seq].
  apply IH. intros y Hy. apply Hbody. now right.
Qed.

Lemma attributes_ok_nodes (l : attribute_list) :
  attributes_ok l = true ->
  exists its, l = nodes its /\ forall a, In a its -> attribute_ok a = true.
Proof.
  destruct l as [|its]; [discriminate|]. cbn. intros H. exists its.
  split; [reflexivity|]. now apply forallb_forall.
Qed.

Lemma channels_ok_nodes (l : channel_list) :
  channels_ok l = true ->
  exists its, l = nodes its /\ forall c, In c its -> channel_ok c = true.
Proof.
  destruct l as [|its]; [discriminate|]. cbn. intros H. exists its.
  split; [reflexivity|]. now apply forallb_forall.
Qed.

(** The attribute loop shared by the four attribute entry points. *)
Lemma attribute_loop {R : Type} (l : attribute_list) (attr : string)
    (found none : R) :
  attributes_ok l = true ->
  for_each l (fun attribute _ =>
    with_string ATTR_NAME_MAX_SIZE (attribute_name attribute) tt (fun name =>
      if strcmp name attr =? 0 then Return found else Next tt)) tt ;;
  (fun _ => Return none)
  = Return (match find_attribute l attr with Some _ => found | None => none end).
Proof.
  intros Hok. apply attributes_ok_nodes in Hok as (its & -> & Hok).
  unfold find_attribute. cbn [items].
  apply for_each_find with (k := fun _ => found). intros a Ha.
  now rewrite with_string_ok by (apply Hok, Ha).
Qed.

Section DispatcherFacts.
Variable World : Type.
Variable iio_attr_type : Type.
Implicit Types (dev : device World iio_attr_type) (ctx : context World iio_attr_type).

Lemma context_ok_devices ctx :
  context_ok ctx = true ->
  exists l, context_devices ctx = nodes l
            /\ forall dev, In dev l -> device_ok dev = true.
Proof.
  unfold context_ok. intros H. apply andb_prop in H as [_ H].
  destruct (context_devices ctx) as [|l]; [discriminate|].
  exists l. split; [reflexivity|]. now apply forallb_forall.
Qed.

Lemma device_ok_lists dev :
  device_ok dev = true ->
  channels_ok (device_channels dev) = true
  /\ attributes_ok (device_attrs dev) = true.
Proof.
  unfold device_ok. intros H. apply andb_prop in H as [H Ha].
  apply andb_prop in H as [_ Hc]. now split.
Qed.

Lemma read_attr_spec ctx device attr buf len type :
  context_ok ctx = true ->
  read_attr ctx device attr buf len type
  = Return
      match find_device ctx device with
      | None => Value (- ENOENT)
      | Some dev =>
          match find_attribute (device_attrs dev) attr with
          | None => Value (- ENOENT)
          | Some _ =>
              slot_answer (attr_read_attr (device_attr_accessors dev))
                (fun f => f (device_data dev) attr buf len type)
          end
      end.
Proof.
  intros Hok. apply context_ok_devices in Hok as (l & El & Hok).
  unfold read_attr, find_device. rewrite El. cbn [items].
  apply for_each_find
    with (k := fun dev =>
                 match find_attribute (device_attrs dev) attr with
                 | None => Value (- ENOENT)
                 | Some _ => slot_answer (attr_read_attr (device_attr_accessors dev))
                               (fun f => f (device_data dev) attr buf len type)
                 end).
  intros dev Hdev. destruct (device_matches dev device); [|reflexivity].
  apply Hok, device_ok_lists in Hdev as [_ Ha].
  rewrite <- attribute_loop by assumption. unfold slot_answer.
  destruct (attr_read_attr (device_attr_accessors dev)); reflexivity.
Qed.

Lemma write_attr_spec ctx device attr buf len type :
  context_ok ctx = true ->
  write_attr ctx device attr buf len type
  = Return
      match find_device ctx device with
      | None => Value (- ENOENT)
      | Some dev =>
          match find_attribute (device_attrs dev) attr with
          | None => Value (- ENOENT)
          | Some _ =>
              slot_answer (attr_write_attr (device_attr_accessors dev))
                (fun f => f (device_data dev) attr buf len type)
          end
      end.
Proof.
  intros Hok. apply context_ok_devices in Hok as (l & El & Hok).
  unfold write_attr, find_device. rewrite El. cbn [items].
  apply for_each_find
    with (k := fun dev =>
                 match find_attribute (device_attrs dev) attr with
                 | None => Value (- ENOENT)
                 | Some _ => slot_answer (attr_write_attr (device_attr_accessors dev))
                               (fun f => f (device_data dev) attr buf len type)
                 end).
  intros dev Hdev. destruct (device_matches dev device); [|reflexivity].
  apply Hok, device_ok_lists in Hdev as [_ Ha].
  rewrite <- attribute_loop by assumption. unfold slot_answer.
  destruct (attr_write_attr (device_attr_accessors dev)); reflexivity.
Qed.

(** The channel loop of [ch_read_attr] and [ch_write_attr]. *)
Lemma channel_loop (l : channel_list) (channel attr : string)
    (found : answer World) :
  channels_ok l = true ->
  for_each l (fun chn _ =>
    with_string CHN_ID_STR_MAX_SIZE (channel_id chn) tt (fun id =>
      if strcmp id channel =? 0 then
        for_each (channel_attrs chn) (fun attribute _ =>
          with_string ATTR_NAME_MAX_SIZE (attribute_name attribute) tt
            (fun name =>
          if strcmp name attr =? 0 then Return found else Next tt)) tt ;;
        fun _ => Return (Value (- ENOENT))
      else Next tt)) tt ;;
  (fun _ => Return (Value (- ENOENT)))
  = Return
      match find_channel l channel with
      | None => Value (- ENOENT)
      | Some chn =>
          match find_attribute (channel_attrs chn) attr with
          | None => Value (- ENOENT)
          | Some _ => found
          end
      end.
Proof.
  intros Hok. apply channels_ok_nodes in Hok as (its & -> & Hok).
  unfold find_channel. cbn [items].
  apply for_each_find
    with (k := fun chn =>
                 match find_attribute (channel_attrs chn) attr with
                 | None => Value (- ENOENT)
                 | Some _ => found
                 end).
  intros c Hc. specialize (Hok c Hc). unfold channel_ok in Hok.
  apply andb_prop in Hok as [Hok Hattrs]. apply andb_prop in Hok as [Hid _].
  rewrite with_string_ok by assumption.
  destruct (strcmp (channel_id c) channel =? 0); [|reflexivity].
  now rewrite <- attribute_loop by assumption.
Qed.

Lemma ch_read_attr_spec ctx device channel ch_out attr buf len :
  context_ok ctx = true ->
  ch_read_attr ctx device channel ch_out attr buf len
  = Return
      match find_device ctx device with
      | None => Value (- ENOENT)
      | Some dev =>
          match find_channel (device_channels dev) channel with
          | None => Value (- ENOENT)
          | Some chn =>
              match find_attribute (channel_attrs chn) attr with
              | None => Value (- ENOENT)
              | Some _ =>
                  slot_answer (chn_read_attr (device_chn_accessors dev))
                    (fun f => f (device_data dev) channel ch_out attr buf
                                (to_ssize len))
              end
          end
      end.
Proof.
  intros Hok. apply context_ok_devices in Hok as (l & El & Hok).
  unfold ch_read_attr, find_device. rewrite El. cbn [items].
  apply for_each_find
    with (k := fun dev =>
                 match find_channel (device_channels dev) channel with
                 | None => Value (- ENOENT)
                 | Some chn =>
                     match find_attribute (channel_attrs chn) attr with
                     | None => Value (- ENOENT)
                     | Some _ =>
                         slot_answer (chn_read_attr (device_chn_accessors dev))
                           (fun f => f (device_data dev) channel ch_out attr buf
                                       (to_ssize len))
                     end
                 end).
  intros dev Hdev. destruct (device_matches dev device); [|reflexivity].
  apply Hok, device_ok_lists in Hdev as [Hc _].
  rewrite <- channel_loop by assumption. unfold slot_answer.
  destruct (chn_read_attr (device_chn_accessors dev)); reflexivity.
Qed.

Lemma ch_write_attr_spec ctx device channel ch_out attr buf len :
  context_ok ctx = true ->
  ch_write_attr ctx device channel ch_out attr buf len
  = Return
      match find_device ctx device with
      | None => Value (- ENOENT)
      | Some dev =>
          match find_channel (device_channels dev) channel with
          | None => Value (- ENOENT)
          | Some chn =>
              match find_attribute (channel_attrs chn) attr with
              | None => Value (- ENOENT)
              | Some _ =>
                  slot_answer (chn_write_attr (device_chn_accessors dev))
                    (fun f => f (device_data dev) channel ch_out attr buf
                                (to_ssize len))
              end
          end
      end.
Proof.
  intros Hok. apply context_ok_devices in Hok as (l & El & Hok).
  unfold ch_write_attr, find_device. rewrite El. cbn [items].
  apply for_each_find
    with (k := fun dev =>
                 match find_channel (device_channels dev) channel with
                 | None => Value (- ENOENT)
                 | Some chn =>
                     match find_attribute (channel_attrs chn) attr with
                     | None => Value (- ENOENT)
                     | Some _ =>
                         slot_answer (chn_write_attr (device_chn_accessors dev))
                           (fun f => f (device_data dev) channel ch_out attr buf
                                       (to_ssize len))
                     end
                 end).
  intros dev Hdev. destruct (device_matches dev device); [|reflexivity].
  apply Hok, device_ok_lists in Hdev as [Hc _].
  rewrite <- channel_loop by assumption. unfold slot_answer.
  destruct (chn_write_attr (device_chn_accessors dev)); reflexivity.
Qed.

(** The data entry points look at the device list only. *)
Lemma read_data_spec ctx device buf offset bytes_count :
  context_devices ctx <> NULL ->
  read_data ctx device buf offset bytes_count
  = Return
      match find_device ctx device with
      | None => Value (- ENOENT)
      | Some dev =>
          slot_answer (chn_read_data (device_chn_accessors dev))
            (fun f => f (device_data dev) buf offset bytes_count)
      end.
Proof.
  intros Hl. unfold read_data, find_device.
  destruct (context_devices ctx) as [|l]; [contradiction|]. cbn [items].
  apply for_each_find
    with (k := fun dev =>
                 slot_answer (chn_read_data (device_chn_accessors dev))
                   (fun f => f (device_data dev) buf offset bytes_count)).
  intros dev _. unfold slot_answer.
  destruct (device_matches dev device); [|reflexivity].
  destruct (chn_read_data (device_chn_accessors dev)); reflexivity.
Qed.

Lemma write_data_spec ctx device buf offset bytes_count :
  context_devices ctx <> NULL ->
  write_data ctx device buf offset bytes_count
  = Return
      match find_device ctx device with
      | None => Value (- ENOENT)
      | Some dev =>
          slot_answer (chn_write_data (device_chn_accessors dev))
            (fun f => f (device_data dev) buf offset bytes_count)
      end.
Proof.
  intros Hl. unfold write_data, find_device.
  destruct (context_devices ctx) as [|l]; [contradiction|]. cbn [items].
  apply for_each_find
    with (k := fun dev =>
                 slot_answer (chn_write_data (device_chn_accessors dev))
                   (fun f => f (device_data dev) buf offset bytes_count)).
  intros dev _. unfold slot_answer.
  destruct (device_matches dev device); [|reflexivity].
  destruct (chn_write_data (device_chn_accessors dev)); reflexivity.
Qed.

(** No device matches: the device loop of any entry point falls through,
    whatever it would do with a matching device. *)
Lemma device_loop_none {R : Type}
    (inner : device World iio_attr_type -> flow R unit) (none : R)
    (l : list (device World iio_attr_type)) (device : string) :
  (forall dev, In dev l -> device_id dev <> to_uint (atoi device)) ->
  for_each (nodes l) (fun dev _ =>
    if device_matches dev device then inner dev else Next tt) tt ;;
  (fun _ => Return none)
  = Return none.
Proof.
  intros Hno. unfold for_each. induction l as [|dev l IH]; [reflexivity|].
  cbn [for_each_items]. unfold device_matches at 1.
  destruct (Z.eqb_spec (to_uint (atoi device)) (device_id dev)) as [E|_].
  - exfalso. apply (Hno dev); [now left | now symmetry].
  - cbn [seq]. apply IH. intros d Hd. apply Hno. now right.
Qed.

Lemma find_device_none ctx device :
  (forall dev, In dev (items (context_devices ctx)) ->
               device_id dev <> to_uint (atoi device)) ->
  find_device ctx device = None.
Proof.
  intros Hno. unfold find_device.
  destruct (find _ _) as [dev|] eqn:E; [|reflexivity].
  apply find_some in E as [Hin Hm]. unfold device_matches in Hm.
  apply Z.eqb_eq in Hm. exfalso. apply (Hno dev Hin). now symmetry.
Qed.

Lemma find_attribute_none (l : attribute_list) (attr : string) :
  ~ In attr (map attribute_name (items l)) -> find_attribute l attr = None.
Proof.
  intros Hno. unfold find_attribute.
  destruct (find _ _) as [a|] eqn:E; [|reflexivity].
  apply find_some in E as [Hin Hm]. rewrite strcmp_eqb in Hm.
  apply String.eqb_eq in Hm. exfalso. apply Hno, in_map_iff. eauto.
Qed.

Lemma installed_devices ctx : installed ctx -> context_devices ctx <> NULL.
Proof.
  intros H. apply installed_ok, context_ok_devices in H as (l & -> & _).
  discriminate.
Qed.

End DispatcherFacts.

(** ** The descriptor as a document *)

Lemma join_flat_map {T : Type} (f : T -> list string) (l : list T) :
  join (flat_map f l) = join (map (fun x => join (f x)) l).
Proof.
  induction l as [|x l IH]; [reflexivity|].
  cbn [flat_map map join]. now rewrite join_app, IH.
Qed.

Lemma join_map_ext {T : Type} (f g : T -> string) (l : list T) :
  (forall x, f x = g x) -> join (map f l) = join (map g l).
Proof. intros E. induction l as [|x l IH]; cbn; [reflexivity|]. now rewrite E, IH. Qed.

Lemma channel_element_chunks (c : channel) :
  join (channel_chunks c) = channel_element c.
Proof.
  unfold channel_chunks, channel_element. cbn [join]. now rewrite join_app.
Qed.

Section Documents.
Variable World : Type.
Variable iio_attr_type : Type.
Implicit Types (d : device World iio_attr_type) (ctx : context World iio_attr_type).

Lemma device_element_chunks d : join (device_chunks d) = device_element d.
Proof.
  unfold device_chunks, device_element. cbn [join].
  rewrite !join_app, join_flat_map.
  now rewrite (join_map_ext _ _ _ channel_element_chunks).
Qed.

Lemma document_chunks ctx : dtd ++ join (context_chunks ctx) = document ctx.
Proof.
  unfold context_chunks, document, context_open. cbn [join].
  rewrite !join_app, join_flat_map.
  rewrite (join_map_ext _ _ _ device_element_chunks).
  f_equal. cbn [join]. rewrite !append_assoc. reflexivity.
Qed.

Lemma generate_xml_fits ctx :
  context_ok ctx = true -> strlen (document ctx) < IIO_XML_SIZE ->
  generate_xml ctx = (Ok (document ctx), set_xml ctx (document ctx)).
Proof.
  intros Hok Hfit. rewrite generate_xml_chunks by assumption.
  rewrite <- document_chunks in *. now rewrite write_chunks_fits.
Qed.

Lemma generate_xml_returns ctx (text : string) ctx' :
  generate_xml ctx = (Ok text, ctx') ->
  text = document ctx /\ ctx' = set_xml ctx (document ctx).
Proof.
  intros H. apply generate_xml_ok in H as Hok.
  rewrite generate_xml_chunks in H by assumption.
  destruct (write_chunks (context_chunks ctx) dtd) as [[|] text'] eqn:E;
    [|discriminate].
  apply write_chunks_prefix in E as (done & rest & Ec & -> & Hrest).
  rewrite (Hrest eq_refl), app_nil_r in Ec. subst done.
  rewrite document_chunks in H. now inversion H.
Qed.

Lemma document_order ctx before A between B after :
  items (context_devices ctx) = (before ++ A :: between ++ B :: after)%list ->
  exists pre mid post,
    document ctx = pre ++ device_element A ++ mid ++ device_element B ++ post.
Proof.
  intros E. unfold document. rewrite E.
  exists (dtd ++ context_open ctx ++ join (map device_element before)),
         (join (map device_element between)),
         (join (map device_element after) ++ "</context>").
  rewrite map_app. cbn [map]. rewrite map_app. cbn [map].
  rewrite join_app. cbn [join]. rewrite join_app. cbn [join].
  now rewrite !append_assoc.
Qed.

Lemma generate_xml_forgets ctx (old : string) :
  generate_xml (set_xml ctx old) = generate_xml ctx.
Proof.
  unfold generate_xml. cbn [set_xml context_xml].
  assert (E : forall a b,
             render_context (set_xml ctx old) {| xml := a; index := to_uint (strlen dtd) |}
             = render_context ctx {| xml := b; index := to_uint (strlen dtd) |}).
  { intros a b. destruct dtd_fits as [Hu Hfit].
    unfold render_context, assert_index, strcpy. cbn [index].
    rewrite Hu, Hfit. reflexivity. }
  rewrite (E old (context_xml ctx)).
  destruct (render_context ctx _) as [w|[]|t w]; reflexivity.
Qed.

End Documents.

(** C8. Whenever [generate_xml] returns, the text it returns, which is the
    text in [context->xml], is [document ctx]: the preamble [dtd], the
    opening tag of the context, then one element per device in the order of
    the device list, each made of its opening tag, one element per channel
    in list order (every channel element holding its attributes in list
    order), the device's own attributes in list order and the closing tag;
    the closing tag of the context ends the text. It does return, with that
    text, on every well-formed context whose document fits the buffer. For
    two devices [A] before [B] in the list, the element of [A] lies before
    the element of [B] in the document. *)
Theorem generate_xml_registration_order :
  forall (World iio_attr_type : Type) (ctx : context World iio_attr_type),
    (forall text ctx', generate_xml ctx = (Ok text, ctx') ->
       text = document ctx /\ context_xml ctx' = document ctx)
    /\ (context_ok ctx = true -> strlen (document ctx) < IIO_XML_SIZE ->
        generate_xml ctx = (Ok (document ctx), set_xml ctx (document ctx)))
    /\ (forall before A between B after,
          items (context_devices ctx)
          = (before ++ A :: between ++ B :: after)%list ->
          exists pre mid post,
            document ctx
            = pre ++ device_element A ++ mid ++ device_element B ++ post).
Proof.
  intros World iio_attr_type ctx. split; [|split].
  - intros text ctx' H. apply generate_xml_returns in H as [-> ->]. now split.
  - apply generate_xml_fits.
  - apply document_order.
Qed.

(** C9. Rendering depends on the registry, the name and the description
    only: whatever the [xml] array held before, [generate_xml] has the same
    outcome and leaves the same text; rendering a second time, on the
    context the first rendering left, gives the same outcome and text
    again. *)
Theorem generate_xml_idempotent :
  forall (World iio_attr_type : Type) (ctx : context World iio_attr_type),
    (forall old : string, generate_xml (set_xml ctx old) = generate_xml ctx)
    /\ generate_xml (snd (generate_xml ctx)) = generate_xml ctx.
Proof.
  intros World iio_attr_type ctx. split.
  - apply generate_xml_forgets.
  - assert (E : exists text, snd (generate_xml ctx) = set_xml ctx text).
    { unfold generate_xml.
      destruct (render_context ctx _) as [w|[]|t w]; cbn [snd]; eauto. }
    destruct E as [text ->]. apply generate_xml_forgets.
Qed.

(** C3, amended. On a well-formed context whose document, with its NUL,
    does not fit in [IIO_XML_SIZE] bytes, [generate_xml] reports no error:
    it does not return, because an [assert] fails before any [strcat]
    writes past the [xml] array. The array then holds [dtd] followed by
    the groups written so far, whatever it held before: a proper prefix of
    the document, not empty and shorter than [IIO_XML_SIZE]. *)
Theorem generate_xml_overflow_aborts :
  forall (World iio_attr_type : Type) (ctx : context World iio_attr_type),
    context_ok ctx = true ->
    IIO_XML_SIZE <= strlen (document ctx) ->
    (forall text ctx', generate_xml ctx <> (Ok text, ctx'))
    /\ exists written rest,
         generate_xml ctx = (Trap assert_failed, set_xml ctx (dtd ++ written))
         /\ (forall old : string,
               generate_xml (set_xml ctx old)
               = (Trap assert_failed, set_xml ctx (dtd ++ written)))
         /\ document ctx = (dtd ++ written) ++ rest
         /\ rest <> EmptyString
         /\ dtd ++ written <> EmptyString
         /\ strlen (dtd ++ written) < IIO_XML_SIZE.
Proof.
  intros World iio_attr_type ctx Hok Hbig.
  assert (Hstop : exists written rest,
             generate_xml ctx
             = (Trap assert_failed, set_xml ctx (dtd ++ written))
             /\ document ctx = (dtd ++ written) ++ rest
             /\ rest <> EmptyString
             /\ strlen (dtd ++ written) < IIO_XML_SIZE).
  { rewrite generate_xml_chunks by assumption.
    rewrite <- document_chunks in *.
    destruct dtd_fits as [_ Hfit]. apply Z.ltb_lt in Hfit.
    destruct (write_chunks_overflow _ _ Hfit Hbig) as (text' & E & Hlen).
    rewrite E. apply write_chunks_prefix in E as (done & rest & Ec & -> & _).
    exists (join done), (join rest).
    rewrite Ec, join_app, append_assoc in *. repeat split; [|exact Hlen].
    intros Hrest. rewrite Hrest, append_empty_r in Hbig. lia. }
  destruct Hstop as (written & rest & E & Hdoc & Hrest & Hlen).
  split; [intros text ctx' H; congruence|].
  exists written, rest. split; [exact E|]. split.
  - intros old. rewrite generate_xml_forgets. exact E.
  - split; [exact Hdoc|]. split; [exact Hrest|]. split; [|exact Hlen].
    intros H. assert (Hd : strlen dtd = 809) by reflexivity.
    apply (f_equal strlen) in H. rewrite strlen_append, Hd in H.
    pose proof (strlen_nonneg written). change (strlen EmptyString) with 0 in H.
    lia.
Qed.

Lemma generate_xml_registration_order_witness :
  generate_xml (snd Example.main)
  = (Ok (document (snd Example.main)),
     set_xml (snd Example.main) (document (snd Example.main)))
  /\ (exists adc dac pre mid post,
        items (context_devices Example.pair) = [adc; dac]
        /\ document Example.pair
           = pre ++ device_element adc ++ mid ++ device_element dac ++ post).
Proof.
  split.
  - apply (generate_xml_registration_order _ _ (snd Example.main)).
    + vm_compute. reflexivity.
    + apply Z.ltb_lt. vm_compute. reflexivity.
  - assert (H : exists adc dac,
               items (context_devices Example.pair) = ([] ++ adc :: [] ++ dac :: [])%list).
    { do 2 eexists. reflexivity. }
    destruct H as (adc & dac & H).
    destruct (generate_xml_registration_order _ _ Example.pair) as (_ & _ & Horder).
    destruct (Horder [] adc [] dac [] H) as (pre & mid & post & E).
    exists adc, dac, pre, mid, post. split; [exact H | exact E].
Defined.

Lemma generate_xml_overflow_aborts_witness :
  context_ok Example.crowded = true
  /\ IIO_XML_SIZE <= strlen (document Example.crowded)
  /\ exists written rest,
       generate_xml Example.crowded
       = (Trap assert_failed, set_xml Example.crowded (dtd ++ written))
       /\ document Example.crowded = (dtd ++ written) ++ rest
       /\ rest <> EmptyString
       /\ strlen (dtd ++ written) < IIO_XML_SIZE.
Proof.
  assert (Hok : context_ok Example.crowded = true) by (vm_compute; reflexivity).
  assert (Hbig : IIO_XML_SIZE <= strlen (document Example.crowded))
    by (apply Z.leb_le; vm_compute; reflexivity).
  destruct (generate_xml_overflow_aborts _ _ Example.crowded Hok Hbig)
    as (_ & written & rest & E & _ & Hdoc & Hrest & _ & Hlen).
  split; [exact Hok |]. split; [exact Hbig |].
  exists written, rest. split; [exact E|]. split; [exact Hdoc|].
  split; [exact Hrest | exact Hlen].
Defined.

(** C3, as stated, fails on a device with a hundred attributes: the
    rendering stops at an [assert] and the array then holds 3062
    characters of the new document, neither the earlier text nor the empty
    string. *)
Lemma generate_xml_overflow_leaves_partial_text :
  IIO_XML_SIZE <= strlen (document Example.crowded)
  /\ fst (generate_xml Example.crowded) = Trap assert_failed
  /\ context_xml (snd (generate_xml Example.crowded))
     <> context_xml Example.crowded
  /\ context_xml (snd (generate_xml Example.crowded)) <> EmptyString
  /\ strlen (context_xml (snd (generate_xml Example.crowded))) = 3062.
Proof.
  assert (Hlen : strlen (context_xml (snd (generate_xml Example.crowded))) = 3062)
    by (vm_compute; reflexivity).
  split; [apply Z.leb_le; vm_compute; reflexivity |].
  split; [vm_compute; reflexivity |].
  split; [|split; [|exact Hlen]]; intros E; rewrite E in Hlen; discriminate Hlen.
Qed.

(** ** Claims about the dispatcher *)

Lemma main_installed : installed (snd Example.main).
Proof.
  exists Example.zeroed, "tiny", "Tiny IIOD", (Example.dev_list Example.adc),
    (Some Example.transport), (Some Example.transport).
  reflexivity.
Qed.

Lemma lenient_installed : installed (snd Example.lenient).
Proof.
  exists Example.zeroed, "tiny", "Tiny IIOD",
    (Example.dev_list
       (Example.new_device "adc" 0 Example.adc_attrs Example.adc_channels
          Example.any_direction_chn_accessors)),
    (Some Example.transport), (Some Example.transport).
  reflexivity.
Qed.

Lemma no_device_with_id {World iio_attr_type : Type}
    (l : list (device World iio_attr_type)) (device : string) :
  forallb (fun dev => negb (device_matches dev device)) l = true ->
  forall dev, In dev l -> device_id dev <> to_uint (atoi device).
Proof.
  intros H dev Hin E. rewrite forallb_forall in H. apply H in Hin.
  unfold device_matches in Hin. now rewrite E, Z.eqb_refl in Hin.
Qed.

Lemma not_among (names : list string) (name : string) :
  forallb (fun n => negb (String.eqb n name)) names = true -> ~ In name names.
Proof.
  intros H Hin. rewrite forallb_forall in H. apply H in Hin.
  now rewrite String.eqb_refl in Hin.
Qed.

(** C5. On a context that [iio_init] has installed, [read_attr] returns
    [-ENOENT], without calling an accessor, when the id parsed from the
    request is the id of no registered device, and when the device with
    that id has no attribute of the requested name. ([-ENOENT] is the code
    of the source for both cases.) *)
Theorem read_attr_not_found :
  forall (World iio_attr_type : Type) (ctx : context World iio_attr_type)
         (device attr : string) (buf : pointer) (len : size_t)
         (type : iio_attr_type),
    installed ctx ->
    ((forall dev, In dev (items (context_devices ctx)) ->
                  device_id dev <> to_uint (atoi device)) ->
     read_attr ctx device attr buf len type = Return (Value (- ENOENT)))
    /\ (forall dev,
          find_device ctx device = Some dev ->
          ~ In attr (map attribute_name (items (device_attrs dev))) ->
          read_attr ctx device attr buf len type = Return (Value (- ENOENT))).
Proof.
  intros World iio_attr_type ctx device attr buf len type Hi.
  apply installed_ok in Hi. split.
  - intros Hno. rewrite read_attr_spec by assumption.
    now rewrite find_device_none.
  - intros dev Hdev Hattr. rewrite read_attr_spec by assumption.
    now rewrite Hdev, find_attribute_none.
Qed.

Lemma read_attr_not_found_witness :
  installed (snd Example.main)
  /\ read_attr (snd Example.main) "5" "sample_rate" 0 16
       Example.IIO_ATTR_TYPE_DEVICE
     = Return (Value (- ENOENT))
  /\ read_attr (snd Example.main) "0" "x" 0 16 Example.IIO_ATTR_TYPE_DEVICE
     = Return (Value (- ENOENT)).
Proof.
  split; [exact main_installed |]. split.
  - apply (read_attr_not_found _ _ (snd Example.main) "5" "sample_rate" 0 16
             Example.IIO_ATTR_TYPE_DEVICE main_installed).
    apply no_device_with_id. vm_compute. reflexivity.
  - destruct (read_attr_not_found _ _ (snd Example.main) "0" "x" 0 16
                Example.IIO_ATTR_TYPE_DEVICE main_installed) as [_ H].
    eapply H; [reflexivity |].
    apply not_among. vm_compute. reflexivity.
Defined.

Lemma atoi_no_number (c : ascii) (s : string) :
  isspace c = false -> digit_of c = None -> c <> "-"%char -> c <> "+"%char ->
  atoi (String c s) = 0.
Proof.
  intros Hs Hd Hm Hp.
  destruct c as [[] [] [] [] [] [] [] []];
    try discriminate Hs; try discriminate Hd;
    try (exfalso; apply Hm; reflexivity); try (exfalso; apply Hp; reflexivity);
    reflexivity.
Qed.

(** C6, amended. The device identifier is read by [atoi]. When the number
    [atoi] yields is the id of no registered device, each of the six entry
    points returns [-ENOENT] without calling an accessor. When it is the
    id of a registered device, each of the six resolves the request
    against the first such device: [read_data] and [write_data] answer
    from its accessor slot, and on a well-formed registry [read_attr],
    [write_attr], [ch_read_attr] and [ch_write_attr] look the attribute
    or the channel up in the lists of that device and of no other. An
    identifier that starts with no blank, sign or digit is read as 0: it
    is refused when no device has id 0 and resolved against the device
    with id 0 otherwise. *)
Theorem dispatch_device_id_by_atoi :
  forall (World iio_attr_type : Type) (ctx : context World iio_attr_type)
         (device : string),
    context_devices ctx <> NULL ->
    ((forall dev, In dev (items (context_devices ctx)) ->
                  device_id dev <> to_uint (atoi device)) ->
     (forall attr buf len type,
         read_attr ctx device attr buf len type = Return (Value (- ENOENT))
         /\ write_attr ctx device attr buf len type = Return (Value (- ENOENT)))
     /\ (forall channel ch_out attr buf len,
           ch_read_attr ctx device channel ch_out attr buf len
           = Return (Value (- ENOENT))
           /\ ch_write_attr ctx device channel ch_out attr buf len
              = Return (Value (- ENOENT)))
     /\ (forall buf offset bytes_count,
           read_data ctx device buf offset bytes_count
           = Return (Value (- ENOENT))
           /\ write_data ctx device buf offset bytes_count
              = Return (Value (- ENOENT))))
    /\ (forall dev,
          find_device ctx device = Some dev ->
          device_id dev = to_uint (atoi device)
          /\ (forall buf offset bytes_count,
                read_data ctx device buf offset bytes_count
                = Return (slot_answer (chn_read_data (device_chn_accessors dev))
                            (fun f => f (device_data dev) buf offset bytes_count))
                /\ write_data ctx device buf offset bytes_count
                   = Return (slot_answer (chn_write_data (device_chn_accessors dev))
                               (fun f => f (device_data dev) buf offset bytes_count)))
          /\ (context_ok ctx = true ->
              (forall attr buf len type,
                  read_attr ctx device attr buf len type
                  = Return
                      match find_attribute (device_attrs dev) attr with
                      | None => Value (- ENOENT)
                      | Some _ =>
                          slot_answer (attr_read_attr (device_attr_accessors dev))
                            (fun f => f (device_data dev) attr buf len type)
                      end
                  /\ write_attr ctx device attr buf len type
                     = Return
                         match find_attribute (device_attrs dev) attr with
                         | None => Value (- ENOENT)
                         | Some _ =>
                             slot_answer (attr_write_attr (device_attr_accessors dev))
                               (fun f => f (device_data dev) attr buf len type)
                         end)
              /\ (forall channel ch_out attr buf len,
                    ch_read_attr ctx device channel ch_out attr buf len
                    = Return
                        match find_channel (device_channels dev) channel with
                        | None => Value (- ENOENT)
                        | Some chn =>
                            match find_attribute (channel_attrs chn) attr with
                            | None => Value (- ENOENT)
                            | Some _ =>
                                slot_answer (chn_read_attr (device_chn_accessors dev))
                                  (fun f => f (device_data dev) channel ch_out attr
                                              buf (to_ssize len))
                            end
                        end
                    /\ ch_write_attr ctx device channel ch_out attr buf len
                       = Return
                           match find_channel (device_channels dev) channel with
                           | None => Value (- ENOENT)
                           | Some chn =>
                               match find_attribute (channel_attrs chn) attr with
                               | None => Value (- ENOENT)
                               | Some _ =>
                                   slot_answer
                                     (chn_write_attr (device_chn_accessors dev))
                                     (fun f => f (device_data dev) channel ch_out
                                                 attr buf (to_ssize len))
                               end
                           end)))
    /\ (forall (c : ascii) (rest : string),
          device = String c rest ->
          isspace c = false -> digit_of c = None ->
          c <> "-"%char -> c <> "+"%char ->
          atoi device = 0).
Proof.
  intros World iio_attr_type ctx device Hl. split; [|split].
  - intros Hno. destruct (context_devices ctx) as [|l] eqn:El; [contradiction|].
    cbn [items] in Hno. split; [|split].
    + intros. unfold read_attr, write_attr. rewrite El.
      split; now apply device_loop_none.
    + intros. unfold ch_read_attr, ch_write_attr. rewrite El.
      split; now apply device_loop_none.
    + intros. unfold read_data, write_data. rewrite El.
      split; now apply device_loop_none.
  - intros dev Hdev. split; [|split].
    + apply find_some in Hdev as [_ Hm]. unfold device_matches in Hm.
      apply Z.eqb_eq in Hm. now symmetry.
    + intros. rewrite read_data_spec, write_data_spec by assumption.
      now rewrite Hdev.
    + intros Hok. split.
      * intros. rewrite read_attr_spec, write_attr_spec by assumption.
        now rewrite Hdev.
      * intros. rewrite ch_read_attr_spec, ch_write_attr_spec by assumption.
        now rewrite Hdev.
  - intros c rest -> Hs Hd Hm Hp. now apply atoi_no_number.
Qed.

Lemma dac_only_installed : installed (snd Example.dac_only).
Proof.
  exists Example.zeroed, "tiny", "Tiny IIOD", (Example.dev_list Example.dac),
    (Some Example.transport), (Some Example.transport).
  reflexivity.
Qed.

Lemma dispatch_device_id_by_atoi_witness :
  context_devices (snd Example.dac_only) <> NULL
  /\ read_data (snd Example.dac_only) "abc" 0 0 16 = Return (Value (- ENOENT))
  /\ read_attr (snd Example.dac_only) "7" "powerdown" 0 16
       Example.IIO_ATTR_TYPE_DEVICE
     = Return (Value (- ENOENT))
  /\ read_data (snd Example.dac_only) "1" 0 0 16 = Return (Value (- ENOSYS))
  /\ read_attr (snd Example.dac_only) "1" "powerdown" 0 16
       Example.IIO_ATTR_TYPE_DEVICE
     = Return (Accessor (Example.read_dev_attr 0 "powerdown" 0 16
                           Example.IIO_ATTR_TYPE_DEVICE))
  /\ write_attr (snd Example.dac_only) "1" "powerdown" 0 16
       Example.IIO_ATTR_TYPE_DEVICE
     = Return (Value (- ENOSYS))
  /\ ch_read_attr (snd Example.dac_only) "1" "voltage0" true "raw" 0 16
     = Return (Accessor (Example.read_ch_attr 0 "voltage0" true "raw" 0 16))
  /\ ch_write_attr (snd Example.dac_only) "1" "voltage0" true "raw" 0 16
     = Return (Value (- ENOSYS))
  /\ atoi "abc" = 0.
Proof.
  assert (Hl : context_devices (snd Example.dac_only) <> NULL)
    by exact (installed_devices _ _ _ dac_only_installed).
  assert (Hok : context_ok (snd Example.dac_only) = true)
    by exact (installed_ok _ _ _ dac_only_installed).
  split; [exact Hl |].
  destruct (dispatch_device_id_by_atoi _ _ (snd Example.dac_only) "abc" Hl)
    as (Habc & _ & Hzero).
  destruct (dispatch_device_id_by_atoi _ _ (snd Example.dac_only) "7" Hl)
    as (Hseven & _ & _).
  destruct (dispatch_device_id_by_atoi _ _ (snd Example.dac_only) "1" Hl)
    as (_ & Hone & _).
  assert (H : exists dev chn a b,
             find_device (snd Example.dac_only) "1" = Some dev
             /\ chn_read_data (device_chn_accessors dev) = None
             /\ find_attribute (device_attrs dev) "powerdown" = Some a
             /\ attr_read_attr (device_attr_accessors dev)
                = Some Example.read_dev_attr
             /\ attr_write_attr (device_attr_accessors dev) = None
             /\ find_channel (device_channels dev) "voltage0" = Some chn
             /\ find_attribute (channel_attrs chn) "raw" = Some b
             /\ chn_read_attr (device_chn_accessors dev)
                = Some Example.read_ch_attr
             /\ chn_write_attr (device_chn_accessors dev) = None
             /\ device_data dev = 0).
  { do 4 eexists. split; [reflexivity|]. split; [reflexivity|].
    split; [reflexivity|]. split; [reflexivity|]. split; [reflexivity|].
    split; [reflexivity|]. split; [reflexivity|]. split; [reflexivity|].
    split; reflexivity. }
  destruct H as (dev & chn & a & b & Hdev & Hslot & Ha & Hr & Hw & Hchn & Hb
                 & Hcr & Hcw & Hdata).
  destruct (Hone dev Hdev) as (_ & Hdat & Hres).
  destruct (Hres Hok) as [Hattr Hch].
  destruct (Hattr "powerdown" 0 16 Example.IIO_ATTR_TYPE_DEVICE) as [Hra Hwa].
  destruct (Hch "voltage0" true "raw" 0 16) as [Hrc Hwc].
  rewrite Ha, Hr, Hdata in Hra. rewrite Ha, Hw in Hwa.
  rewrite Hchn, Hb, Hcr, Hdata in Hrc. rewrite Hchn, Hb, Hcw in Hwc.
  split; [|split; [|split; [|split; [|split; [|split; [|split]]]]]].
  - apply Habc. apply no_device_with_id. vm_compute. reflexivity.
  - apply Hseven. apply no_device_with_id. vm_compute. reflexivity.
  - destruct (Hdat 0 0 16) as [Hread _]. rewrite Hslot in Hread. exact Hread.
  - exact Hra.
  - exact Hwa.
  - exact Hrc.
  - exact Hwc.
  - eapply Hzero; [reflexivity | reflexivity | reflexivity | |]; discriminate.
Defined.


(** C6, as stated, fails: the identifier [abc] is resolved against the
    device with id 0, whose accessor [read_attr] calls. *)
Lemma malformed_device_id_resolves_to_device_0 :
  atoi "abc" = 0
  /\ (exists k,
        read_attr (snd Example.main) "abc" "sample_rate" 0 16
          Example.IIO_ATTR_TYPE_DEVICE
        = Return (Accessor k)
        /\ k EmptyString = (4, "1000"))
  /\ read_data (snd Example.main) "abc" 0 0 16 = Return (Value (- ENOSYS))
  /\ read_attr (snd Example.main) "abc" "sample_rate" 0 16
       Example.IIO_ATTR_TYPE_DEVICE
     <> Return (Value (- ENOENT))
  /\ read_data (snd Example.main) "abc" 0 0 16 <> Return (Value (- ENOENT)).
Proof.
  assert (Hattr : exists k,
             read_attr (snd Example.main) "abc" "sample_rate" 0 16
               Example.IIO_ATTR_TYPE_DEVICE
             = Return (Accessor k)
             /\ k EmptyString = (4, "1000"))
    by (eexists; split; reflexivity).
  assert (Hdata : read_data (snd Example.main) "abc" 0 0 16
                  = Return (Value (- ENOSYS))) by reflexivity.
  split; [reflexivity |]. split; [exact Hattr |]. split; [exact Hdata |]. split.
  - destruct Hattr as (k & -> & _). discriminate.
  - rewrite Hdata. discriminate.
Qed.

(** C7. On an installed context, once the device is found (and, for the
    attribute entry points, the attribute in its list; for the channel
    entry points, the channel by its id and the attribute in the channel's
    list), each entry point answers [slot_answer slot call]: [-ENOSYS]
    without any call if the slot of the accessor table is NULL; otherwise
    the call of the accessor in the slot with the device's [data] and the
    arguments of the request, whose result the caller receives as it
    is. *)
Theorem dispatch_resolved :
  forall (World iio_attr_type : Type) (ctx : context World iio_attr_type)
         (dev : device World iio_attr_type) (device : string),
    installed ctx ->
    find_device ctx device = Some dev ->
    (forall buf offset bytes_count,
        read_data ctx device buf offset bytes_count
        = Return (slot_answer (chn_read_data (device_chn_accessors dev))
                    (fun f => f (device_data dev) buf offset bytes_count))
        /\ write_data ctx device buf offset bytes_count
           = Return (slot_answer (chn_write_data (device_chn_accessors dev))
                       (fun f => f (device_data dev) buf offset bytes_count)))
    /\ (forall attr a buf len type,
          find_attribute (device_attrs dev) attr = Some a ->
          read_attr ctx device attr buf len type
          = Return (slot_answer (attr_read_attr (device_attr_accessors dev))
                      (fun f => f (device_data dev) attr buf len type))
          /\ write_attr ctx device attr buf len type
             = Return (slot_answer (attr_write_attr (device_attr_accessors dev))
                         (fun f => f (device_data dev) attr buf len type)))
    /\ (forall channel chn ch_out attr a buf len,
          find_channel (device_channels dev) channel = Some chn ->
          find_attribute (channel_attrs chn) attr = Some a ->
          ch_read_attr ctx device channel ch_out attr buf len
          = Return (slot_answer (chn_read_attr (device_chn_accessors dev))
                      (fun f => f (device_data dev) channel ch_out attr buf
                                  (to_ssize len)))
          /\ ch_write_attr ctx device channel ch_out attr buf len
             = Return (slot_answer (chn_write_attr (device_chn_accessors dev))
                         (fun f => f (device_data dev) channel ch_out attr buf
                                     (to_ssize len))))
    /\ (forall (F : Type) (apply : F -> call World) (w : World),
          perform (slot_answer None apply) w = (- ENOSYS, w)
          /\ forall f : F, perform (slot_answer (Some f) apply) w = apply f w).
Proof.
  intros World iio_attr_type ctx dev device Hi Hdev.
  assert (Hl := installed_devices _ _ _ Hi). apply installed_ok in Hi.
  split; [|split; [|split]].
  - intros. rewrite read_data_spec, write_data_spec by assumption.
    now rewrite Hdev.
  - intros attr a buf len type Ha.
    rewrite read_attr_spec, write_attr_spec by assumption.
    now rewrite Hdev, Ha.
  - intros channel chn ch_out attr a buf len Hc Ha.
    rewrite ch_read_attr_spec, ch_write_attr_spec by assumption.
    now rewrite Hdev, Hc, Ha.
  - intros. split; reflexivity.
Qed.

Lemma dispatch_resolved_witness :
  installed (snd Example.main)
  /\ (exists k,
        read_attr (snd Example.main) "0" "sample_rate" 0 16
          Example.IIO_ATTR_TYPE_DEVICE
        = Return (Accessor k)
        /\ perform (Accessor k) EmptyString = (4, "1000"))
  /\ write_attr (snd Example.main) "0" "sample_rate" 0 16
       Example.IIO_ATTR_TYPE_DEVICE
     = Return (Value (- ENOSYS)).
Proof.
  split; [exact main_installed |].
  assert (Hdev : exists dev, find_device (snd Example.main) "0" = Some dev
                             /\ exists a, find_attribute (device_attrs dev) "sample_rate" = Some a
                             /\ exists f, attr_read_attr (device_attr_accessors dev) = Some f
                               /\ f (device_data dev) "sample_rate" 0 16 Example.IIO_ATTR_TYPE_DEVICE EmptyString = (4, "1000")
                             /\ attr_write_attr (device_attr_accessors dev) = None).
  { eexists. split; [reflexivity |]. eexists. split; [reflexivity |].
    eexists. split; [reflexivity |]. split; reflexivity. }
  destruct Hdev as (dev & Hdev & a & Ha & f & Hf & Hres & Hw).
  destruct (dispatch_resolved _ _ (snd Example.main) dev "0" main_installed Hdev)
    as (_ & Hattr & _ & _).
  destruct (Hattr "sample_rate" a 0 16 Example.IIO_ATTR_TYPE_DEVICE Ha) as [Hr Hwr].
  rewrite Hf in Hr. rewrite Hw in Hwr. cbn [slot_answer] in Hr, Hwr.
  split; [|exact Hwr].
  eexists. split; [exact Hr | exact Hres].
Defined.

Lemma accessor_is_not_value {World : Type} (r : flow (answer World) unit)
    (k : call World) (z : ssize_t) :
  r = Return (Accessor k) -> r <> Return (Value z).
Proof. intros ->. discriminate. Qed.

(** C2, amended. When the first channel of a device that has the
    requested id is registered with type [input] and carries the requested
    attribute, a [ch_read_attr] or [ch_write_attr] request with
    [ch_out = true] is resolved by the channel id alone, the type not
    being looked at: it returns [-ENOSYS] if the accessor slot is NULL and
    otherwise calls the accessor, handing it [ch_out = true], and passes
    its result on. *)
Theorem ch_attr_output_request_on_input_channel :
  forall (World iio_attr_type : Type) (ctx : context World iio_attr_type)
         (dev : device World iio_attr_type) (chn : channel) (a : attribute)
         (device channel attr : string) (buf : pointer) (len : size_t),
    installed ctx ->
    find_device ctx device = Some dev ->
    find_channel (device_channels dev) channel = Some chn ->
    channel_type chn = "input" ->
    find_attribute (channel_attrs chn) attr = Some a ->
    ch_read_attr ctx device channel true attr buf len
    = Return
        match chn_read_attr (device_chn_accessors dev) with
        | None => Value (- ENOSYS)
        | Some f =>
            Accessor (f (device_data dev) channel true attr buf (to_ssize len))
        end
    /\ ch_write_attr ctx device channel true attr buf len
       = Return
           match chn_write_attr (device_chn_accessors dev) with
           | None => Value (- ENOSYS)
           | Some f =>
               Accessor (f (device_data dev) channel true attr buf (to_ssize len))
           end.
Proof.
  intros World iio_attr_type ctx dev chn a device channel attr buf len
    Hi Hdev Hchn _ Ha.
  apply installed_ok in Hi.
  rewrite ch_read_attr_spec, ch_write_attr_spec by assumption.
  now rewrite Hdev, Hchn, Ha.
Qed.

Lemma ch_attr_output_request_on_input_channel_witness :
  installed (snd Example.lenient)
  /\ (exists k,
        ch_read_attr (snd Example.lenient) "0" "voltage0" true "scale" 0 16
        = Return (Accessor k)
        /\ k EmptyString = (3, "0.5"))
  /\ (exists k,
        ch_write_attr (snd Example.lenient) "0" "voltage0" true "scale" 0 16
        = Return (Accessor k)
        /\ k EmptyString = (16, EmptyString)).
Proof.
  split; [exact lenient_installed |].
  assert (H : exists dev chn a,
             find_device (snd Example.lenient) "0" = Some dev
             /\ find_channel (device_channels dev) "voltage0" = Some chn
             /\ channel_type chn = "input"
             /\ find_attribute (channel_attrs chn) "scale" = Some a
             /\ (exists f, chn_read_attr (device_chn_accessors dev) = Some f
                   /\ f (device_data dev) "voltage0" true "scale" 0 (to_ssize 16)
                        EmptyString = (3, "0.5"))
             /\ (exists f, chn_write_attr (device_chn_accessors dev) = Some f
                   /\ f (device_data dev) "voltage0" true "scale" 0 (to_ssize 16)
                        EmptyString = (16, EmptyString))).
  { do 3 eexists. repeat (split; [reflexivity |]).
    split; eexists; split; reflexivity. }
  destruct H as (dev & chn & a & Hdev & Hchn & Htype & Ha
                 & (fr & Hfr & Hr) & (fw & Hfw & Hw)).
  destruct (ch_attr_output_request_on_input_channel _ _ (snd Example.lenient)
              dev chn a "0" "voltage0" "scale" 0 16
              lenient_installed Hdev Hchn Htype Ha) as [Hread Hwrite].
  rewrite Hfr in Hread. rewrite Hfw in Hwrite.
  split; eexists; split; eassumption.
Defined.

(** C2, as stated, fails: on the input channel [voltage0] a read request
    with [ch_out = true] calls the accessor and returns its 3 bytes. *)
Lemma ch_read_attr_serves_output_request_on_input_channel :
  exists dev chn a k,
    installed (snd Example.lenient)
    /\ find_device (snd Example.lenient) "0" = Some dev
    /\ find_channel (device_channels dev) "voltage0" = Some chn
    /\ channel_type chn = "input"
    /\ find_attribute (channel_attrs chn) "scale" = Some a
    /\ ch_read_attr (snd Example.lenient) "0" "voltage0" true "scale" 0 16
       = Return (Accessor k)
    /\ k EmptyString = (3, "0.5")
    /\ ch_read_attr (snd Example.lenient) "0" "voltage0" true "scale" 0 16
       <> Return (Value (- ENOENT)).
Proof.
  do 4 eexists. split; [exact lenient_installed |].
  do 4 (split; [reflexivity |]).
  split; [reflexivity |]. split; [reflexivity |].
  eapply accessor_is_not_value. reflexivity.
Qed.

(** ** Attribute names and the size of their array *)

Lemma find_attribute_in (l : attribute_list) (a : attribute) :
  In a (items l) -> exists b, find_attribute l (attribute_name a) = Some b.
Proof.
  intros Hin. unfold find_attribute.
  destruct (find _ (items l)) as [b|] eqn:E; [eauto |].
  apply (find_none _ _ E) in Hin. now rewrite strcmp_refl in Hin.
Qed.




(** [scale] then [raw], as example2.c registers them on a channel. *)
Lemma iio_register_attribute_sequence_witness :
  let scale := iio_new_static_attribute "scale" in
  let raw := iio_new_static_attribute "raw" in
  iio_register_attribute true raw (snd (register_attributes [scale] NULL))
  = (Ok 2, nodes [scale; raw])
  /\ iio_register_attribute true scale (nodes [scale; raw])
     = (Ok (- EINVAL), nodes [scale; raw]).
Proof.
  cbv zeta.
  assert (Hnd : NoDup (map attribute_name
                         ([iio_new_static_attribute "scale"]
                            ++ iio_new_static_attribute "raw" :: []))).
  { cbn. constructor; [intros [E | []]; discriminate E |].
    constructor; [intros [] | constructor]. }
  destruct (iio_register_attribute_sequence
              [iio_new_static_attribute "scale"] []
              (iio_new_static_attribute "raw") NULL
              eq_refl eq_refl Hnd) as (Hreg & _ & Hdup).
  split; [exact Hreg |].
  apply Hdup. now left.
Defined.

(** * Further properties of the registry, the renderer and the dispatcher *)

(** ** Decimal numerals: what [sprintf] prints, [atoi] reads back *)

Lemma digits_string_of_uint (d : Decimal.uint) : forall acc,
  digits acc (NilEmpty.string_of_uint d) = decimal_value acc d.
Proof.
  induction d; intro acc; cbn [NilEmpty.string_of_uint decimal_value digits];
    try reflexivity;
    match goal with
    | |- context [digit_of ?c] =>
        let v := eval vm_compute in (digit_of c) in
        change (digit_of c) with v; cbv iota
    end; rewrite IHd; f_equal; lia.
Qed.

Lemma decimal_value_of_uint_acc (d : Decimal.uint) : forall acc : positive,
  decimal_value (Z.pos acc) d = Z.pos (Pos.of_uint_acc d acc).
Proof.
  induction d; intro acc; cbn [decimal_value Pos.of_uint_acc]; try reflexivity;
    rewrite <- IHd; f_equal; lia.
Qed.

Lemma decimal_value_of_uint (d : Decimal.uint) :
  decimal_value 0 d = Z.of_N (Pos.of_uint d).
Proof.
  induction d; cbn [decimal_value Pos.of_uint]; try reflexivity;
    try (change (10 * 0) with 0; exact IHd);
    match goal with
    | |- decimal_value ?a _ = _ =>
        let v := eval vm_compute in a in change a with v
    end; rewrite decimal_value_of_uint_acc; reflexivity.
Qed.

Lemma decimal_value_to_uint (p : positive) :
  decimal_value 0 (Pos.to_uint p) = Z.pos p.
Proof.
  rewrite decimal_value_of_uint, DecimalPos.Unsigned.of_to. reflexivity.
Qed.

Lemma length_string_of_uint (d : Decimal.uint) :
  String.length (NilEmpty.string_of_uint d) = Decimal.nb_digits d.
Proof.
  induction d; cbn [NilEmpty.string_of_uint String.length Decimal.nb_digits];
    congruence.
Qed.

Lemma decimal_value_bound (d : Decimal.uint) : forall acc,
  0 <= acc ->
  decimal_value acc d < (acc + 1) * 10 ^ Z.of_nat (Decimal.nb_digits d).
Proof.
  induction d; intros acc Hacc; cbn [decimal_value Decimal.nb_digits];
    try (change (10 ^ Z.of_nat 0) with 1; lia);
    rewrite Nat2Z.inj_succ, Z.pow_succ_r by lia;
    match goal with
    | |- decimal_value ?a _ < _ =>
        assert (Ha : 0 <= a) by lia; specialize (IHd a Ha);
        assert (Hp : 0 < 10 ^ Z.of_nat (Decimal.nb_digits d))
          by (apply Z.pow_pos_nonneg; lia);
        nia
    end.
Qed.

Lemma strtol_string_of_uint (d : Decimal.uint) :
  d <> Decimal.Nil ->
  strtol (NilEmpty.string_of_uint d)
  = Z.max (- 2 ^ 63) (Z.min (2 ^ 63 - 1) (decimal_value 0 d)).
Proof.
  intro Hd. rewrite <- digits_string_of_uint.
  destruct d; [congruence | ..]; reflexivity.
Qed.

Lemma strtol_minus_string_of_uint (d : Decimal.uint) :
  strtol (String "-" (NilEmpty.string_of_uint d))
  = Z.max (- 2 ^ 63) (Z.min (2 ^ 63 - 1) (- decimal_value 0 d)).
Proof. rewrite <- digits_string_of_uint. reflexivity. Qed.

Lemma decimal_pos (p : positive) :
  decimal (Z.pos p) = NilEmpty.string_of_uint (Pos.to_uint p).
Proof.
  unfold decimal. cbn [Z.to_int NilZero.string_of_int].
  unfold NilZero.string_of_uint.
  pose proof (DecimalPos.Unsigned.to_uint_nonnil p) as H.
  destruct (Pos.to_uint p); [congruence | ..]; reflexivity.
Qed.

Lemma decimal_neg (p : positive) :
  decimal (Z.neg p) = String "-" (NilEmpty.string_of_uint (Pos.to_uint p)).
Proof.
  unfold decimal. cbn [Z.to_int NilZero.string_of_int].
  unfold NilZero.string_of_uint.
  pose proof (DecimalPos.Unsigned.to_uint_nonnil p) as H.
  destruct (Pos.to_uint p); [congruence | ..]; reflexivity.
Qed.

Lemma strtol_decimal (n : Z) :
  - 2 ^ 63 <= n <= 2 ^ 63 - 1 -> strtol (decimal n) = n.
Proof.
  intro H. destruct n as [| p | p].
  - reflexivity.
  - rewrite decimal_pos, strtol_string_of_uint
      by apply DecimalPos.Unsigned.to_uint_nonnil.
    rewrite decimal_value_to_uint. lia.
  - rewrite decimal_neg, strtol_minus_string_of_uint, decimal_value_to_uint. lia.
Qed.

Lemma to_int_small (n : Z) : - 2 ^ 31 <= n < 2 ^ 31 -> to_int n = n.
Proof.
  intro H. unfold to_int, UINT_MOD.
  destruct (Z.ltb_spec (n mod 2 ^ 32) (2 ^ 31)) as [L | L].
  - destruct (Z_lt_le_dec n 0) as [N | N].
    + assert (n mod 2 ^ 32 = n + 2 ^ 32).
      { symmetry. apply Z.mod_unique with (q := -1); lia. }
      lia.
    + apply Z.mod_small. lia.
  - destruct (Z_lt_le_dec n 0) as [N | N].
    + assert (n mod 2 ^ 32 = n + 2 ^ 32).
      { symmetry. apply Z.mod_unique with (q := -1); lia. }
      lia.
    + rewrite Z.mod_small in L by lia. lia.
Qed.

Lemma to_int_range (z : Z) : - 2 ^ 31 <= to_int z < 2 ^ 31.
Proof.
  unfold to_int, UINT_MOD.
  pose proof (Z.mod_pos_bound z (2 ^ 32) ltac:(lia)).
  destruct (Z.ltb_spec (z mod 2 ^ 32) (2 ^ 31)); lia.
Qed.

Lemma to_uint_to_int (z : Z) : to_uint (to_int z) = to_uint z.
Proof.
  unfold to_int, to_uint, UINT_MOD.
  destruct (Z.ltb_spec (z mod 2 ^ 32) (2 ^ 31)).
  - apply Z.mod_mod. lia.
  - replace (z mod 2 ^ 32 - 2 ^ 32) with (z mod 2 ^ 32 + (-1) * 2 ^ 32) by lia.
    rewrite Z.mod_add by lia. apply Z.mod_mod. lia.
Qed.

Lemma atoi_decimal (n : Z) : - 2 ^ 31 <= n < 2 ^ 31 -> atoi (decimal n) = n.
Proof.
  intro H. unfold atoi. rewrite strtol_decimal by lia. apply to_int_small, H.
Qed.

Lemma is_string_decimal_range (n : Z) :
  is_string 4 (decimal n) = true -> - 99 <= n <= 999.
Proof.
  unfold is_string. intro H. apply Nat.ltb_lt in H.
  destruct n as [| p | p]; [lia | ..].
  - rewrite decimal_pos, length_string_of_uint in H.
    pose proof (decimal_value_bound (Pos.to_uint p) 0 ltac:(lia)) as B.
    rewrite decimal_value_to_uint in B.
    assert (10 ^ Z.of_nat (Decimal.nb_digits (Pos.to_uint p)) <= 10 ^ 3)
      by (apply Z.pow_le_mono_r; lia).
    lia.
  - rewrite decimal_neg in H. cbn [String.length] in H.
    rewrite length_string_of_uint in H.
    pose proof (decimal_value_bound (Pos.to_uint p) 0 ltac:(lia)) as B.
    rewrite decimal_value_to_uint in B.
    assert (10 ^ Z.of_nat (Decimal.nb_digits (Pos.to_uint p)) <= 10 ^ 2)
      by (apply Z.pow_le_mono_r; lia).
    lia.
Qed.

Lemma range_is_string_decimal (n : Z) :
  - 99 <= n <= 999 -> is_string 4 (decimal n) = true.
Proof.
  intro H.
  assert (A : forallb (fun i => is_string 4 (decimal (Z.of_nat i - 99)))
                (List.seq 0%nat 1099) = true) by (vm_compute; reflexivity).
  rewrite forallb_forall in A.
  specialize (A (Z.to_nat (n + 99))).
  replace (Z.of_nat (Z.to_nat (n + 99)) - 99) with n in A by lia.
  apply A, in_seq. lia.
Qed.

(** ** Registration of names that are strings *)

Lemma strcmp_true (a b : string) : (strcmp a b =? 0) = true -> a = b.
Proof. rewrite strcmp_eqb. apply String.eqb_eq. Qed.

Lemma channel_scan_fresh (l : list channel) (channel : channel) :
  channel_strings_ok channel = true ->
  forallb channel_strings_ok l = true ->
  ~ In (channel_key channel) (map channel_key l) ->
  forall retval,
    for_each_items (fun chn => channel_body chn channel) l retval
    = Next (retval + Z.of_nat (List.length l)).
Proof.
  intros Hchn. apply andb_prop in Hchn as [Hid Hty].
  induction l as [|b l IH]; intros Hok Hfresh retval.
  - cbn. f_equal. lia.
  - cbn [forallb] in Hok. apply andb_prop in Hok as [Hb Hl].
    apply andb_prop in Hb as [Hbid Hbty].
    cbn [for_each_items]. unfold channel_body at 1.
    rewrite !with_string_ok by assumption.
    assert (Next (R := Z) (retval + 1) ;; for_each_items (fun chn => channel_body chn channel) l
            = Next (retval + Z.of_nat (List.length (b :: l)))) as Hstep.
    { cbn [seq]. rewrite IH; [f_equal; cbn [List.length]; lia | assumption |].
      intros Hin. apply Hfresh. now right. }
    destruct (strcmp (channel_type b) (channel_type channel) =? 0) eqn:Et;
      [|exact Hstep].
    destruct (strcmp (channel_id b) (channel_id channel) =? 0) eqn:Ei;
      [|exact Hstep].
    exfalso. apply Hfresh. left. unfold channel_key.
    apply strcmp_true in Et. apply strcmp_true in Ei. congruence.
Qed.

Lemma channel_scan_duplicate (l : list channel) (channel : channel) :
  channel_strings_ok channel = true ->
  forallb channel_strings_ok l = true ->
  In (channel_key channel) (map channel_key l) ->
  forall retval,
    for_each_items (fun chn => channel_body chn channel) l retval
    = Return (- EINVAL).
Proof.
  intros Hchn. apply andb_prop in Hchn as [Hid Hty].
  induction l as [|b l IH]; intros Hok Hdup retval.
  - destruct Hdup.
  - cbn [forallb] in Hok. apply andb_prop in Hok as [Hb Hl].
    apply andb_prop in Hb as [Hbid Hbty].
    cbn [for_each_items]. unfold channel_body at 1.
    rewrite !with_string_ok by assumption.
    destruct (String.eqb_spec (channel_type b) (channel_type channel)) as [Et|Nt].
    + rewrite Et, strcmp_refl.
      destruct (String.eqb_spec (channel_id b) (channel_id channel)) as [Ei|Ni].
      * rewrite Ei, strcmp_refl. reflexivity.
      * rewrite strcmp_neq by assumption. cbn [seq]. apply IH; [assumption|].
        destruct Hdup as [E|Hin]; [|assumption].
        unfold channel_key in E. congruence.
    + rewrite strcmp_neq by assumption. cbn [seq]. apply IH; [assumption|].
      destruct Hdup as [E|Hin]; [|assumption].
      unfold channel_key in E. congruence.
Qed.

Lemma iio_register_channel_fresh (l : channel_list) (channel : channel) :
  channel_strings_ok channel = true ->
  forallb channel_strings_ok (items l) = true ->
  ~ In (channel_key channel) (map channel_key (items l)) ->
  iio_register_channel true channel l
  = (Ok (Z.of_nat (count l) + 1), nodes (items l ++ [channel])).
Proof.
  intros Hchn Hok Hfresh. destruct l as [|[|b l]]; try reflexivity.
  unfold iio_register_channel, for_each.
  change (for_each_items _ (b :: l) 0)
    with (for_each_items (fun chn => channel_body chn channel) (b :: l) 0).
  rewrite channel_scan_fresh by assumption. reflexivity.
Qed.

Lemma iio_register_channel_duplicate (calloc_ok : bool) (l : channel_list)
    (channel : channel) :
  channel_strings_ok channel = true ->
  forallb channel_strings_ok (items l) = true ->
  In (channel_key channel) (map channel_key (items l)) ->
  iio_register_channel calloc_ok channel l = (Ok (- EINVAL), l).
Proof.
  intros Hchn Hok Hdup. destruct l as [|[|b l]]; try contradiction.
  unfold iio_register_channel, for_each.
  change (for_each_items _ (b :: l) 0)
    with (for_each_items (fun chn => channel_body chn channel) (b :: l) 0).
  rewrite channel_scan_duplicate by assumption. reflexivity.
Qed.

Lemma channel_key_dec (x y : string * string) : {x = y} + {x <> y}.
Proof. decide equality; apply string_dec. Defined.


Lemma iio_register_attribute_ok_cases (calloc_ok : bool) (attr : attribute)
    (l : attribute_list) :
  attribute_ok attr = true ->
  forallb attribute_ok (items l) = true ->
  (iio_register_attribute calloc_ok attr l = (Ok (- EINVAL), l)
   \/ iio_register_attribute calloc_ok attr l = (Ok (- ENOMEM), l))
  \/ (iio_register_attribute calloc_ok attr l
      = (Ok (Z.of_nat (count l) + 1), nodes (items l ++ [attr]))
      /\ ~ In (attribute_name attr) (map attribute_name (items l))).
Proof.
  intros Hattr Hl.
  destruct (in_dec string_dec (attribute_name attr)
              (map attribute_name (items l))) as [Hdup | Hfresh].
  - left. left. now apply iio_register_attribute_duplicate.
  - destruct calloc_ok.
    + right. split; [now apply iio_register_attribute_fresh | assumption].
    + destruct l as [|[|b l]].
      * left. right. reflexivity.
      * right. split; [reflexivity | assumption].
      * left. left. unfold iio_register_attribute, for_each.
        change (for_each_items _ (b :: l) 0)
          with (for_each_items (attribute_body attr) (b :: l) 0).
        rewrite attribute_scan_fresh by assumption. reflexivity.
Qed.

Lemma iio_register_channel_ok_cases (calloc_ok : bool) (l : channel_list)
    (channel : channel) :
  channel_strings_ok channel = true ->
  forallb channel_strings_ok (items l) = true ->
  (iio_register_channel calloc_ok channel l = (Ok (- EINVAL), l)
   \/ iio_register_channel calloc_ok channel l = (Ok (- ENOMEM), l))
  \/ (iio_register_channel calloc_ok channel l
      = (Ok (Z.of_nat (count l) + 1), nodes (items l ++ [channel]))
      /\ ~ In (channel_key channel) (map channel_key (items l))).
Proof.
  intros Hchn Hl.
  destruct (in_dec channel_key_dec (channel_key channel)
              (map channel_key (items l))) as [Hdup | Hfresh].
  - left. left. now apply iio_register_channel_duplicate.
  - destruct calloc_ok.
    + right. split; [now apply iio_register_channel_fresh | assumption].
    + destruct l as [|[|b l]].
      * left. right. reflexivity.
      * right. split; [reflexivity | assumption].
      * left. left. unfold iio_register_channel, for_each.
        change (for_each_items _ (b :: l) 0)
          with (for_each_items (fun chn => channel_body chn channel) (b :: l) 0).
        rewrite channel_scan_fresh by assumption. reflexivity.
Qed.

(** X1. [iio_register_attribute] on attributes whose names are strings in
    their arrays, whatever the list and the outcome of [calloc]: either
    the list is left as it was and the value returned is [-EINVAL] or
    [-ENOMEM]; or the attribute has been linked behind the last item, no
    listed attribute had its name, and the value returned is the new
    number of items, the position of the attribute. *)
Theorem iio_register_attribute_outcome :
  forall (calloc_ok : bool) (attr : attribute) (l : attribute_list),
    attribute_ok attr = true ->
    forallb attribute_ok (items l) = true ->
    let r := fst (iio_register_attribute calloc_ok attr l) in
    let l' := snd (iio_register_attribute calloc_ok attr l) in
    (l' = l /\ (r = Ok (- EINVAL) \/ r = Ok (- ENOMEM)))
    \/ (r = Ok (Z.of_nat (count l) + 1)
        /\ items l' = (items l ++ [attr])%list
        /\ count l' = S (count l)
        /\ nth_error (items l') (count l) = Some attr
        /\ ~ In (attribute_name attr) (map attribute_name (items l))).
Proof.
  intros calloc_ok attr l Hattr Hl r l'. subst r l'.
  destruct (iio_register_attribute_ok_cases calloc_ok attr l Hattr Hl)
    as [[E | E] | [E Hfresh]]; rewrite E; cbn [fst snd]; [left; auto .. | right].
  cbn [items]. unfold count. cbn [items].
  repeat split; try assumption.
  - rewrite length_app. cbn. lia.
  - rewrite nth_error_app2 by lia. rewrite Nat.sub_diag. reflexivity.
Qed.

Lemma iio_register_attribute_outcome_witness :
  let scale := iio_new_static_attribute "scale" in
  let raw := iio_new_static_attribute "raw" in
  (fst (iio_register_attribute true raw (nodes [scale])) = Ok 2
   /\ items (snd (iio_register_attribute true raw (nodes [scale])))
      = [scale; raw])
  /\ snd (iio_register_attribute true scale (nodes [scale])) = nodes [scale]
  /\ fst (iio_register_attribute true scale (nodes [scale])) = Ok (- EINVAL).
Proof.
  cbv zeta. split.
  - destruct (iio_register_attribute_outcome true
                (iio_new_static_attribute "raw")
                (nodes [iio_new_static_attribute "scale"]) eq_refl eq_refl)
      as [[E _] | (Hr & Hitems & _)].
    + discriminate E.
    + split; [exact Hr | exact Hitems].
  - destruct (iio_register_attribute_outcome true
                (iio_new_static_attribute "scale")
                (nodes [iio_new_static_attribute "scale"]) eq_refl eq_refl)
      as [[E [Hr | Hr]] | (Hr & _)].
    + split; [exact E | exact Hr].
    + discriminate Hr.
    + discriminate Hr.
Defined.

(** X2. The same for [iio_register_channel] on channels whose id and type
    are strings in their arrays, a channel being identified by its type
    together with its id. *)
Theorem iio_register_channel_outcome :
  forall (calloc_ok : bool) (chn : channel) (l : channel_list),
    channel_strings_ok chn = true ->
    forallb channel_strings_ok (items l) = true ->
    let r := fst (iio_register_channel calloc_ok chn l) in
    let l' := snd (iio_register_channel calloc_ok chn l) in
    (l' = l /\ (r = Ok (- EINVAL) \/ r = Ok (- ENOMEM)))
    \/ (r = Ok (Z.of_nat (count l) + 1)
        /\ items l' = (items l ++ [chn])%list
        /\ count l' = S (count l)
        /\ nth_error (items l') (count l) = Some chn
        /\ ~ In (channel_key chn) (map channel_key (items l))).
Proof.
  intros calloc_ok chn l Hchn Hl r l'. subst r l'.
  destruct (iio_register_channel_ok_cases calloc_ok l chn Hchn Hl)
    as [[E | E] | [E Hfresh]]; rewrite E; cbn [fst snd]; [left; auto .. | right].
  cbn [items]. unfold count. cbn [items].
  repeat split; try assumption.
  - rewrite length_app. cbn. lia.
  - rewrite nth_error_app2 by lia. rewrite Nat.sub_diag. reflexivity.
Qed.

Lemma iio_register_channel_outcome_witness :
  let input := iio_new_static_channel "voltage0" "input" in
  let output := iio_new_static_channel "voltage0" "output" in
  (fst (iio_register_channel true output (nodes [input])) = Ok 2
   /\ items (snd (iio_register_channel true output (nodes [input])))
      = [input; output])
  /\ snd (iio_register_channel false input NULL) = NULL
  /\ fst (iio_register_channel false input NULL) = Ok (- ENOMEM).
Proof.
  cbv zeta. split.
  - destruct (iio_register_channel_outcome true
                (iio_new_static_channel "voltage0" "output")
                (nodes [iio_new_static_channel "voltage0" "input"])
                eq_refl eq_refl)
      as [[E _] | (Hr & Hitems & _)].
    + discriminate E.
    + split; [exact Hr | exact Hitems].
  - destruct (iio_register_channel_outcome false
                (iio_new_static_channel "voltage0" "input") NULL
                eq_refl eq_refl)
      as [[E [Hr | Hr]] | (Hr & _)].
    + discriminate Hr.
    + split; [exact E | exact Hr].
    + discriminate Hr.
Defined.

Lemma NoDup_snoc {A : Type} (l : list A) (a : A) :
  NoDup l -> ~ In a l -> NoDup (l ++ [a]).
Proof.
  intros Hl Ha. apply NoDup_app; [assumption | repeat constructor; intros [] |].
  intros x Hx [<- | []]. contradiction.
Qed.

Lemma registered_attributes_distinct (calls : list (bool * attribute)) :
  forall l : attribute_list,
    forallb (fun c => attribute_ok (snd c)) calls = true ->
    forallb attribute_ok (items l) = true ->
    NoDup (map attribute_name (items l)) ->
    NoDup (map attribute_name
             (items (fold_left
                       (fun l c => snd (iio_register_attribute (fst c) (snd c) l))
                       calls l))).
Proof.
  induction calls as [|[ok a] calls IH]; intros l Hcalls Hl Hnd; [exact Hnd|].
  cbn [forallb snd] in Hcalls. apply andb_prop in Hcalls as [Ha Hcalls].
  cbn [fold_left fst snd].
  destruct (iio_register_attribute_ok_cases ok a l Ha Hl)
    as [[E | E] | [E Hfresh]]; rewrite E; cbn [snd]; try now apply IH.
  apply IH; [assumption | |].
  - cbn [items]. rewrite forallb_app, Hl. cbn [forallb andb]. now rewrite Ha.
  - cbn [items]. rewrite map_app. now apply NoDup_snoc.
Qed.

Lemma registered_channels_distinct (calls : list (bool * channel)) :
  forall l : channel_list,
    forallb (fun c => channel_strings_ok (snd c)) calls = true ->
    forallb channel_strings_ok (items l) = true ->
    NoDup (map channel_key (items l)) ->
    NoDup (map channel_key
             (items (fold_left
                       (fun l c => snd (iio_register_channel (fst c) (snd c) l))
                       calls l))).
Proof.
  induction calls as [|[ok a] calls IH]; intros l Hcalls Hl Hnd; [exact Hnd|].
  cbn [forallb snd] in Hcalls. apply andb_prop in Hcalls as [Ha Hcalls].
  cbn [fold_left fst snd].
  destruct (iio_register_channel_ok_cases ok l a Ha Hl)
    as [[E | E] | [E Hfresh]]; rewrite E; cbn [snd]; try now apply IH.
  apply IH; [assumption | |].
  - cbn [items]. rewrite forallb_app, Hl. cbn [forallb andb]. now rewrite Ha.
  - cbn [items]. rewrite map_app. now apply NoDup_snoc.
Qed.

(** X3. A list that only the registration functions have written, from
    NULL, by any sequence of calls with any outcome of [calloc], the names
    passed being strings in their arrays, never holds two attributes with
    the same name, nor two channels with the same type and id. *)
Theorem registered_lists_hold_no_duplicates :
  forall (attributes : list (bool * attribute))
         (channels : list (bool * channel)),
    forallb (fun c => attribute_ok (snd c)) attributes = true ->
    forallb (fun c => channel_strings_ok (snd c)) channels = true ->
    NoDup (map attribute_name
             (items (fold_left
                       (fun l c => snd (iio_register_attribute (fst c) (snd c) l))
                       attributes NULL)))
    /\ NoDup (map channel_key
                (items (fold_left
                          (fun l c => snd (iio_register_channel (fst c) (snd c) l))
                          channels NULL))).
Proof.
  intros attributes channels Ha Hc. split.
  - apply registered_attributes_distinct; [assumption | reflexivity | constructor].
  - apply registered_channels_distinct; [assumption | reflexivity | constructor].
Qed.

Lemma registered_lists_hold_no_duplicates_witness :
  let scale := iio_new_static_attribute "scale" in
  let raw := iio_new_static_attribute "raw" in
  let input := iio_new_static_channel "voltage0" "input" in
  let output := iio_new_static_channel "voltage0" "output" in
  items (fold_left (fun l c => snd (iio_register_attribute (fst c) (snd c) l))
           [(true, scale); (true, raw); (true, scale); (false, raw)] NULL)
  = [scale; raw]
  /\ NoDup (map attribute_name
              (items (fold_left
                        (fun l c => snd (iio_register_attribute (fst c) (snd c) l))
                        [(true, scale); (true, raw); (true, scale); (false, raw)]
                        NULL)))
  /\ NoDup (map channel_key
              (items (fold_left
                        (fun l c => snd (iio_register_channel (fst c) (snd c) l))
                        [(true, input); (true, output); (true, input)] NULL))).
Proof.
  cbv zeta. split; [reflexivity|].
  apply (registered_lists_hold_no_duplicates
           [(true, iio_new_static_attribute "scale");
            (true, iio_new_static_attribute "raw");
            (true, iio_new_static_attribute "scale");
            (false, iio_new_static_attribute "raw")]
           [(true, iio_new_static_channel "voltage0" "input");
            (true, iio_new_static_channel "voltage0" "output");
            (true, iio_new_static_channel "voltage0" "input")]);
    reflexivity.
Defined.

(** X4. [calloc] fails while an attribute with a new name is registered:
    a NULL list stays NULL and the call returns [-ENOMEM]; a list whose
    head node is still empty takes the attribute all the same, since no
    node is allocated for it; a list that holds items is left as it was
    and the call returns [-EINVAL], the value that also reports a
    duplicate. *)
Theorem iio_register_attribute_calloc_fails :
  forall (attr : attribute) (l : attribute_list),
    attribute_ok attr = true ->
    forallb attribute_ok (items l) = true ->
    ~ In (attribute_name attr) (map attribute_name (items l)) ->
    iio_register_attribute false attr l
    = match l with
      | NULL => (Ok (- ENOMEM), NULL)
      | nodes [] => (Ok 1, nodes [attr])
      | nodes (_ :: _) => (Ok (- EINVAL), l)
      end.
Proof.
  intros attr l Hattr Hok Hfresh. destruct l as [|[|b l]]; try reflexivity.
  unfold iio_register_attribute, for_each.
  change (for_each_items _ (b :: l) 0)
    with (for_each_items (attribute_body attr) (b :: l) 0).
  rewrite attribute_scan_fresh by assumption. reflexivity.
Qed.

Lemma iio_register_attribute_calloc_fails_witness :
  iio_register_attribute false (iio_new_static_attribute "raw") NULL
  = (Ok (- ENOMEM), NULL)
  /\ iio_register_attribute false (iio_new_static_attribute "raw") (nodes [])
     = (Ok 1, nodes [iio_new_static_attribute "raw"])
  /\ iio_register_attribute false (iio_new_static_attribute "raw")
       (nodes [iio_new_static_attribute "scale"])
     = (Ok (- EINVAL), nodes [iio_new_static_attribute "scale"]).
Proof.
  split; [|split].
  - apply (iio_register_attribute_calloc_fails
             (iio_new_static_attribute "raw") NULL);
      [reflexivity | reflexivity | intros []].
  - apply (iio_register_attribute_calloc_fails
             (iio_new_static_attribute "raw") (nodes []));
      [reflexivity | reflexivity | intros []].
  - apply (iio_register_attribute_calloc_fails
             (iio_new_static_attribute "raw")
             (nodes [iio_new_static_attribute "scale"]));
      [reflexivity | reflexivity | ].
    apply not_among. vm_compute. reflexivity.
Defined.

(** X5. [iio_register_channel] on channels whose id and type are strings:
    a channel is refused with [-EINVAL], the list untouched, exactly when
    a listed channel has both its type and its id; otherwise, [calloc]
    succeeding, it is linked behind the last item and its position is
    returned. A listed channel with the same id and another type does not
    stand in the way. *)
Theorem iio_register_channel_by_type_and_id :
  forall (calloc_ok : bool) (chn : channel) (l : channel_list),
    channel_strings_ok chn = true ->
    forallb channel_strings_ok (items l) = true ->
    (In (channel_key chn) (map channel_key (items l)) ->
     iio_register_channel calloc_ok chn l = (Ok (- EINVAL), l))
    /\ (~ In (channel_key chn) (map channel_key (items l)) ->
        iio_register_channel true chn l
        = (Ok (Z.of_nat (count l) + 1), nodes (items l ++ [chn])))
    /\ (forall listed,
          items l = [listed] ->
          channel_id listed = channel_id chn ->
          channel_type listed <> channel_type chn ->
          iio_register_channel true chn l = (Ok 2, nodes [listed; chn])).
Proof.
  intros calloc_ok chn l Hchn Hok. split; [|split].
  - now apply iio_register_channel_duplicate.
  - now apply iio_register_channel_fresh.
  - intros listed E Hid Hty.
    rewrite iio_register_channel_fresh; try assumption.
    + unfold count. rewrite E. reflexivity.
    + rewrite E. cbn [map]. intros [H | []]. unfold channel_key in H. congruence.
Qed.

Lemma iio_register_channel_by_type_and_id_witness :
  iio_register_channel false (iio_new_static_channel "voltage0" "input")
    (nodes [iio_new_static_channel "voltage0" "input"])
  = (Ok (- EINVAL), nodes [iio_new_static_channel "voltage0" "input"])
  /\ iio_register_channel true (iio_new_static_channel "voltage0" "output")
       (nodes [iio_new_static_channel "voltage0" "input"])
     = (Ok 2, nodes [iio_new_static_channel "voltage0" "input";
                     iio_new_static_channel "voltage0" "output"]).
Proof.
  split.
  - apply (iio_register_channel_by_type_and_id false
             (iio_new_static_channel "voltage0" "input")
             (nodes [iio_new_static_channel "voltage0" "input"]));
      [reflexivity | reflexivity | left; reflexivity].
  - apply (iio_register_channel_by_type_and_id true
             (iio_new_static_channel "voltage0" "output")
             (nodes [iio_new_static_channel "voltage0" "input"])
             eq_refl eq_refl).
    + reflexivity.
    + reflexivity.
    + discriminate.
Defined.

Lemma iio_register_device_nonempty {World iio_attr_type : Type}
    (calloc_ok : bool) (rest : list (device World iio_attr_type))
    (first device : device World iio_attr_type) :
  snd (iio_register_device calloc_ok device (nodes (first :: rest)))
  = nodes (first :: rest)
  /\ forall p, fst (iio_register_device calloc_ok device (nodes (first :: rest)))
               = Ok p -> p = - EINVAL.
Proof.
  unfold iio_register_device, for_each. cbn [for_each_items].
  unfold with_string.
  destruct (c_str DEV_NAME_STR_MAX_SIZE (device_name first));
    [|split; [reflexivity | intros p [=]]].
  destruct (c_str DEV_NAME_STR_MAX_SIZE (device_name device));
    [|split; [reflexivity | intros p [=]]].
  rewrite Z.eqb_refl, orb_true_r. cbn.
  split; [reflexivity | intros p [= <-]; reflexivity].
Qed.

(** X6. [iio_register_device] never links a second device: on a list that
    holds a device it leaves the list as it was and returns nothing but
    [-EINVAL], and a list written by any sequence of registrations from
    NULL holds at most one device. *)
Theorem iio_register_device_at_most_one :
  forall (World iio_attr_type : Type),
    (forall (calloc_ok : bool) (first device : device World iio_attr_type) rest,
        snd (iio_register_device calloc_ok device (nodes (first :: rest)))
        = nodes (first :: rest)
        /\ forall p,
             fst (iio_register_device calloc_ok device (nodes (first :: rest)))
             = Ok p -> p = - EINVAL)
    /\ (forall calls : list (bool * device World iio_attr_type),
          (count (fold_left
                    (fun l c => snd (iio_register_device (fst c) (snd c) l))
                    calls NULL) <= 1)%nat).
Proof.
  intros World iio_attr_type. split.
  - intros. apply iio_register_device_nonempty.
  - assert (H : forall (calls : list (bool * device World iio_attr_type)) l,
               (count l <= 1)%nat ->
               (count (fold_left
                         (fun l c => snd (iio_register_device (fst c) (snd c) l))
                         calls l) <= 1)%nat).
    { induction calls as [|[ok d] calls IH]; intros l Hl; [exact Hl|].
      cbn [fold_left fst snd]. apply IH.
      destruct l as [|[|first rest]].
      - destruct ok; cbn; lia.
      - cbn. lia.
      - rewrite (proj1 (iio_register_device_nonempty ok rest first d)). exact Hl. }
    intros calls. apply H. cbn. lia.
Qed.

(** ** Lists built by registration can be walked and searched *)

Lemma register_attributes_invariant (attrs : list attribute) :
  forall l : attribute_list,
    forallb attribute_ok (items l) = true ->
    forallb attribute_ok attrs = true ->
    forallb attribute_ok (items (snd (register_attributes attrs l))) = true
    /\ (forall name,
          In name (map attribute_name (items l))
          \/ In name (map attribute_name attrs) ->
          In name (map attribute_name (items (snd (register_attributes attrs l)))))
    /\ (l <> NULL \/ attrs <> [] -> snd (register_attributes attrs l) <> NULL).
Proof.
  induction attrs as [|a attrs IH]; intros l Hl Hattrs.
  - cbn. split; [assumption|]. split; [|intros [H | H]; congruence].
    intros name [H | []]. exact H.
  - cbn [forallb] in Hattrs. apply andb_prop in Hattrs as [Ha Hattrs].
    cbn [register_attributes].
    assert (exists r l1,
               iio_register_attribute true a l = (r, l1)
               /\ forallb attribute_ok (items l1) = true
               /\ (forall name,
                     In name (map attribute_name (items l))
                     \/ name = attribute_name a ->
                     In name (map attribute_name (items l1)))
               /\ l1 <> NULL) as (r & l1 & E & Hl1 & Hin & Hnn).
    { destruct (in_dec string_dec (attribute_name a)
                  (map attribute_name (items l))) as [Hdup | Hfresh].
      - exists (Ok (- EINVAL)), l. split; [|split; [|split]].
        + now apply iio_register_attribute_duplicate.
        + assumption.
        + intros name [H | ->]; assumption.
        + destruct l; [destruct Hdup | discriminate].
      - exists (Ok (Z.of_nat (count l) + 1)), (nodes (items l ++ [a])).
        split; [|split; [|split]].
        + now apply iio_register_attribute_fresh.
        + cbn [items]. rewrite forallb_app, Hl. cbn [forallb andb]. now rewrite Ha.
        + intros name H. cbn [items]. rewrite map_app. apply in_or_app.
          destruct H as [H | ->]; [now left | right; now left].
        + discriminate. }
    rewrite E. specialize (IH l1 Hl1 Hattrs).
    destruct (register_attributes attrs l1) as [rs l2]. cbn [snd] in *.
    destruct IH as (Hok & Hall & Hnull).
    split; [assumption|]. split.
    + intros name [H | H]; apply Hall.
      * left. apply Hin. now left.
      * cbn [map] in H. destruct H as [<- | H]; [|now right].
        left. apply Hin. now right.
    + intros _. apply Hnull. now left.
Qed.

Lemma channel_ok_strings (c : channel) :
  channel_ok c = true -> channel_strings_ok c = true.
Proof.
  unfold channel_ok, channel_strings_ok. intros H.
  apply andb_prop in H as [H _]. exact H.
Qed.

Lemma forallb_impl {A : Type} (P Q : A -> bool) (l : list A) :
  (forall a, P a = true -> Q a = true) ->
  forallb P l = true -> forallb Q l = true.
Proof.
  intros H. rewrite !forallb_forall. intros Hl a Ha. apply H, Hl, Ha.
Qed.

Lemma register_channels_invariant (channels : list channel) :
  forall l : channel_list,
    forallb channel_ok (items l) = true ->
    forallb channel_ok channels = true ->
    forallb channel_ok (items (snd (register_channels channels l))) = true
    /\ (l <> NULL \/ channels <> [] -> snd (register_channels channels l) <> NULL).
Proof.
  induction channels as [|c channels IH]; intros l Hl Hcs.
  - cbn. split; [assumption|]. intros [H | H]; congruence.
  - cbn [forallb] in Hcs. apply andb_prop in Hcs as [Hc Hcs].
    cbn [register_channels].
    assert (exists r l1,
               iio_register_channel true c l = (r, l1)
               /\ forallb channel_ok (items l1) = true
               /\ l1 <> NULL) as (r & l1 & E & Hl1 & Hnn).
    { assert (Hs := forallb_impl _ _ _ channel_ok_strings Hl).
      destruct (in_dec channel_key_dec (channel_key c)
                  (map channel_key (items l))) as [Hdup | Hfresh].
      - exists (Ok (- EINVAL)), l. split; [|split].
        + apply iio_register_channel_duplicate;
            [now apply channel_ok_strings | assumption | assumption].
        + assumption.
        + destruct l; [destruct Hdup | discriminate].
      - exists (Ok (Z.of_nat (count l) + 1)), (nodes (items l ++ [c])).
        split; [|split].
        + apply iio_register_channel_fresh;
            [now apply channel_ok_strings | assumption | assumption].
        + cbn [items]. rewrite forallb_app, Hl. cbn [forallb andb]. now rewrite Hc.
        + discriminate. }
    rewrite E. specialize (IH l1 Hl1 Hcs).
    destruct (register_channels channels l1) as [rs l2]. cbn [snd] in *.
    destruct IH as (Hok & Hnull).
    split; [assumption|]. intros _. apply Hnull. now left.
Qed.

Lemma find_attribute_name (l : attribute_list) (attr : string) :
  In attr (map attribute_name (items l)) ->
  exists b, find_attribute l attr = Some b /\ attribute_name b = attr.
Proof.
  intros Hin. apply in_map_iff in Hin as (a & <- & Ha).
  destruct (find_attribute_in l a Ha) as [b Hb]. exists b. split; [exact Hb|].
  unfold find_attribute in Hb. apply find_some in Hb as [_ Hb].
  now apply strcmp_true in Hb.
Qed.

(** X7. Registration and lookup fit together. Attributes whose names are
    strings are registered one after the other into the attribute list of
    a device, empty at first. On the context [iio_init] has installed,
    [read_attr] and [write_attr] then resolve the name of each of them,
    duplicates included, and answer from the accessor slot of the
    device. *)
Theorem registered_attribute_is_served :
  forall (World iio_attr_type : Type) (ctx : context World iio_attr_type)
         (dev : device World iio_attr_type) (device : string)
         (attrs : list attribute) (empty : attribute_list) (a : attribute)
         (buf : pointer) (len : size_t) (type : iio_attr_type),
    installed ctx ->
    find_device ctx device = Some dev ->
    count empty = 0%nat ->
    forallb attribute_ok attrs = true ->
    device_attrs dev = snd (register_attributes attrs empty) ->
    In a attrs ->
    (exists b, find_attribute (device_attrs dev) (attribute_name a) = Some b
               /\ attribute_name b = attribute_name a)
    /\ read_attr ctx device (attribute_name a) buf len type
       = Return (slot_answer (attr_read_attr (device_attr_accessors dev))
                   (fun f => f (device_data dev) (attribute_name a) buf len type))
    /\ write_attr ctx device (attribute_name a) buf len type
       = Return (slot_answer (attr_write_attr (device_attr_accessors dev))
                   (fun f => f (device_data dev) (attribute_name a) buf len type)).
Proof.
  intros World iio_attr_type ctx dev device attrs empty a buf len type
    Hinst Hdev Hempty Hok Hattrs Ha.
  assert (Hitems : items empty = []).
  { unfold count in Hempty. now apply length_zero_iff_nil. }
  destruct (register_attributes_invariant attrs empty) as (_ & Hall & _);
    [now rewrite Hitems | assumption |].
  rewrite <- Hattrs in Hall.
  destruct (find_attribute_name (device_attrs dev) (attribute_name a))
    as (b & Hb & Hname).
  { apply Hall. right. now apply in_map. }
  split; [eauto|].
  rewrite read_attr_spec, write_attr_spec by now apply installed_ok.
  rewrite Hdev, Hb. split; reflexivity.
Qed.

Lemma registered_attribute_is_served_witness :
  read_attr (snd Example.main) "0" "direct_reg_access" 0 16
    Example.IIO_ATTR_TYPE_DEBUG
  = Return (Accessor (Example.read_dev_attr 0 "direct_reg_access" 0 16
                        Example.IIO_ATTR_TYPE_DEBUG))
  /\ write_attr (snd Example.main) "0" "direct_reg_access" 0 16
       Example.IIO_ATTR_TYPE_DEBUG
     = Return (Value (- ENOSYS)).
Proof.
  assert (Hdev : exists dev,
             find_device (snd Example.main) "0" = Some dev
             /\ device_attrs dev
                = snd (register_attributes
                         (map iio_new_static_attribute Example.adc_attrs) NULL)
             /\ attr_read_attr (device_attr_accessors dev)
                = Some Example.read_dev_attr
             /\ attr_write_attr (device_attr_accessors dev) = None
             /\ device_data dev = 0).
  { eexists. split; [reflexivity|]. repeat split; reflexivity. }
  destruct Hdev as (dev & Hdev & Hattrs & Hr & Hw & Hdata).
  destruct (registered_attribute_is_served _ _ (snd Example.main) dev "0"
              (map iio_new_static_attribute Example.adc_attrs) NULL
              (iio_new_static_attribute "direct_reg_access") 0 16
              Example.IIO_ATTR_TYPE_DEBUG main_installed Hdev eq_refl eq_refl
              Hattrs (or_intror (or_introl eq_refl)))
    as (_ & Hread & Hwrite).
  rewrite Hr, Hdata in Hread. rewrite Hw in Hwrite.
  split; [exact Hread | exact Hwrite].
Defined.

(** ** [iio_init] *)

Section Init.
Variable World : Type.
Variable iio_attr_type : Type.
Implicit Types (d : device World iio_attr_type) (ctx : context World iio_attr_type).

Lemma iio_init_generate (static_context : context World iio_attr_type)
    ctx_name ctx_desc (its : list (device World iio_attr_type)) write_cb read_cb :
  iio_init static_context ctx_name ctx_desc (nodes its) (Some write_cb)
    (Some read_cb)
  = match generate_xml (filled static_context ctx_name ctx_desc (nodes its)
                          (Some write_cb) (Some read_cb)) with
    | (Ok _, ctx) => (Ok tt, ctx)
    | (Trap t, ctx) => (Trap t, ctx)
    end.
Proof. reflexivity. Qed.

Lemma block_fits (parts : list string) (text : string) :
  strlen (text ++ join parts) < IIO_XML_SIZE ->
  strlen (join parts) < UINT_MOD - IIO_XML_SIZE ->
  block parts (at_end text) = Next (at_end (text ++ join parts)).
Proof.
  intros Hfit Hsmall.
  assert (Htext : strlen text < IIO_XML_SIZE).
  { rewrite strlen_append in Hfit. pose proof (strlen_nonneg (join parts)). lia. }
  pose proof (block_at_end parts text Htext Hsmall) as H.
  cbn [write_chunks] in H. apply Z.ltb_lt in Hfit. rewrite Hfit in H.
  cbn [tracks] in H. apply H.
Qed.

End Init.

(** X8. [iio_init] fails an [assert], the static context untouched, when
    the device list or a callback is NULL. Otherwise, when the context it
    has filled is well formed (every list that has to be walked is there,
    every name is a string in its array, every id is printed in at most
    three characters), it returns exactly when the document fits in
    [IIO_XML_SIZE] bytes with its NUL, the document then being in [xml];
    when the document does not fit it fails an [assert]. *)
Theorem iio_init_returns_iff :
  forall (World iio_attr_type : Type)
         (static_context : context World iio_attr_type)
         (ctx_name ctx_desc : string) (devices : device_list World iio_attr_type)
         (write_cb read_cb : option (pointer -> size_t -> call World)),
    let ctx := filled static_context ctx_name ctx_desc devices write_cb read_cb in
    (devices = NULL \/ write_cb = None \/ read_cb = None ->
     iio_init static_context ctx_name ctx_desc devices write_cb read_cb
     = (Trap assert_failed, static_context))
    /\ (write_cb <> None -> read_cb <> None -> context_ok ctx = true ->
        ((exists ctx',
             iio_init static_context ctx_name ctx_desc devices write_cb read_cb
             = (Ok tt, ctx'))
         <-> strlen (document ctx) < IIO_XML_SIZE)
        /\ (strlen (document ctx) < IIO_XML_SIZE ->
            iio_init static_context ctx_name ctx_desc devices write_cb read_cb
            = (Ok tt, set_xml ctx (document ctx)))
        /\ (IIO_XML_SIZE <= strlen (document ctx) ->
            fst (iio_init static_context ctx_name ctx_desc devices write_cb
                   read_cb)
            = Trap assert_failed)).
Proof.
  intros World iio_attr_type sc n d devices wcb rcb ctx. split.
  - unfold iio_init. intros [-> | [-> | ->]]; [reflexivity | |].
    + now destruct devices.
    + destruct devices; [reflexivity|]. now destruct wcb.
  - intros Hw Hr Hok.
    assert (Hdev : devices <> NULL).
    { intros ->. unfold context_ok in Hok. cbn in Hok.
      rewrite andb_false_r in Hok. discriminate. }
    destruct devices as [|its]; [congruence|].
    destruct wcb as [w|]; [|congruence]. destruct rcb as [r|]; [|congruence].
    rewrite iio_init_generate. fold ctx.
    assert (Hfits : strlen (document ctx) < IIO_XML_SIZE ->
                    generate_xml ctx = (Ok (document ctx), set_xml ctx (document ctx)))
      by (intros Hfit; now apply generate_xml_fits).
    assert (Hbig : IIO_XML_SIZE <= strlen (document ctx) ->
                   fst (generate_xml ctx) = Trap assert_failed).
    { intros H. rewrite generate_xml_chunks by assumption.
      destruct (write_chunks_overflow (context_chunks ctx) dtd) as (text & E & _).
      - reflexivity.
      - now rewrite document_chunks.
      - rewrite E. reflexivity. }
    split; [|split].
    + split.
      * intros [ctx' H].
        destruct (Z_lt_le_dec (strlen (document ctx)) IIO_XML_SIZE) as [L | L];
          [exact L|].
        apply Hbig in L. destruct (generate_xml ctx) as [[text|t] c];
          cbn [fst] in L; discriminate.
      * intros Hfit. rewrite (Hfits Hfit). eauto.
    + intros Hfit. now rewrite (Hfits Hfit).
    + intros H. apply Hbig in H.
      destruct (generate_xml ctx) as [[text|t] c]; cbn [fst] in *;
        [discriminate | injection H as ->; reflexivity].
Qed.

(** X9. What a call of [iio_init] that returns has left in the static
    context, when the context it has filled is well formed: the two
    names as they were passed, the device list and the callbacks that were
    passed, and in [xml], which [get_xml] hands out, the document of that
    registry, shorter than [IIO_XML_SIZE]. *)
Theorem iio_init_result :
  forall (World iio_attr_type : Type)
         (static_context ctx' : context World iio_attr_type)
         (ctx_name ctx_desc : string) (devices : device_list World iio_attr_type)
         (write_cb read_cb : option (pointer -> size_t -> call World)),
    context_ok (filled static_context ctx_name ctx_desc devices write_cb read_cb)
    = true ->
    iio_init static_context ctx_name ctx_desc devices write_cb read_cb
    = (Ok tt, ctx') ->
    context_name ctx' = ctx_name
    /\ context_description ctx' = ctx_desc
    /\ context_devices ctx' = devices
    /\ context_ops_write ctx' = write_cb
    /\ context_ops_read ctx' = read_cb
    /\ get_xml ctx' = document ctx'
    /\ strlen (get_xml ctx') < IIO_XML_SIZE.
Proof.
  intros World iio_attr_type sc ctx' n d devices wcb rcb Hok H.
  destruct devices as [|its]; [discriminate|].
  destruct wcb as [w|]; [|discriminate]. destruct rcb as [r|]; [|discriminate].
  rewrite iio_init_generate in H.
  set (ctx := filled sc n d (nodes its) (Some w) (Some r)) in *.
  rewrite generate_xml_chunks in H by assumption.
  pose proof (document_chunks _ _ ctx) as Hdoc.
  destruct (write_chunks (context_chunks ctx) dtd) as [[|] text] eqn:E;
    [|discriminate].
  injection H as <-.
  destruct dtd_fits as [_ Hfit]. apply Z.ltb_lt in Hfit.
  pose proof (write_chunks_bounded _ _ _ _ Hfit E) as Hlen.
  apply write_chunks_prefix in E as (done & rest & Ec & -> & Hrest).
  rewrite (Hrest eq_refl), app_nil_r in Ec. subst done.
  unfold context_ok in Hok. apply andb_prop in Hok as [Hok _].
  apply andb_prop in Hok as [Hn Hd].
  apply strncpy_is_string in Hn. apply strncpy_is_string in Hd.
  cbn [set_xml get_xml context_name context_description context_devices
       context_ops_write context_ops_read context_xml].
  repeat split; try assumption.
  - now apply strncpy_short.
  - now apply strncpy_short.
Qed.

Lemma iio_init_result_witness :
  context_name (snd Example.main) = "tiny"
  /\ context_description (snd Example.main) = "Tiny IIOD"
  /\ context_devices (snd Example.main) = Example.dev_list Example.adc
  /\ context_ops_write (snd Example.main) = Some Example.transport
  /\ context_ops_read (snd Example.main) = Some Example.transport
  /\ get_xml (snd Example.main) = document (snd Example.main)
  /\ strlen (get_xml (snd Example.main)) < IIO_XML_SIZE.
Proof.
  apply (iio_init_result _ _ Example.zeroed (snd Example.main) "tiny" "Tiny IIOD"
           (Example.dev_list Example.adc) (Some Example.transport)
           (Some Example.transport)).
  - vm_compute. reflexivity.
  - reflexivity.
Defined.

(** ** Rendering when every name is a string: asserts and NULL lists only *)

Lemma implements_keeps_sound (g : step) (chunks : list string) :
  implements g chunks -> keeps_sound g.
Proof.
  intros H text Htext. specialize (H text Htext).
  destruct (write_chunks chunks text) as [[|] text'] eqn:E; cbn [tracks] in H.
  - destruct H as [-> Hlen]. cbn. auto.
  - destruct H as [i ->]. cbn. split; [now left |].
    now apply write_chunks_bounded in E.
Qed.

Lemma sound_seq (r : flow Empty_set writer) (g : step) :
  sound r -> keeps_sound g -> sound (r ;; g).
Proof.
  destruct r as [[text i]|[]|t w]; cbn; [|auto].
  intros [-> Hlen] Hg. now apply Hg.
Qed.

Lemma keeps_sound_seq (f g : step) :
  keeps_sound f -> keeps_sound g -> keeps_sound (fun w => f w ;; g).
Proof. intros Hf Hg text Htext. apply sound_seq; auto. Qed.

Lemma keeps_sound_ext (f g : step) :
  (forall w, f w = g w) -> keeps_sound g -> keeps_sound f.
Proof. intros E H text Htext. rewrite E. now apply H. Qed.

Lemma keeps_sound_for_each {T : Type} (body : T -> step) (l : linked T) :
  (forall a, In a (items l) -> keeps_sound (body a)) ->
  keeps_sound (for_each l body).
Proof.
  intros Hbody. destruct l as [|l].
  - intros text Htext. cbn. split; [now right | assumption].
  - cbn [for_each items] in *. induction l as [|a l IH]; intros text Htext.
    + cbn. auto.
    + cbn [for_each_items]. apply sound_seq.
      * apply Hbody; [now left | assumption].
      * apply IH. intros b Hb. apply Hbody. now right.
Qed.

Lemma forallb_In {A : Type} (P : A -> bool) (l : list A) (a : A) :
  forallb P l = true -> In a l -> P a = true.
Proof. rewrite forallb_forall. auto. Qed.

Lemma populate_attributes_keeps_sound (l : attribute_list) (level : Z) :
  forallb attribute_ok (items l) = true ->
  keeps_sound (populate_attributes l level).
Proof.
  intros Hl. unfold populate_attributes. apply keeps_sound_for_each.
  intros a Ha. pose proof (forallb_In _ _ _ Hl Ha) as Hok.
  apply keeps_sound_ext with (1 := fun w => attribute_body_block a w Hok).
  apply implements_keeps_sound with (chunks := [attribute_element a]).
  apply implements_block. apply is_string_strlen in Hok. bound_strlen.
Qed.

Lemma render_channel_keeps_sound (c : channel) :
  channel_names_ok c = true -> keeps_sound (render_channel c).
Proof.
  unfold channel_names_ok, channel_strings_ok. intros H.
  apply andb_prop in H as [H Hattrs]. apply andb_prop in H as [Hid Htype].
  apply keeps_sound_ext with (1 := fun w => render_channel_blocks c w Hid Htype).
  apply is_string_strlen in Hid, Htype.
  apply keeps_sound_seq with (f := fun w => block _ w ;; populate_attributes _ 3).
  - apply keeps_sound_seq; [|now apply populate_attributes_keeps_sound].
    apply implements_keeps_sound with (chunks := [channel_open c]).
    apply implements_block. bound_strlen.
  - apply implements_keeps_sound with (chunks := ["</channel>"]).
    apply implements_block. bound_strlen.
Qed.

Section Sound.
Variable World : Type.
Variable iio_attr_type : Type.
Implicit Types (d : device World iio_attr_type) (ctx : context World iio_attr_type).

Lemma render_device_keeps_sound d :
  device_names_ok d = true -> keeps_sound (render_device d).
Proof.
  unfold device_names_ok. intros H.
  apply andb_prop in H as [H Hattrs]. apply andb_prop in H as [H Hchannels].
  apply andb_prop in H as [Hid Hname].
  apply keeps_sound_ext with (1 := fun w => render_device_blocks _ _ d w Hid Hname).
  apply is_string_strlen in Hid, Hname.
  apply keeps_sound_seq
    with (f := fun w => block _ w ;; for_each _ render_channel
                        ;; populate_attributes _ 2).
  - apply keeps_sound_seq
      with (f := fun w => block _ w ;; for_each _ render_channel);
      [|now apply populate_attributes_keeps_sound].
    apply keeps_sound_seq.
    + apply implements_keeps_sound with (chunks := [device_open d]).
      apply implements_block. bound_strlen.
    + apply keeps_sound_for_each. intros c Hc.
      apply render_channel_keeps_sound.
      now apply (forallb_In _ _ _ Hchannels).
  - apply implements_keeps_sound with (chunks := ["</device>"]).
    apply implements_block. bound_strlen.
Qed.

Lemma render_context_sound ctx (old : string) :
  names_ok ctx = true ->
  sound (render_context ctx {| xml := old; index := to_uint (strlen dtd) |}).
Proof.
  unfold names_ok. intros H.
  apply andb_prop in H as [H Hdevices]. apply andb_prop in H as [Hname Hdesc].
  destruct dtd_fits as [Hu Hfit]. assert (Hdtd := Hfit). apply Z.ltb_lt in Hdtd.
  rewrite render_context_blocks by assumption.
  apply is_string_strlen in Hname, Hdesc.
  apply sound_seq; [apply sound_seq; [apply sound_seq |] |].
  - apply (implements_keeps_sound _
             [join ["<context name=" ++ QUOTE; context_name ctx; QUOTE ++ " "]]);
      [|assumption].
    apply implements_block. bound_strlen.
  - apply implements_keeps_sound
      with (chunks := [join ["description=" ++ QUOTE; context_description ctx;
                             QUOTE ++ ">"]]).
    apply implements_block. bound_strlen.
  - apply keeps_sound_for_each. intros d Hd.
    apply render_device_keeps_sound. now apply (forallb_In _ _ _ Hdevices).
  - apply implements_keeps_sound with (chunks := ["</context>"]).
    apply implements_block. bound_strlen.
Qed.

Lemma generate_xml_sound ctx :
  names_ok ctx = true ->
  ((exists text, fst (generate_xml ctx) = Ok text)
   \/ fst (generate_xml ctx) = Trap assert_failed
   \/ fst (generate_xml ctx) = Trap null_dereference)
  /\ strlen (context_xml (snd (generate_xml ctx))) < IIO_XML_SIZE.
Proof.
  intros Hok. unfold generate_xml.
  pose proof (render_context_sound ctx (context_xml ctx) Hok) as H.
  destruct (render_context ctx _) as [w|[]|t w]; cbn in *.
  - split; [left; eauto | apply H].
  - destruct H as [[-> | ->] Hlen]; split; auto.
Qed.

Lemma context_ok_names_ok ctx : context_ok ctx = true -> names_ok ctx = true.
Proof.
  unfold context_ok, names_ok. intros H.
  apply andb_prop in H as [H Hdevices]. rewrite H. cbn [andb].
  destruct (context_devices ctx) as [|l]; [discriminate|]. cbn [items].
  apply forallb_forall. intros d Hd. apply (forallb_In _ _ _ Hdevices) in Hd.
  unfold device_ok in Hd. unfold device_names_ok.
  apply andb_prop in Hd as [Hd Hattrs]. apply andb_prop in Hd as [Hd Hchannels].
  rewrite Hd. cbn [andb].
  apply attributes_ok_nodes in Hattrs as (its & -> & Hits).
  apply channels_ok_nodes in Hchannels as (cs & -> & Hcs).
  cbn [items]. apply andb_true_intro. split.
  - apply forallb_forall. intros c Hc. apply Hcs in Hc.
    unfold channel_ok in Hc. unfold channel_names_ok, channel_strings_ok.
    apply andb_prop in Hc as [Hc Ha]. rewrite Hc. cbn [andb].
    apply attributes_ok_nodes in Ha as (as' & -> & Has).
    cbn [items]. apply forallb_forall. exact Has.
  - apply forallb_forall. exact Hits.
Qed.

End Sound.

(** X10. For every registry in which each name is a string inside its
    array and each device id prints in at most three characters, lists
    being allowed to be missing, [generate_xml] returns, or fails an
    [assert], or reads through a NULL list; in each case no [strcat] has
    written past the end of [xml], which holds a string shorter than
    [IIO_XML_SIZE]. The same holds of [iio_init] when it is called with the
    device list of such a registry and names shorter than their arrays, on
    a static context whose [xml] held a string that fits. *)
Theorem generate_xml_never_overruns :
  forall (World iio_attr_type : Type) (ctx : context World iio_attr_type),
    names_ok ctx = true ->
    (((exists text, fst (generate_xml ctx) = Ok text)
      \/ fst (generate_xml ctx) = Trap assert_failed
      \/ fst (generate_xml ctx) = Trap null_dereference)
     /\ strlen (context_xml (snd (generate_xml ctx))) < IIO_XML_SIZE)
    /\ forall (static_context : context World iio_attr_type)
              (ctx_name ctx_desc : string)
              (write_cb read_cb : option (pointer -> size_t -> call World)),
         (String.length ctx_name < CONTEXT_NAME_MAX_SIZE)%nat ->
         (String.length ctx_desc < CONTEXT_DESC_MAX_SIZE)%nat ->
         strlen (context_xml static_context) < IIO_XML_SIZE ->
         (fst (iio_init static_context ctx_name ctx_desc (context_devices ctx)
                 write_cb read_cb) = Ok tt
          \/ fst (iio_init static_context ctx_name ctx_desc (context_devices ctx)
                    write_cb read_cb) = Trap assert_failed
          \/ fst (iio_init static_context ctx_name ctx_desc (context_devices ctx)
                    write_cb read_cb) = Trap null_dereference)
         /\ strlen (context_xml
                      (snd (iio_init static_context ctx_name ctx_desc
                              (context_devices ctx) write_cb read_cb)))
            < IIO_XML_SIZE.
Proof.
  intros World iio_attr_type ctx Hok. split; [now apply generate_xml_sound|].
  intros sc n d wcb rcb Hn Hd Hsc.
  destruct (context_devices ctx) as [|its] eqn:Edev;
    [split; [right; left; reflexivity | exact Hsc]|].
  destruct wcb as [w|]; [|split; [right; left; reflexivity | exact Hsc]].
  destruct rcb as [r|]; [|split; [right; left; reflexivity | exact Hsc]].
  rewrite iio_init_generate.
  assert (Hfilled : names_ok (filled sc n d (nodes its) (Some w) (Some r)) = true).
  { unfold names_ok in *. cbn [filled context_name context_description
                                context_devices].
    rewrite (proj2 (strncpy_is_string _ _) Hn),
      (proj2 (strncpy_is_string _ _) Hd).
    apply andb_prop in Hok as [_ Hdevices]. rewrite Edev in Hdevices.
    exact Hdevices. }
  destruct (generate_xml_sound _ _ _ Hfilled) as [Hfst Hlen].
  destruct (generate_xml _) as [[text|t] c]; cbn [fst snd] in *.
  - split; [now left | exact Hlen].
  - split; [|exact Hlen].
    destruct Hfst as [[text E] | [E | E]]; [discriminate | |];
      injection E as ->; auto.
Qed.

Lemma generate_xml_never_overruns_witness :
  names_ok Example.crowded = true
  /\ fst (generate_xml Example.crowded) = Trap assert_failed
  /\ strlen (context_xml (snd (generate_xml Example.crowded))) < IIO_XML_SIZE.
Proof.
  assert (Hok : names_ok Example.crowded = true) by (vm_compute; reflexivity).
  destruct (generate_xml_never_overruns _ _ Example.crowded Hok)
    as [[_ Hlen] _].
  split; [exact Hok|]. split; [|exact Hlen].
  vm_compute. reflexivity.
Defined.

(** ** Registries that [generate_xml] cannot walk *)

Section Unwalkable.
Variable World : Type.
Variable iio_attr_type : Type.
Implicit Types (d : device World iio_attr_type) (ctx : context World iio_attr_type).

Lemma context_blocks_fit ctx :
  is_string CONTEXT_NAME_MAX_SIZE (context_name ctx) = true ->
  is_string CONTEXT_DESC_MAX_SIZE (context_description ctx) = true ->
  block ["<context name=" ++ QUOTE; context_name ctx; QUOTE ++ " "]
    (at_end dtd) ;;
  block ["description=" ++ QUOTE; context_description ctx; QUOTE ++ ">"]
  = Next (at_end (dtd ++ context_open ctx))
  /\ strlen (dtd ++ context_open ctx) < 1024.
Proof.
  intros Hname Hdesc.
  apply is_string_strlen in Hname. apply is_string_strlen in Hdesc.
  assert (Hdtd : strlen dtd = 809) by reflexivity.
  rewrite block_fits.
  - cbn [seq]. rewrite block_fits.
    + split.
      * do 2 f_equal. unfold context_open. cbn [join].
        rewrite !append_empty_r, !append_assoc. reflexivity.
      * unfold context_open. rewrite !strlen_append, Hdtd.
        revert Hname Hdesc. bound_strlen.
    + rewrite !strlen_append, Hdtd. revert Hname Hdesc. bound_strlen.
    + revert Hname Hdesc. bound_strlen.
  - rewrite !strlen_append, Hdtd. revert Hname Hdesc. bound_strlen.
  - revert Hname Hdesc. bound_strlen.
Qed.

End Unwalkable.

(** X11. A device to which no channel has been registered has the
    channel list NULL that [iio_new_static_device] gave it. With such a
    device first in the list, the names and the id being in order,
    [iio_init] does not return: [generate_xml] writes the preamble, the
    opening tags of the context and of the device, and then reads through
    the NULL channel list. *)
Theorem iio_init_device_without_channels :
  forall (World iio_attr_type : Type)
         (static_context : context World iio_attr_type)
         (ctx_name ctx_desc : string) (d : device World iio_attr_type)
         (rest : list (device World iio_attr_type))
         (write_cb read_cb : pointer -> size_t -> call World),
    (String.length ctx_name < CONTEXT_NAME_MAX_SIZE)%nat ->
    (String.length ctx_desc < CONTEXT_DESC_MAX_SIZE)%nat ->
    is_string DEV_NAME_STR_MAX_SIZE (device_name d) = true ->
    - 99 <= to_int (device_id d) <= 999 ->
    device_channels d = NULL ->
    let ctx := filled static_context ctx_name ctx_desc (nodes (d :: rest))
                 (Some write_cb) (Some read_cb) in
    iio_init static_context ctx_name ctx_desc (nodes (d :: rest))
      (Some write_cb) (Some read_cb)
    = (Trap null_dereference,
       set_xml ctx (dtd ++ context_open ctx ++ device_open d)).
Proof.
  intros World iio_attr_type sc n desc d rest w r Hn Hdesc Hname Hid Hchn ctx.
  rewrite iio_init_generate. fold ctx. unfold generate_xml.
  assert (Hcn : is_string CONTEXT_NAME_MAX_SIZE (context_name ctx) = true)
    by now apply strncpy_is_string.
  assert (Hcd : is_string CONTEXT_DESC_MAX_SIZE (context_description ctx) = true)
    by now apply strncpy_is_string.
  apply range_is_string_decimal in Hid.
  rewrite render_context_blocks by assumption.
  destruct (context_blocks_fit _ _ ctx Hcn Hcd) as [E Hlen]. rewrite E.
  cbn [seq]. change (context_devices ctx) with (nodes (d :: rest)).
  cbn [for_each for_each_items].
  rewrite render_device_blocks by assumption.
  rewrite block_fits.
  - rewrite Hchn. cbn [seq for_each xml at_end].
    unfold device_open. cbn [join].
    rewrite ?append_empty_r, ?append_assoc. reflexivity.
  - apply is_string_strlen in Hname. apply is_string_strlen in Hid.
    rewrite strlen_append. revert Hlen Hname Hid. bound_strlen.
  - apply is_string_strlen in Hname. apply is_string_strlen in Hid.
    revert Hname Hid. bound_strlen.
Qed.

Lemma iio_init_device_without_channels_witness :
  exists d,
    iio_new_static_device "adc" 0 0 (Some Example.adc_attr_accessors)
      (Some Example.adc_chn_accessors) = Ok d
    /\ fst (Example.init (snd (iio_register_device true d NULL)))
       = Trap null_dereference.
Proof.
  eexists. split; [reflexivity|].
  match goal with
  | |- fst (Example.init (snd (iio_register_device true ?d NULL))) = _ =>
      change (Example.init (snd (iio_register_device true d NULL)))
        with (iio_init Example.zeroed "tiny" "Tiny IIOD" (nodes [d])
                (Some Example.transport) (Some Example.transport));
      rewrite (iio_init_device_without_channels _ _ Example.zeroed "tiny"
                 "Tiny IIOD" d [] Example.transport Example.transport)
  end.
  - reflexivity.
  - vm_compute. lia.
  - vm_compute. lia.
  - reflexivity.
  - vm_compute. split; discriminate.
  - reflexivity.
Defined.


(** X13. [generate_xml] prints the id of a device with [sprintf] into
    [char id_str[4]]. The characters and their NUL fit in that array
    exactly when the id, read as [int], lies in -99..999; the id is then
    printed inside the array, and a device whose name is a string gets its
    opening tag written with these characters before its channels and its
    attributes are rendered. *)
Theorem device_id_fits_id_str :
  forall (World iio_attr_type : Type) (d : device World iio_attr_type),
    (is_string 4 (decimal (to_int (device_id d))) = true
     <-> - 99 <= to_int (device_id d) <= 999)
    /\ (- 99 <= to_int (device_id d) <= 999 ->
        (forall (k : string -> step) (w : writer),
            sprintf_id (device_id d) k w = k (decimal (to_int (device_id d))) w)
        /\ (is_string DEV_NAME_STR_MAX_SIZE (device_name d) = true ->
            forall w,
              render_device d w
              = block ["<device id=" ++ QUOTE; decimal (to_int (device_id d));
                       QUOTE ++ " name=" ++ QUOTE; device_name d; QUOTE ++ ">"] w ;;
                for_each (device_channels d) render_channel ;;
                populate_attributes (device_attrs d) 2 ;;
                block ["</device>"])).
Proof.
  intros World iio_attr_type d. split.
  - split; [apply is_string_decimal_range | apply range_is_string_decimal].
  - intros H. apply range_is_string_decimal in H. split.
    + intros k w. unfold sprintf_id. unfold is_string in H. now rewrite H.
    + intros Hname w. now apply render_device_blocks.
Qed.

(** X14. The id in the descriptor leads back to the device. [sprintf]
    prints the id of a device as an [int]; [atoi] of these characters,
    converted back to [unsigned int], is the id again, so a request that
    names a registered device by the id printed for it resolves to the
    first device with that id. *)
Theorem printed_device_id_addresses_the_device :
  forall (World iio_attr_type : Type) (ctx : context World iio_attr_type)
         (dev : device World iio_attr_type),
    In dev (items (context_devices ctx)) ->
    0 <= device_id dev < UINT_MOD ->
    atoi (decimal (to_int (device_id dev))) = to_int (device_id dev)
    /\ device_matches dev (decimal (to_int (device_id dev))) = true
    /\ exists first,
         find_device ctx (decimal (to_int (device_id dev))) = Some first
         /\ device_id first = device_id dev.
Proof.
  intros World iio_attr_type ctx dev Hin Hid.
  assert (Hatoi : atoi (decimal (to_int (device_id dev)))
                  = to_int (device_id dev))
    by apply atoi_decimal, to_int_range.
  assert (Hmatch : device_matches dev (decimal (to_int (device_id dev))) = true).
  { unfold device_matches. rewrite Hatoi, to_uint_to_int. apply Z.eqb_eq.
    unfold to_uint. now apply Z.mod_small. }
  split; [exact Hatoi|]. split; [exact Hmatch|].
  unfold find_device.
  destruct (find _ (items (context_devices ctx))) as [first|] eqn:E.
  - exists first. split; [reflexivity|].
    apply find_some in E as [_ E]. unfold device_matches in *.
    apply Z.eqb_eq in E. apply Z.eqb_eq in Hmatch. congruence.
  - apply (find_none _ _ E) in Hin. congruence.
Qed.

Lemma printed_device_id_addresses_the_device_witness :
  atoi "1" = 1
  /\ exists dac,
       find_device (snd Example.dac_only) "1" = Some dac /\ device_id dac = 1.
Proof.
  assert (H : exists dev,
             items (context_devices (snd Example.dac_only)) = [dev]
             /\ device_id dev = 1) by (eexists; split; reflexivity).
  destruct H as (dev & Hitems & Hid).
  destruct (printed_device_id_addresses_the_device _ _ (snd Example.dac_only) dev)
    as (Hatoi & _ & first & Hfind & Hfirst).
  - rewrite Hitems. now left.
  - rewrite Hid. vm_compute. split; [discriminate | reflexivity].
  - rewrite Hid in *. split; [exact Hatoi|].
    exists first. split; [exact Hfind | exact Hfirst].
Defined.

(** ** A registry built through the registration functions *)

Lemma attributes_ok_intro (l : attribute_list) :
  l <> NULL -> forallb attribute_ok (items l) = true -> attributes_ok l = true.
Proof. destruct l; [congruence | intros _ H; exact H]. Qed.

Lemma channels_ok_intro (l : channel_list) :
  l <> NULL -> forallb channel_ok (items l) = true -> channels_ok l = true.
Proof. destruct l; [congruence | intros _ H; exact H]. Qed.

(** X15. A device is set up the way example2.c does it: its attribute
    list and its channel list are NULL at first and receive at least one
    item each through the registration functions; the attributes have
    names that are strings, the channels are well formed, the name of the
    device is a string and its id lies in -99..999; the device is then
    registered into a NULL device list. Called with this list, names
    shorter than their arrays and both callbacks, [iio_init] finds every
    list it walks and every string it reads: it returns, the document of
    the registry in [xml], if the document fits in [IIO_XML_SIZE] bytes,
    and stops at a failed [assert] if not. *)
Theorem registered_device_is_rendered :
  forall (World iio_attr_type : Type)
         (static_context : context World iio_attr_type)
         (dev : device World iio_attr_type)
         (attrs : list attribute) (channels : list channel)
         (ctx_name ctx_desc : string)
         (write_cb read_cb : pointer -> size_t -> call World),
    attrs <> [] ->
    forallb attribute_ok attrs = true ->
    channels <> [] ->
    forallb channel_ok channels = true ->
    device_attrs dev = snd (register_attributes attrs NULL) ->
    device_channels dev = snd (register_channels channels NULL) ->
    is_string DEV_NAME_STR_MAX_SIZE (device_name dev) = true ->
    - 99 <= to_int (device_id dev) <= 999 ->
    (String.length ctx_name < CONTEXT_NAME_MAX_SIZE)%nat ->
    (String.length ctx_desc < CONTEXT_DESC_MAX_SIZE)%nat ->
    let devices := snd (iio_register_device true dev NULL) in
    let ctx := filled static_context ctx_name ctx_desc devices
                 (Some write_cb) (Some read_cb) in
    context_ok ctx = true
    /\ (strlen (document ctx) < IIO_XML_SIZE ->
        iio_init static_context ctx_name ctx_desc devices (Some write_cb)
          (Some read_cb)
        = (Ok tt, set_xml ctx (document ctx)))
    /\ (IIO_XML_SIZE <= strlen (document ctx) ->
        fst (iio_init static_context ctx_name ctx_desc devices (Some write_cb)
               (Some read_cb))
        = Trap assert_failed).
Proof.
  intros World iio_attr_type sc dev attrs channels n desc w r
    Hattrs Hattrs_ok Hchannels Hchannels_ok Eattrs Echannels Hname Hid Hn Hdesc
    devices ctx.
  assert (Ha : attributes_ok (device_attrs dev) = true).
  { destruct (register_attributes_invariant attrs NULL eq_refl Hattrs_ok)
      as (Hok & _ & Hnn).
    rewrite Eattrs. apply attributes_ok_intro; [apply Hnn; now right | exact Hok]. }
  assert (Hc : channels_ok (device_channels dev) = true).
  { destruct (register_channels_invariant channels NULL eq_refl Hchannels_ok)
      as (Hok & Hnn).
    rewrite Echannels. apply channels_ok_intro; [apply Hnn; now right | exact Hok]. }
  assert (Hdev : device_ok dev = true).
  { unfold device_ok. rewrite (range_is_string_decimal _ Hid), Hname, Hc, Ha.
    reflexivity. }
  assert (Hctx : context_ok ctx = true).
  { unfold context_ok, ctx, filled.
    cbn [context_name context_description context_devices].
    rewrite (proj2 (strncpy_is_string _ _) Hn), (proj2 (strncpy_is_string _ _) Hdesc).
    change devices with (nodes [dev]). cbn [forallb andb]. now rewrite Hdev. }
  split; [exact Hctx|].
  change devices with (nodes [dev]). split.
  - intros Hfit. rewrite iio_init_generate.
    change (filled sc n desc (nodes [dev]) (Some w) (Some r)) with ctx.
    now rewrite generate_xml_fits.
  - intros Hbig. rewrite iio_init_generate.
    change (filled sc n desc (nodes [dev]) (Some w) (Some r)) with ctx.
    rewrite generate_xml_chunks by assumption.
    destruct (write_chunks_overflow (context_chunks ctx) dtd) as (text & E & _).
    + reflexivity.
    + now rewrite document_chunks.
    + rewrite E. reflexivity.
Qed.

Lemma registered_device_is_rendered_witness :
  exists adc,
    Example.adc = Some adc
    /\ context_ok (filled Example.zeroed "tiny" "Tiny IIOD" (nodes [adc])
                     (Some Example.transport) (Some Example.transport)) = true
    /\ fst (Example.init (nodes [adc])) = Ok tt.
Proof.
  eexists. split; [reflexivity|].
  match goal with
  | |- context_ok (filled _ _ _ (nodes [?d]) _ _) = true /\ _ =>
      destruct (registered_device_is_rendered _ _ Example.zeroed d
                  (map iio_new_static_attribute Example.adc_attrs)
                  Example.adc_channels "tiny" "Tiny IIOD"
                  Example.transport Example.transport)
        as (Hok & Hfit & _)
  end.
  - discriminate.
  - reflexivity.
  - discriminate.
  - reflexivity.
  - reflexivity.
  - reflexivity.
  - reflexivity.
  - vm_compute. split; discriminate.
  - vm_compute. lia.
  - vm_compute. lia.
  - split; [exact Hok|].
    assert (Hlen : strlen (document
                             (filled Example.zeroed "tiny" "Tiny IIOD"
                                (Example.dev_list Example.adc)
                                (Some Example.transport)
                                (Some Example.transport))) < IIO_XML_SIZE)
      by (vm_compute; reflexivity).
    exact (f_equal fst (Hfit Hlen)).
Defined.

(** ** Requests that name no channel or no attribute *)

Lemma find_channel_none (l : channel_list) (id : string) :
  ~ In id (map channel_id (items l)) -> find_channel l id = None.
Proof.
  intros H. unfold find_channel.
  destruct (find _ (items l)) as [c|] eqn:E; [|reflexivity].
  apply find_some in E as [Hin E]. apply strcmp_true in E.
  exfalso. apply H. rewrite <- E. now apply in_map.
Qed.

(** X16. On an installed context, for a request whose device is
    found: [write_attr] returns [-ENOENT] when the device has no
    attribute of the name; [ch_read_attr] and [ch_write_attr] return
    [-ENOENT] when the device has no channel of the id, and when the first
    channel of that id has no attribute of the name. No accessor is
    called. *)
Theorem dispatch_missing_channel_or_attribute :
  forall (World iio_attr_type : Type) (ctx : context World iio_attr_type)
         (dev : device World iio_attr_type) (device channel attr : string)
         (ch_out : bool) (buf : pointer) (len : size_t) (type : iio_attr_type),
    installed ctx ->
    find_device ctx device = Some dev ->
    (~ In attr (map attribute_name (items (device_attrs dev))) ->
     write_attr ctx device attr buf len type = Return (Value (- ENOENT)))
    /\ (~ In channel (map channel_id (items (device_channels dev))) ->
        ch_read_attr ctx device channel ch_out attr buf len
        = Return (Value (- ENOENT))
        /\ ch_write_attr ctx device channel ch_out attr buf len
           = Return (Value (- ENOENT)))
    /\ (forall chn,
          find_channel (device_channels dev) channel = Some chn ->
          ~ In attr (map attribute_name (items (channel_attrs chn))) ->
          ch_read_attr ctx device channel ch_out attr buf len
          = Return (Value (- ENOENT))
          /\ ch_write_attr ctx device channel ch_out attr buf len
             = Return (Value (- ENOENT))).
Proof.
  intros World iio_attr_type ctx dev device channel attr ch_out buf len type
    Hinst Hdev.
  apply installed_ok in Hinst.
  rewrite write_attr_spec, ch_read_attr_spec, ch_write_attr_spec by assumption.
  rewrite Hdev. split; [|split].
  - intros H. now rewrite find_attribute_none.
  - intros H. now rewrite find_channel_none.
  - intros chn Hchn H. now rewrite Hchn, find_attribute_none.
Qed.

Lemma dispatch_missing_channel_or_attribute_witness :
  write_attr (snd Example.main) "0" "gain" 0 16 Example.IIO_ATTR_TYPE_DEVICE
  = Return (Value (- ENOENT))
  /\ ch_read_attr (snd Example.main) "0" "voltage7" false "gain" 0 16
     = Return (Value (- ENOENT))
  /\ ch_read_attr (snd Example.main) "0" "voltage1" false "offset" 0 16
     = Return (Value (- ENOENT)).
Proof.
  assert (H : exists dev chn,
             find_device (snd Example.main) "0" = Some dev
             /\ find_channel (device_channels dev) "voltage1" = Some chn
             /\ forallb (fun n => negb (String.eqb n "gain"))
                  (map attribute_name (items (device_attrs dev))) = true
             /\ forallb (fun n => negb (String.eqb n "voltage7"))
                  (map channel_id (items (device_channels dev))) = true
             /\ forallb (fun n => negb (String.eqb n "offset"))
                  (map attribute_name (items (channel_attrs chn))) = true).
  { eexists. eexists. split; [reflexivity|]. split; [reflexivity|].
    split; [vm_compute; reflexivity|].
    split; vm_compute; reflexivity. }
  destruct H as (dev & chn & Hdev & Hchn & Hgain & Hv7 & Hoffset).
  destruct (dispatch_missing_channel_or_attribute _ _ (snd Example.main) dev "0"
              "voltage7" "gain" false 0 16 Example.IIO_ATTR_TYPE_DEVICE
              main_installed Hdev) as (Hwrite & Hchannel & _).
  destruct (dispatch_missing_channel_or_attribute _ _ (snd Example.main) dev "0"
              "voltage1" "offset" false 0 16 Example.IIO_ATTR_TYPE_DEVICE
              main_installed Hdev) as (_ & _ & Hattr).
  split; [|split].
  - exact (Hwrite (not_among _ _ Hgain)).
  - exact (proj1 (Hchannel (not_among _ _ Hv7))).
  - exact (proj1 (Hattr chn Hchn (not_among _ _ Hoffset))).
Defined.

(** X17. [iio_register_channel] takes an input and an output channel with
    the same id, but the dispatcher looks a channel up by its id alone:
    when a device holds two such channels, registered in this order,
    [ch_read_attr] and [ch_write_attr] only ever consult the first. A
    request for an attribute that the first channel lacks returns
    [-ENOENT] whatever [ch_out] says and whatever the second channel
    holds. *)
Theorem channel_with_same_id_is_shadowed :
  forall (World iio_attr_type : Type) (ctx : context World iio_attr_type)
         (dev : device World iio_attr_type) (device : string)
         (first second : channel) (ch_out : bool) (attr : string)
         (buf : pointer) (len : size_t),
    installed ctx ->
    find_device ctx device = Some dev ->
    channel_strings_ok first = true ->
    channel_strings_ok second = true ->
    channel_id first = channel_id second ->
    channel_type first <> channel_type second ->
    device_channels dev = snd (register_channels [first; second] NULL) ->
    ~ In attr (map attribute_name (items (channel_attrs first))) ->
    items (device_channels dev) = [first; second]
    /\ find_channel (device_channels dev) (channel_id second) = Some first
    /\ ch_read_attr ctx device (channel_id second) ch_out attr buf len
       = Return (Value (- ENOENT))
    /\ ch_write_attr ctx device (channel_id second) ch_out attr buf len
       = Return (Value (- ENOENT)).
Proof.
  intros World iio_attr_type ctx dev device first second ch_out attr buf len
    Hinst Hdev Hfirst Hsecond Hid Htype Hchannels Hattr.
  assert (Hitems : device_channels dev = nodes [first; second]).
  { rewrite Hchannels. cbn [register_channels].
    change (iio_register_channel true first NULL) with (Ok 1, nodes [first]).
    cbv iota beta.
    rewrite (iio_register_channel_fresh (nodes [first]) second); try assumption.
    - reflexivity.
    - cbn. now rewrite Hfirst.
    - cbn. intros [H | []]. unfold channel_key in H. congruence. }
  assert (Hfind : find_channel (device_channels dev) (channel_id second)
                  = Some first).
  { rewrite Hitems. unfold find_channel. cbn [items find].
    now rewrite Hid, strcmp_refl. }
  split; [now rewrite Hitems|]. split; [exact Hfind|].
  apply installed_ok in Hinst.
  rewrite ch_read_attr_spec, ch_write_attr_spec by assumption.
  rewrite Hdev, Hfind, find_attribute_none by assumption.
  split; reflexivity.
Qed.

Lemma two_way_installed : installed (snd two_way).
Proof.
  exists Example.zeroed, "tiny", "Tiny IIOD",
    (Example.dev_list
       (Example.new_device "codec" 0 ["gain"] two_way_channels
          Example.any_direction_chn_accessors)),
    (Some Example.transport), (Some Example.transport).
  reflexivity.
Qed.

Lemma channel_with_same_id_is_shadowed_witness :
  exists input output,
    two_way_channels = [input; output]
    /\ channel_type input = "input" /\ channel_type output = "output"
    /\ In "scale" (map attribute_name (items (channel_attrs output)))
    /\ ch_read_attr (snd two_way) "0" "voltage0" true "scale" 0 16
       = Return (Value (- ENOENT)).
Proof.
  eexists. eexists. split; [reflexivity|].
  split; [reflexivity|]. split; [reflexivity|].
  split; [left; reflexivity|].
  assert (H : exists dev,
             find_device (snd two_way) "0" = Some dev
             /\ device_channels dev = snd (register_channels two_way_channels NULL))
    by (eexists; split; reflexivity).
  destruct H as (dev & Hdev & Hchannels).
  destruct (channel_with_same_id_is_shadowed _ _ (snd two_way) dev "0"
              (Example.new_channel "voltage0" "input" ["raw"])
              (Example.new_channel "voltage0" "output" ["scale"])
              true "scale" 0 16 two_way_installed Hdev eq_refl eq_refl eq_refl)
    as (_ & _ & Hread & _).
  - discriminate.
  - exact Hchannels.
  - apply not_among. vm_compute. reflexivity.
  - exact Hread.
Defined.

(** X18. example2.c serves input channels only: in a registry whose
    devices all use its [read_ch_attr], a [ch_read_attr] request with
    [ch_out] set yields [-ENOENT] and leaves the buffer alone, whichever
    device, channel and attribute it names. *)
Theorem example_read_ch_attr_rejects_output :
  forall (ctx : context Example.World Example.iio_attr_type)
         (device channel attr : string) (buf : pointer) (len : size_t)
         (w : Example.World),
    installed ctx ->
    (forall dev, In dev (items (context_devices ctx)) ->
                 chn_read_attr (device_chn_accessors dev)
                 = Some Example.read_ch_attr) ->
    exists a,
      ch_read_attr ctx device channel true attr buf len = Return a
      /\ perform a w = (- ENOENT, w).
Proof.
  intros ctx device channel attr buf len w Hinst Hacc.
  apply installed_ok in Hinst. rewrite ch_read_attr_spec by assumption.
  eexists. split; [reflexivity|].
  destruct (find_device ctx device) as [dev|] eqn:Hdev; [|reflexivity].
  destruct (find_channel (device_channels dev) channel); [|reflexivity].
  destruct (find_attribute _ attr); [|reflexivity].
  unfold find_device in Hdev. apply find_some in Hdev as [Hin _].
  rewrite (Hacc dev Hin). reflexivity.
Qed.

Lemma example_read_ch_attr_rejects_output_witness :
  exists a,
    ch_read_attr (snd Example.main) "0" "voltage0" true "raw" 0 16 = Return a
    /\ perform a "buffer" = (- ENOENT, "buffer").
Proof.
  apply (example_read_ch_attr_rejects_output (snd Example.main) "0" "voltage0"
           "raw" 0 16 "buffer" main_installed).
  assert (H : exists d,
             items (context_devices (snd Example.main)) = [d]
             /\ chn_read_attr (device_chn_accessors d)
                = Some Example.read_ch_attr)
    by (eexists; split; reflexivity).
  destruct H as (d & Hitems & Hacc). rewrite Hitems.
  intros dev [<- | []]. exact Hacc.
Defined.

Lemma installed_xml {World iio_attr_type : Type}
    (ctx : context World iio_attr_type) :
  installed ctx -> context_xml ctx = document ctx.
Proof.
  intros (sc & n & d & devices & w & r & H).
  destruct devices as [|its]; [discriminate|].
  destruct w as [w|]; [|discriminate]. destruct r as [r|]; [|discriminate].
  rewrite iio_init_generate in H.
  destruct (generate_xml _) as [[text|t] c] eqn:E; [|discriminate].
  injection H as <-. apply generate_xml_returns in E as [_ ->]. reflexivity.
Qed.

(** X19. [iio_new_static_context] only copies the two names. Applied to
    the context that [iio_init] has installed it returns, since the
    device list is there, and leaves the device list, the callbacks and
    [xml] alone: [get_xml] still hands out the document rendered from the
    old names. Applied to a context without a device list, as zeroed
    memory is, it fails its [assert], and so does [iio_new_context] on
    such a block; without a block [iio_new_context] returns NULL. *)
Theorem iio_new_static_context_keeps_descriptor :
  forall (World iio_attr_type : Type)
         (ctx block : context World iio_attr_type) (name description : string),
    installed ctx ->
    context_devices block = NULL ->
    (exists ctx',
        iio_new_static_context ctx name description = Ok ctx'
        /\ context_name ctx' = strncpy CONTEXT_NAME_MAX_SIZE name
        /\ context_description ctx' = strncpy CONTEXT_DESC_MAX_SIZE description
        /\ context_devices ctx' = context_devices ctx
        /\ get_xml ctx' = document ctx)
    /\ iio_new_static_context block name description = Trap assert_failed
    /\ iio_new_context (Some block) name description = Trap assert_failed
    /\ iio_new_context (World := World) (iio_attr_type := iio_attr_type) None
         name description = Ok None.
Proof.
  intros World iio_attr_type ctx block name description Hinst Hblock.
  split; [|split; [|split]].
  - pose proof (installed_devices _ _ ctx Hinst) as Hnn.
    pose proof (installed_xml ctx Hinst) as Hxml.
    unfold iio_new_static_context.
    destruct (context_devices ctx) as [|its]; [congruence|].
    eexists. split; [reflexivity|]. cbn. repeat split. exact Hxml.
  - unfold iio_new_static_context. now rewrite Hblock.
  - unfold iio_new_context, iio_new_static_context. now rewrite Hblock.
  - reflexivity.
Qed.


Lemma iio_new_static_context_keeps_descriptor_witness :
  exists renamed,
    iio_new_static_context (snd Example.main) "renamed" "Another description"
    = Ok renamed
    /\ context_name renamed = "renamed"
    /\ get_xml renamed = document (snd Example.main)
    /\ String.eqb (get_xml renamed) (document renamed) = false
    /\ iio_new_context (Some Example.zeroed) "renamed" "Another description"
       = Trap assert_failed.
Proof.
  destruct (iio_new_static_context_keeps_descriptor _ _ (snd Example.main)
              Example.zeroed "renamed" "Another description" main_installed
              eq_refl)
    as ((renamed & Hnew & Hname & Hdesc & Hdevices & Hxml) & _ & Hblock & _).
  exists renamed. split; [exact Hnew|]. split; [exact Hname|].
  split; [exact Hxml|]. split; [|exact Hblock].
  unfold document, context_open. rewrite Hxml, Hname, Hdesc, Hdevices.
  vm_compute. reflexivity.
Defined.
